(** * CGATCore.Pipeline.Control: pool adapter, progress filter, DAG dump

    A shallow embedding of the parts of [CGATCore/Pipeline/Control.py]
    that the specification makes claims about:

    - [EventPool] (the gevent pool adapter),
    - [cache_os_functions] (the scoped swap of the [os] query functions),
    - [LoggingFilterProgress] (plan parser and streaming log filter),
    - [ruffus_return_dag] (the dependency table dump).

    Python [str] values are modelled as [string]; a character is one
    8-bit code point (the Latin-1 range of Python's code points).
    Python [int] is [Z].  The float [task_completed_percent] is modelled
    by the exact rational it rounds. *)

From Stdlib Require Import ZArith QArith Ascii.
From stdpp Require Import gmap strings list fin_maps.

(** ** Python string primitives *)

Module Py.

Definition code (c : ascii) : N := N_of_ascii c.

(** [str.isspace] on one character, which is also the class [\s] of
    [re] on [str] patterns: 0x09-0x0D, 0x1C-0x20, 0x85 and 0xA0 are
    the white-space code points below 256. *)
Definition isspace (c : ascii) : bool :=
  let n := code c in
  ((9 <=? n) && (n <=? 13) || (28 <=? n) && (n <=? 32)
   || (n =? 133) || (n =? 160))%N.

(** Line boundaries of [str.splitlines] below 256. *)
Definition islinebreak (c : ascii) : bool :=
  let n := code c in
  ((10 <=? n) && (n <=? 13) || (28 <=? n) && (n <=? 30) || (n =? 133))%N.

Definition LF : ascii := ascii_of_N 10.
Definition CR : ascii := ascii_of_N 13.
Definition DQUOTE : ascii := ascii_of_N 34.

Fixpoint rev_onto (s acc : string) : string :=
  match s with
  | EmptyString => acc
  | String c s' => rev_onto s' (String c acc)
  end.

Definition rev (s : string) : string := rev_onto s "".

(** [s.startswith(p)] *)
Definition startswith (s p : string) : bool := String.prefix p s.

(** [s.endswith(p)] *)
Definition endswith (s p : string) : bool := String.prefix (rev p) (rev s).

(** [p in s] for strings *)
Fixpoint contains (p s : string) : bool :=
  String.prefix p s ||
  match s with
  | EmptyString => false
  | String _ s' => contains p s'
  end.

Fixpoint lstrip (s : string) : string :=
  match s with
  | EmptyString => ""
  | String c s' => if isspace c then lstrip s' else s
  end.

(** [s.strip()] *)
Definition strip (s : string) : string := rev (lstrip (rev (lstrip s))).

(** [sep.join(l)] with the empty separator. *)
Fixpoint join0 (l : list string) : string :=
  match l with
  | [] => ""
  | s :: l' => s +:+ join0 l'
  end.

(** [sep.join(l)] *)
Fixpoint join (sep : string) (l : list string) : string :=
  match l with
  | [] => ""
  | [s] => s
  | s :: l' => s +:+ sep +:+ join sep l'
  end.

Definition cons_head (c : ascii) (l : list string) : list string :=
  match l with
  | [] => [String c ""]
  | h :: t => String c h :: t
  end.

(** [s.splitlines()]: CR LF counts as one boundary, and no empty
    last line is produced after a final boundary. *)
Fixpoint splitlines (s : string) : list string :=
  match s with
  | EmptyString => []
  | String c s' =>
      if islinebreak c then
        "" :: match s' with
              | String c' s'' =>
                  if Ascii.eqb c CR && Ascii.eqb c' LF
                  then splitlines s'' else splitlines s'
              | EmptyString => []
              end
      else cons_head c (splitlines s')
  end.

(** [s.split(sep)] for a separator [sep] that is not empty: the pieces
    between the successive occurrences of [sep], leftmost first.
    [skip] counts the characters of an occurrence still to pass. *)
Fixpoint split_go (sep : string) (skip : nat) (s : string) : list string :=
  match s with
  | EmptyString => [""]
  | String c s' =>
      match skip with
      | S k => split_go sep k s'
      | O =>
          if String.prefix sep s
          then "" :: split_go sep (Nat.pred (String.length sep)) s'
          else cons_head c (split_go sep 0 s')
      end
  end.

Definition split (sep s : string) : list string := split_go sep 0 s.

End Py.

(** ** The fragment of [re] that the module uses

    Every pattern of the module is a sequence of single characters and
    character classes, each taken once or under a greedy [*] or [+],
    with at most one capture group and an optional leading [^].  The
    matcher backtracks the way [re] does: a greedy repetition takes the
    longest run first and gives characters back one at a time. *)

Module Re.

Inductive atom :=
| One (p : ascii -> bool)     (* a character or a class *)
| Star (p : ascii -> bool)    (* class*  *)
| Plus (p : ascii -> bool)    (* class+  *)
| GOpen                       (* (  *)
| GClose                      (* )  *)
| Bol.                        (* ^  *)

Definition regex := list atom.

Definition chr (c : ascii) : atom := One (Ascii.eqb c).

Fixpoint lit (s : string) : regex :=
  match s with
  | EmptyString => []
  | String c s' => chr c :: lit s'
  end.

(** [.] without DOTALL *)
Definition dot (c : ascii) : bool := negb (Ascii.eqb c Py.LF).
(** [[^x]] *)
Definition notc (x c : ascii) : bool := negb (Ascii.eqb c x).

(** The text of the group that opened at suffix [gs] and closes at
    suffix [s]. *)
Definition captured (gs s : string) : string :=
  String.substring 0 (String.length gs - String.length s) gs.

(** [match_here r bos s gs grp]: match [r] at the start of [s].
    [bos] tells whether [s] is the whole subject (so that [^] holds),
    [gs] is the suffix at which the group opened and [grp] the text of
    the group once closed.  The result is the group and the suffix
    left after the match. *)
Fixpoint match_here (r : regex)
  : bool -> string -> string -> string -> option (string * string) :=
  match r with
  | [] => fun _ s _ grp => Some (grp, s)
  | One p :: r' => fun _ s gs grp =>
      match s with
      | String c s' => if p c then match_here r' false s' gs grp else None
      | EmptyString => None
      end
  | Star p :: r' =>
      fix star (bos : bool) (s gs grp : string) {struct s} :=
        match s with
        | String c s' =>
            if p c then
              match star false s' gs grp with
              | Some x => Some x
              | None => match_here r' bos s gs grp
              end
            else match_here r' bos s gs grp
        | EmptyString => match_here r' bos s gs grp
        end
  | Plus p :: r' => fun _ s gs grp =>
      match s with
      | String c s' =>
          if p c then
            (fix star (s gs grp : string) {struct s} :=
               match s with
               | String c s' =>
                   if p c then
                     match star s' gs grp with
                     | Some x => Some x
                     | None => match_here r' false s gs grp
                     end
                   else match_here r' false s gs grp
               | EmptyString => match_here r' false s gs grp
               end) s' gs grp
          else None
      | EmptyString => None
      end
  | GOpen :: r' => fun bos s _ grp => match_here r' bos s s grp
  | GClose :: r' => fun bos s gs _ => match_here r' bos s gs (captured gs s)
  | Bol :: r' => fun bos s gs grp =>
      if bos then match_here r' bos s gs grp else None
  end.

(** [re.match(r, s)]: the group and the rest, when [r] matches at the
    start of [s]. *)
Definition match_ (r : regex) (s : string) : option (string * string) :=
  match_here r true s s "".

(** [re.search(r, s)]: the leftmost match. *)
Fixpoint search_from (r : regex) (bos : bool) (s : string)
  : option (string * string) :=
  match match_here r bos s s "" with
  | Some x => Some x
  | None =>
      match s with
      | EmptyString => None
      | String _ s' => search_from r false s'
      end
  end.

Definition search (r : regex) (s : string) : option (string * string) :=
  search_from r true s.

(** Number of characters a match at the start of [s] takes. *)
Definition match_len (r : regex) (bos : bool) (s : string) : option nat :=
  match match_here r bos s s "" with
  | Some (_, rest) => Some (String.length s - String.length rest)
  | None => None
  end.

(** [re.sub(r, empty, s)] for a pattern whose matches are never empty:
    the text outside the successive leftmost matches. *)
Fixpoint sub_go (r : regex) (bos : bool) (skip : nat) (s : string) : string :=
  match s with
  | EmptyString => ""
  | String c s' =>
      match skip with
      | S k => sub_go r false k s'
      | O =>
          match match_len r bos s with
          | Some (S k) => sub_go r false k s'
          | _ => String c (sub_go r false 0 s')
          end
      end
  end.

Definition sub (r : regex) (s : string) : string := sub_go r true 0 s.

(** [re.split(r, s)] for a pattern whose matches are never empty. *)
Fixpoint split_go (r : regex) (bos : bool) (skip : nat) (s : string)
  : list string :=
  match s with
  | EmptyString => [""]
  | String c s' =>
      match skip with
      | S k => split_go r false k s'
      | O =>
          match match_len r bos s with
          | Some (S k) => "" :: split_go r false k s'
          | _ => Py.cons_head c (split_go r false 0 s')
          end
      end
  end.

Definition split (r : regex) (s : string) : list string := split_go r true 0 s.

End Re.

(** ** The patterns of the module *)

(** The pattern  \[.*-> ([^\]]+)\]  of a job and its output. *)
Definition RE_BRACKET : Re.regex :=
  Re.chr "[" :: Re.Star Re.dot :: Re.lit "-> "
  ++ Re.GOpen :: Re.Plus (Re.notc "]") :: Re.GClose :: [Re.chr "]"].

(** The pattern  Job\s+=  *)
Definition RE_JOB : Re.regex := Re.lit "Job" ++ [Re.Plus Py.isspace; Re.chr "="].

(** The pattern  Task\s+=  *)
Definition RE_TASK : Re.regex := Re.lit "Task" ++ [Re.Plus Py.isspace; Re.chr "="].

(** The pattern  Task = GROUP  where GROUP captures any run of [.] *)
Definition RE_TASK_NAME : Re.regex :=
  Re.lit "Task = " ++ [Re.GOpen; Re.Star Re.dot; Re.GClose].

(** The pattern  \s  *)
Definition RE_SPACE : Re.regex := [Re.One Py.isspace].

(** The pattern  ^[^:]+::  *)
Definition RE_PREFIX : Re.regex := Re.Bol :: Re.Plus (Re.notc ":") :: Re.lit "::".

(** The pattern  ^Q[^Q]+Q  where Q is the double quote character. *)
Definition RE_DOCSTRING : Re.regex :=
  [Re.Bol; Re.chr Py.DQUOTE; Re.Plus (Re.notc Py.DQUOTE); Re.chr Py.DQUOTE].

(** ** Exceptions *)

Inductive exn := AttributeError | KeyError | ValueError.

Inductive result (A : Type) :=
| Ok (a : A)
| Raise (e : exn).
Arguments Ok {A} a.
Arguments Raise {A} e.

Definition bind {A B : Type} (m : result A) (f : A -> result B) : result B :=
  match m with
  | Ok a => f a
  | Raise e => Raise e
  end.

Notation "'try' x <- m 'in' k" := (bind m (fun x => k))
  (at level 10, x name, m at level 100, k at level 200).

(** ** EventPool: the gevent pool seen as a ruffus pool *)

Module EventPool.

Section Pool.
Context {greenlet : Type}.

(** A [gevent.pool.Pool] holds the greenlets that have not finished. *)
Record pool := Pool { greenlets : list greenlet }.

(** [gevent.pool.Pool.__len__(self)] *)
Definition Pool__len__ (self : pool) : Z := Z.of_nat (length (greenlets self)).

Definition __len__ (self : pool) : Z :=
  let l := Pool__len__ self in
  if (l =? 0)%Z then 1%Z else l.

Definition close (self : pool) : pool := self.
End Pool.

Section Next.
Context {imap_unordered value : Type}.

(** [OLD_NEXT = gevent.pool.IMapUnordered.next], bound before the
    method is replaced: from an iterator, the next completed result
    (or the exception raised) and the iterator afterwards. *)
Variable OLD_NEXT : imap_unordered -> value * imap_unordered.

(** The timeout is [None] or a number of seconds. *)
Definition next_with_timeout (instance : imap_unordered)
    (timeout : option Q) : value * imap_unordered :=
  OLD_NEXT instance.
End Next.

End EventPool.

(** ** cache_os_functions: the scoped swap of the os query functions *)

Module OsCache.

(** The five wrapped queries. *)
Inductive query := stat | abspath | realpath | relpath | islink.

(** The wrapper that a table entry belongs to. *)
Definition query_id (q : query) : nat :=
  match q with
  | stat => 0 | abspath => 1 | realpath => 2 | relpath => 3 | islink => 4
  end.

(** A function object that one of the five names can be bound to:
    [SAVED_OS_STAT] and its siblings, or [cached_os_stat] and its
    siblings. *)
Inductive func := SAVED (q : query) | cached (q : query).

(** The bindings of [os.stat], [os.path.abspath], [os.path.realpath],
    [os.path.relpath] and [os.path.islink]. *)
Record os_module := OsModule {
  os_stat : func;
  os_path_abspath : func;
  os_path_realpath : func;
  os_path_relpath : func;
  os_path_islink : func
}.

Definition original_os : os_module :=
  OsModule (SAVED stat) (SAVED abspath) (SAVED realpath) (SAVED relpath)
    (SAVED islink).

Definition cached_os : os_module :=
  OsModule (cached stat) (cached abspath) (cached realpath) (cached relpath)
    (cached islink).

(** The process: the bindings, the tables of the memoizing wrappers,
    and the filesystem that the saved functions query (a result is
    abstracted to an integer). *)
Record world := World {
  os : os_module;
  table : gmap (nat * string) Z;
  filesystem : query -> string -> Z
}.

Definition set_os (w : world) (m : os_module) : world :=
  World m (table w) (filesystem w).

(** Modelled from the spec: [E.cached_function] of CGATCore/Experiment.py,
    which is not among the sources.  A wrapped query memoizes its
    result under the exact argument. *)
Definition call_func (f : func) (arg : string) (w : world) : Z * world :=
  match f with
  | SAVED q => (filesystem w q arg, w)
  | cached q =>
      match table w !! (query_id q, arg) with
      | Some v => (v, w)
      | None =>
          let v := filesystem w q arg in
          (v, World (os w) (<[(query_id q, arg) := v]> (table w))
                (filesystem w))
      end
  end.

Definition binding (m : os_module) (q : query) : func :=
  match q with
  | stat => os_stat m
  | abspath => os_path_abspath m
  | realpath => os_path_realpath m
  | relpath => os_path_relpath m
  | islink => os_path_islink m
  end.

(** A call through the name, as client code makes it: [os.stat(arg)]. *)
Definition call (q : query) (arg : string) (w : world) : Z * world :=
  call_func (binding (os w) q) arg w.

(** The statements of the generator function. *)
Inductive stmt :=
| Assign (target : query) (f : func)
| Yield.

Definition cache_os_functions : list stmt :=
  [ Assign stat (cached stat);
    Assign abspath (cached abspath);
    Assign realpath (cached realpath);
    Assign relpath (cached relpath);
    Assign islink (cached islink);
    Yield;
    Assign stat (SAVED stat);
    Assign abspath (SAVED abspath);
    Assign realpath (SAVED realpath);
    Assign relpath (SAVED relpath);
    Assign islink (SAVED islink) ].

Definition assign (m : os_module) (target : query) (f : func) : os_module :=
  match target with
  | stat => OsModule f (os_path_abspath m) (os_path_realpath m)
              (os_path_relpath m) (os_path_islink m)
  | abspath => OsModule (os_stat m) f (os_path_realpath m)
                 (os_path_relpath m) (os_path_islink m)
  | realpath => OsModule (os_stat m) (os_path_abspath m) f
                  (os_path_relpath m) (os_path_islink m)
  | relpath => OsModule (os_stat m) (os_path_abspath m)
                 (os_path_realpath m) f (os_path_islink m)
  | islink => OsModule (os_stat m) (os_path_abspath m)
                (os_path_realpath m) (os_path_relpath m) f
  end.

(** Run the generator up to its next [yield] (or to its end): the
    bindings then, and the statements that remain. *)
Fixpoint resume (g : list stmt) (m : os_module) : os_module * list stmt :=
  match g with
  | [] => (m, [])
  | Assign target f :: g' => resume g' (assign m target f)
  | Yield :: g' => (m, g')
  end.

(** How the body of a [with] statement ends. *)
Inductive exit := Completed | Returned | Raised.

(** [with g(): body] for a generator [g] under
    [contextlib.contextmanager].  Entering runs [g] to its [yield].
    When the body completes or returns, leaving resumes [g] after the
    [yield].  When the body raises, the exception is thrown into [g]
    at the [yield]; no statement of these generators is inside a
    [try], so none of the remaining ones runs and the exception goes
    on to the caller. *)
Definition with_ (g : list stmt) (body : world -> exit * world) (w : world)
  : exit * world :=
  let '(m1, rest) := resume g (os w) in
  let '(e, w2) := body (set_os w m1) in
  match e with
  | Completed | Returned => (e, set_os w2 (fst (resume rest (os w2))))
  | Raised => (Raised, w2)
  end.

End OsCache.

(** ** ruffus_return_dag: the dependency table *)

Module Dag.

Section Graph.
Context `{Countable node}.

(** The attributes of a task that the dump reads. *)
Variable func_name : node -> string.
Variable is_active : node -> bool.
Variable output_filenames : node -> list string.
Variable _get_inward : node -> list node.

Definition str_bool (b : bool) : string := if b then "True" else "False".

Definition TAB : string := String (ascii_of_N 9) "".
Definition NEWLINE : string := String Py.LF "".

(** The line written for [t]. *)
Definition row (t : node) : string :=
  Py.join TAB
    [ func_name t;
      str_bool (is_active t);
      Py.join "," (output_filenames t);
      Py.join "," (map func_name (_get_inward t)) ] +:+ NEWLINE.

(** [for x in t._get_inward(): if x not in visited: stack.append(x)] *)
Fixpoint push_inward (visited : gset node) (stack inward : list node)
  : list node :=
  match inward with
  | [] => stack
  | x :: inward' =>
      if decide (x ∈ visited)
      then push_inward visited stack inward'
      else push_inward visited (stack ++ [x]) inward'
  end.

(** The [while stack:] loop, with a bound on its iterations: the
    tasks in the order their lines are written, or [None] when the
    bound is reached before the stack is empty. *)
Fixpoint dump_loop (fuel : nat) (stack : list node) (visited : gset node)
  : option (list node) :=
  match stack with
  | [] => Some []
  | t :: stack' =>
      match fuel with
      | O => None
      | S fuel' =>
          let visited' := {[t]} ∪ visited in
          match dump_loop fuel' (push_inward visited' stack' (_get_inward t))
                  visited' with
          | Some out => Some (t :: out)
          | None => None
          end
      end
  end.

Definition HEADER : string :=
  "function" +:+ TAB +:+ "active" +:+ TAB +:+ "output_files" +:+ TAB
  +:+ "parents" +:+ NEWLINE.

(** The tasks written, from the targets that the ruffus preparation
    returned. *)
Definition visits (fuel : nat) (target_tasks forcedtorun_tasks : list node)
  : option (list node) :=
  dump_loop fuel (target_tasks ++ forcedtorun_tasks) ∅.

(** What is written to [stream]. *)
Definition ruffus_return_dag (fuel : nat)
    (target_tasks forcedtorun_tasks : list node) : option (list string) :=
  match visits fuel target_tasks forcedtorun_tasks with
  | Some ts => Some (HEADER :: map row ts)
  | None => None
  end.

(** The number of walks of at most [m] edges that leave [t], each
    edge counted as often as [_get_inward] lists it.  It bounds the
    iterations that an entry of the stack can cause. *)
Fixpoint walks (m : nat) (t : node) : nat :=
  match m with
  | O => 1
  | S m' => S (sum_list_with (walks m') (_get_inward t))
  end.

(** An entry of the stack together with the tasks on the way to it
    from a target. *)
Definition entry : Type := node * list node.

Definition entry_ok (nodes : list node) (visited : gset node)
    (e : entry) : Prop :=
  NoDup (snd e ++ [fst e])
  /\ (forall x, x ∈ snd e -> x ∈ visited)
  /\ (forall x, x ∈ snd e ++ [fst e] -> x ∈ nodes).

Definition weight (nodes : list node) (e : entry) : nat :=
  walks (length nodes - S (length (snd e))) (fst e).
End Graph.

End Dag.

(** ** LoggingFilterProgress *)

Module LoggingFilterProgress.

(** The status strings of tasks and jobs. *)
Inductive status := update | ignore | running | completed | uptodate.

(** An entry [[task_status, total, completed]] of [self.tasks]; the
    status is [None] for a task listed before any section header. *)
Record task_state := TaskState {
  ts_status : option status;    (* index 0 *)
  ts_total : Z;                 (* index 1 *)
  ts_completed : Z              (* index 2 *)
}.

Record tracker := Tracker {
  jobs : gmap string (string * string);
  tasks : gmap string task_state;
  map_job2task : gmap string string
}.

Definition empty_tracker : tracker := Tracker ∅ ∅ ∅.

(** One fragment of [split_by_job]: the job name and status that the
    fragment yields, if any. *)
Definition job_of_line (line : string) : option (string * status) :=
  if String.eqb (Py.strip line) "" then None
  else if Py.contains "Make missing directories" line then None
  else
    match Re.search RE_BRACKET line with
    | None => None                      (* AttributeError: continue *)
    | Some (job_name, _) =>
        let job_status :=
          if Py.contains "Job needs update" line then update else ignore in
        Some (job_name, job_status)
    end.

Fixpoint split_by_job_loop (lines : list string) : list (string * status) :=
  match lines with
  | [] => []
  | line :: lines' =>
      match job_of_line line with
      | Some y => y :: split_by_job_loop lines'
      | None => split_by_job_loop lines'
      end
  end.

Definition split_by_job (text : list string) : list (string * status) :=
  let text := Re.sub RE_DOCSTRING (Py.join0 text) in
  split_by_job_loop (Re.split RE_JOB text).

(** What [split_by_task] yields: task name, task status, jobs. *)
Definition chunk : Type := string * option status * list (string * status).

(** The local variables of [split_by_task]. *)
Record locals := Locals {
  block : list string;
  task_name : option string;
  task_status : option status
}.

(** [if task_name:] *)
Definition truthy (name : option string) : bool :=
  match name with
  | Some (String _ _) => true
  | _ => false
  end.

(** [if task_name: yield task_name, task_status, list(split_by_job(block))] *)
Definition flush (st : locals) : list chunk :=
  match task_name st with
  | Some name =>
      if truthy (Some name)
      then [(name, task_status st, split_by_job (block st))]
      else []
  | None => []
  end.

(** The body of the loop over the lines: the chunks it yields and the
    locals after it. *)
Definition task_step (st : locals) (line : string)
  : result (list chunk * locals) :=
  let line := Py.strip line in
  if Py.startswith line "Tasks which will be run" then
    Ok ([], Locals [] (task_name st) (Some update))
  else if Py.startswith line "Tasks which are up-to-date" then
    Ok ([], Locals [] (task_name st) (Some ignore))
  else if Py.startswith line "Task = " then
    match Re.match_ RE_TASK_NAME line with
    | None => Raise AttributeError
    | Some (name, _) =>
        Ok (flush st, Locals [] (Some name) (task_status st))
    end
  else if negb (String.eqb line "") then
    Ok ([], Locals (block st ++ [line]) (task_name st) (task_status st))
  else Ok ([], st).

Fixpoint split_by_task_loop (st : locals) (lines : list string)
  : result (list chunk) :=
  match lines with
  | [] => Ok (flush st)
  | line :: lines' =>
      try r <- task_step st line in
      try ys <- split_by_task_loop (snd r) lines' in
      Ok (fst r ++ ys)
  end.

Definition split_by_task (text : string) : result (list chunk) :=
  split_by_task_loop (Locals [] None None) (Py.splitlines text).

(** The body of the loop over the jobs of one task: [self] and
    [to_run] after one job. *)
Definition add_job (name : string) (acc : tracker * Z)
    (job : string * status) : tracker * Z :=
  let '(self, to_run) := acc in
  let '(job_name, job_status) := job in
  let jobs' := <[job_name := (name, job_name)]> (jobs self) in
  let to_run' :=
    match job_status with
    | update => (to_run + 1)%Z
    | _ => to_run
    end in
  let map' := <[Re.sub RE_SPACE job_name := name]> (map_job2task self) in
  (Tracker jobs' (tasks self) map', to_run').

(** The body of the loop over the tasks. *)
Definition add_task (self : tracker) (c : chunk) : tracker :=
  let '(name, st, js) := c in
  if Py.startswith name "(mkdir" then self
  else
    let '(self', to_run) := foldl (add_job name) (self, 0%Z) js in
    let len := Z.of_nat (length js) in
    Tracker (jobs self')
            (<[name := TaskState st len (len - to_run)]> (tasks self'))
            (map_job2task self').

Definition __init__ (ruffus_text : string) : result tracker :=
  try chunks <- split_by_task ruffus_text in
  Ok (foldl add_task empty_tracker chunks).

(** A [logging.LogRecord]: the two attributes the filter reads and the
    four it sets ([None] while an attribute is not set). *)
Record log_record := LogRecord {
  filename : string;
  msg : string;
  task_status_attr : option (option status);
  task_total_attr : option Z;
  task_completed_attr : option Z;
  task_completed_percent_attr : option Q
}.

(** The dictionary [data] that is logged as JSON. *)
Record progress_event := ProgressEvent {
  ev_task : string;
  ev_task_status : option status;
  ev_task_total : Z;
  ev_task_completed : Z;
  ev_task_completed_percent : Q
}.

(** What [filter] returns: [True], or [None] from a bare [return]. *)
Inductive retval := RTrue | RNone.

(** [logging] keeps a record when the filter's result is truthy. *)
Definition keeps (r : retval) : bool :=
  match r with
  | RTrue => true
  | RNone => false
  end.

(** The effects of one call: the result, [self] and the record after
    the call, and what was sent to [self.logger]. *)
Record outcome := Outcome {
  returned : retval;
  self_after : tracker;
  record_after : log_record;
  logged : list progress_event
}.

Definition pass (r : retval) (self : tracker) (record : log_record) : outcome :=
  Outcome r self record [].

(** [100.0 * task_completed / task_total if task_total > 0 else 0] *)
Definition completed_percent (t : task_state) : Q :=
  if (0 <? ts_total t)%Z
  then (100 * inject_Z (ts_completed t) / inject_Z (ts_total t))%Q
  else 0%Q.

(** [self.tasks[task_name][2] += 1] *)
Definition increment (self : tracker) (name : string) : result tracker :=
  match tasks self !! name with
  | None => Raise KeyError
  | Some t =>
      Ok (Tracker (jobs self)
            (<[name := TaskState (ts_status t) (ts_total t) (ts_completed t + 1)]>
               (tasks self))
            (map_job2task self))
  end.

(** [self.tasks[task_name][0] = s] *)
Definition set_status (self : tracker) (name : string) (s : status)
  : result tracker :=
  match tasks self !! name with
  | None => Raise KeyError
  | Some t =>
      Ok (Tracker (jobs self)
            (<[name := TaskState (Some s) (ts_total t) (ts_completed t)]>
               (tasks self))
            (map_job2task self))
  end.

(** The end of [filter], from [if task_name is None] on. *)
Definition update_log_record (self : tracker) (record : log_record)
    (name : option string) : result outcome :=
  match name with
  | None => Ok (pass RNone self record)
  | Some name =>
      match tasks self !! name with
      | None => Raise KeyError
      | Some t =>
          let percent := completed_percent t in
          let shown := Re.sub RE_PREFIX name in
          let data :=
            ProgressEvent shown (ts_status t) (ts_total t) (ts_completed t)
              percent in
          let record' :=
            LogRecord (filename record) (msg record)
              (Some (ts_status t)) (Some (ts_total t))
              (Some (ts_completed t)) (Some percent) in
          Ok (Outcome RTrue self record' [data])
      end
  end.

Definition is_Some_b {A} (o : option A) : bool :=
  match o with Some _ => true | None => false end.

Definition filter (self : tracker) (record : log_record) : result outcome :=
  if negb (Py.endswith (filename record) "task.py") then
    Ok (pass RTrue self record)
  else if is_Some_b (Re.search RE_JOB (msg record)) then
    match Re.search RE_BRACKET (msg record) with
    | None => Ok (pass RTrue self record)          (* AttributeError *)
    | Some (job_name, _) =>
        let job_name := Re.sub RE_SPACE job_name in
        match map_job2task self !! job_name with
        | None => Ok (pass RNone self record)
        | Some name =>
            try self' <- (if Py.contains "completed" (msg record)
                          then increment self name else Ok self) in
            update_log_record self' record (Some name)
        end
    end
  else if is_Some_b (Re.search RE_TASK (msg record)) then
    match Py.split " = " (Py.strip (msg record)) with
    | [before; name] =>
        match tasks self !! name with
        | None => Ok (pass RTrue self record)
        | Some _ =>
            if String.eqb before "Task enters queue" then
              try self' <- set_status self name running in
              update_log_record self' record (Some name)
            else if String.eqb before "Completed Task" then
              try self' <- set_status self name completed in
              update_log_record self' record (Some name)
            else if String.eqb before "Uptodate Task" then
              try self' <- set_status self name uptodate in
              update_log_record self' record (Some name)
            else Ok (pass RTrue self record)
        end
    | _ => Ok (pass RTrue self record)             (* ValueError *)
    end
  else Ok (pass RTrue self record).

(** The filter applied to the records of a stream in arrival order:
    the tracker after the last one. *)
Fixpoint feed (self : tracker) (records : list log_record) : result tracker :=
  match records with
  | [] => Ok self
  | r :: records' =>
      try o <- filter self r in
      feed (self_after o) records'
  end.

End LoggingFilterProgress.

(** ** Reachable trackers *)

(** The trackers a run can hold: the one built from the plan text, and
    those after each record filtered. *)
Inductive reachable : LoggingFilterProgress.tracker -> Prop :=
| reach_init text self :
    LoggingFilterProgress.__init__ text = Ok self -> reachable self
| reach_filter self record o :
    reachable self ->
    LoggingFilterProgress.filter self record = Ok o ->
    reachable (LoggingFilterProgress.self_after o).

(** ** Invariants of the tracker *)

(** Every task that the job index names has an entry in [self.tasks]. *)
Definition owners_known (self : LoggingFilterProgress.tracker) : Prop :=
  forall j n,
    LoggingFilterProgress.map_job2task self !! j = Some n ->
    is_Some (LoggingFilterProgress.tasks self !! n).

(** No count is negative. *)
Definition counts_ok (self : LoggingFilterProgress.tracker) : Prop :=
  forall n t,
    LoggingFilterProgress.tasks self !! n = Some t ->
    (0 <= LoggingFilterProgress.ts_total t
     /\ 0 <= LoggingFilterProgress.ts_completed t)%Z.

(** How one entry may change when a record is filtered. *)
Definition entry_step (t t' : LoggingFilterProgress.task_state) : Prop :=
  LoggingFilterProgress.ts_total t' = LoggingFilterProgress.ts_total t
  /\ (LoggingFilterProgress.ts_completed t
      <= LoggingFilterProgress.ts_completed t')%Z.

(** How the tracker may change when records are filtered: the same
    tasks, each with the same total and no smaller a count. *)
Definition tracker_step (self self' : LoggingFilterProgress.tracker) : Prop :=
  LoggingFilterProgress.map_job2task self'
  = LoggingFilterProgress.map_job2task self
  /\ forall n,
      match LoggingFilterProgress.tasks self !! n,
            LoggingFilterProgress.tasks self' !! n with
      | Some t, Some t' => entry_step t t'
      | None, None => True
      | _, _ => False
      end.

(** The number of jobs of a chunk that need an update. *)
Definition needing_update
    (js : list (string * LoggingFilterProgress.status)) : nat :=
  length (List.filter
            (fun j => match snd j with
                      | LoggingFilterProgress.update => true
                      | _ => false
                      end) js).

(** [re.sub] of white space by nothing. *)
Definition normalize (job_name : string) : string := Re.sub RE_SPACE job_name.

(** The characters of a string. *)
Definition mem (c : ascii) (s : string) : Prop :=
  In c (String.list_ascii_of_string s).

(** ** The plan text, line by line *)

(** A section header of the plan. *)
Definition is_marker (line : string) : bool :=
  Py.startswith (Py.strip line) "Tasks which will be run"
  || Py.startswith (Py.strip line) "Tasks which are up-to-date".

(** The task that a task header line names. *)
Definition header_name (line : string) : option string :=
  match Re.match_ RE_TASK_NAME (Py.strip line) with
  | Some (name, _) => Some name
  | None => None
  end.

(** The mode of the section that the lines end in: that of the last
    section header among them, or the one given when there is none. *)
Fixpoint section_mode_from (m : option LoggingFilterProgress.status)
    (lines : list string) : option LoggingFilterProgress.status :=
  match lines with
  | [] => m
  | l :: lines' =>
      section_mode_from
        (if Py.startswith (Py.strip l) "Tasks which will be run"
         then Some LoggingFilterProgress.update
         else if Py.startswith (Py.strip l) "Tasks which are up-to-date"
              then Some LoggingFilterProgress.ignore
              else m)
        lines'
  end.

Definition section_mode (lines : list string)
  : option LoggingFilterProgress.status :=
  section_mode_from None lines.

(** The block of a task: the lines below its header, stripped, without
    the empty ones. *)
Definition block_of (body : list string) : list string :=
  List.filter (fun l => negb (String.eqb l "")) (Py.strip <$> body).

(** The normalized labels of the jobs of a chunk. *)
Definition labels (c : LoggingFilterProgress.chunk) : list string :=
  (fun j => normalize (fst j)) <$> snd c.

Definition chunk_name (c : LoggingFilterProgress.chunk) : string := fst (fst c).

(** The loop of [split_by_task] over some of the lines: what it yields
    and the locals it ends with. *)
Fixpoint run (st : LoggingFilterProgress.locals) (lines : list string)
  : result (list LoggingFilterProgress.chunk * LoggingFilterProgress.locals) :=
  match lines with
  | [] => Ok ([], st)
  | l :: lines' =>
      try r <- LoggingFilterProgress.task_step st l in
      try r' <- run (snd r) lines' in
      Ok (fst r ++ fst r', snd r')
  end.

(** ** Example inputs *)

Module Examples.
Import LoggingFilterProgress.

Definition NL : string := String Py.LF "".

(** The plan of the specification's example: one task with two jobs,
    the first of which needs an update. *)
Definition plan : string :=
  "Tasks which will be run:" +:+ NL +:+ NL +:+
  "Task = align" +:+ NL +:+
  "   Job  = [x -> out1.bam]" +:+ NL +:+
  "     Job needs update: Missing file" +:+ NL +:+
  "   Job  = [x -> out2.bam]" +:+ NL.

Definition parsed (text : string) : tracker :=
  match __init__ text with
  | Ok self => self
  | Raise _ => empty_tracker
  end.

Definition tracker0 : tracker := parsed plan.

(** A plan with two tasks in one section. *)
Definition plan_two : string :=
  "Tasks which will be run:" +:+ NL +:+ NL +:+
  "Task = align" +:+ NL +:+
  "   Job  = [x -> out1.bam]" +:+ NL +:+
  "     Job needs update: Missing file" +:+ NL +:+
  "   Job  = [x -> out2.bam]" +:+ NL +:+
  "Task = count" +:+ NL +:+
  "   Job  = [out1.bam -> counts.tsv]" +:+ NL.

(** A plan whose only task is directory bookkeeping. *)
Definition plan_mkdir : string :=
  "Tasks which will be run:" +:+ NL +:+
  "Task = (mkdir out.dir)" +:+ NL +:+
  "   Job  = [x -> out.dir]" +:+ NL.

(** A plan in which two tasks have a job with the same output. *)
Definition plan_collision : string :=
  "Tasks which will be run:" +:+ NL +:+
  "Task = first" +:+ NL +:+
  "   Job  = [x -> out.txt]" +:+ NL +:+
  "Task = second" +:+ NL +:+
  "   Job  = [y -> out.txt]" +:+ NL.

(** A plan that lists one task twice. *)
Definition plan_twice : string :=
  "Tasks which will be run:" +:+ NL +:+
  "Task = align" +:+ NL +:+
  "   Job  = [x -> out1.bam]" +:+ NL +:+
  "   Job  = [x -> out2.bam]" +:+ NL +:+
  "Task = align" +:+ NL +:+
  "   Job  = [x -> out3.bam]" +:+ NL.

(** A plan with both sections, as ruffus prints them. *)
Definition plan_sections : string :=
  "Tasks which are up-to-date:" +:+ NL +:+ NL +:+
  "Task = index" +:+ NL +:+
  "   Job  = [x -> genome.idx]" +:+ NL +:+ NL +:+
  "Tasks which will be run:" +:+ NL +:+ NL +:+
  "Task = align" +:+ NL +:+
  "   Job  = [x -> out1.bam]" +:+ NL +:+
  "     Job needs update: Missing file" +:+ NL.

Definition record (m : string) : log_record :=
  LogRecord "task.py" m None None None None.

Definition world0 : OsCache.world :=
  OsCache.World OsCache.original_os ∅ (fun _ _ => 1%Z).

(** A file changes: every query now answers 2. *)
Definition touch (w : OsCache.world) : OsCache.world :=
  OsCache.World (OsCache.os w) (OsCache.table w) (fun _ _ => 2%Z).

(** A region that queries a file and completes. *)
Definition body_ok (w : OsCache.world) : OsCache.exit * OsCache.world :=
  (OsCache.Completed, snd (OsCache.call OsCache.stat "a" w)).

(** Four tasks, numbered 0 to 3 and named A to D: A depends on B and
    C, and both depend on D. *)
Definition diamond (t : nat) : list nat :=
  match t with
  | 0 => [1; 2]
  | 1 => [3]
  | 2 => [3]
  | _ => []
  end.

(** Two tasks that depend on each other. *)
Definition cycle (t : nat) : list nat :=
  match t with
  | 0 => [1]
  | 1 => [0]
  | _ => []
  end.

Definition name_of (t : nat) : string :=
  match t with
  | 0 => "A"
  | 1 => "B"
  | 2 => "C"
  | _ => "D"
  end.

Definition outputs_of (t : nat) : list string :=
  match t with
  | 3 => ["d1.txt"; "d2.txt"]
  | _ => []
  end.

(** A region that queries a file and then fails. *)
Definition body_fail (w : OsCache.world) : OsCache.exit * OsCache.world :=
  (OsCache.Raised, snd (OsCache.call OsCache.stat "a" w)).
End Examples.

(** ** Reachability in the task graph *)

(** The tasks that can be reached from the targets along the edges that
    [_get_inward] lists. *)
Inductive reachable_from {node : Type} (inward : node -> list node)
    (targets : list node) : node -> Prop :=
| reach_target t : t ∈ targets -> reachable_from inward targets t
| reach_inward t x :
    reachable_from inward targets t -> x ∈ inward t ->
    reachable_from inward targets x.

(** ** The phases of a task record *)

(** The status that the text before the equals sign of a task record
    stands for. *)
Definition phase_status (before : string)
  : option LoggingFilterProgress.status :=
  if String.eqb before "Task enters queue"
  then Some LoggingFilterProgress.running
  else if String.eqb before "Completed Task"
       then Some LoggingFilterProgress.completed
       else if String.eqb before "Uptodate Task"
            then Some LoggingFilterProgress.uptodate
            else None.

(** The statuses that the plan parser gives. *)
Definition parsed_status (s : option LoggingFilterProgress.status) : Prop :=
  s = None \/ s = Some LoggingFilterProgress.update
  \/ s = Some LoggingFilterProgress.ignore.

(** What holds of the three tables after every chunk of the plan. *)
Definition tables_ok (self : LoggingFilterProgress.tracker) : Prop :=
  (forall n t,
      LoggingFilterProgress.tasks self !! n = Some t ->
      Py.startswith n "(mkdir" = false
      /\ parsed_status (LoggingFilterProgress.ts_status t)
      /\ (0 <= LoggingFilterProgress.ts_completed t
          <= LoggingFilterProgress.ts_total t)%Z)
  /\ (forall j n,
        LoggingFilterProgress.map_job2task self !! j = Some n ->
        is_Some (LoggingFilterProgress.tasks self !! n))
  /\ (forall j p,
        LoggingFilterProgress.jobs self !! j = Some p ->
        snd p = j /\ is_Some (LoggingFilterProgress.tasks self !! fst p)).

(** ** The other functions of the module: exceptions and results *)

Module Exc.

(** The exceptions that the functions below raise. *)
Inductive t :=
| ValueError | TypeError | KeyError | IndexError | OSError
| UnboundLocalError | JSONDecodeError.

(** A call returns a value or raises. *)
Inductive res (A : Type) :=
| Val (a : A)
| Err (e : t).
Arguments Val {A} a.
Arguments Err {A} e.

Definition and_then {A B : Type} (m : res A) (f : A -> res B) : res B :=
  match m with
  | Val a => f a
  | Err e => Err e
  end.

End Exc.

Notation "'perform' x <- m 'in' k" := (Exc.and_then m (fun x => k))
  (at level 10, x name, m at level 100, k at level 200).

(** ** LoggingFilterPipelineName *)

Module LoggingFilterPipelineName.

Section Filter.
(** The values of the attributes of a record and of the members of a
    JSON object. *)
Context {value : Type}.

(** A string as a value. *)
Variable str : string -> value.

(** [record.getMessage()], from the attributes of the record. *)
Variable getMessage : gmap string value -> string.

(** [json.loads] on a text that starts with an opening brace: the
    members of the object in their order, or nothing when the text is
    not JSON and the call raises. *)
Variable json_loads : string -> option (list (string * value)).

(** [message[2:]] *)
Definition from_2 (message : string) : string :=
  match message with
  | String _ (String _ rest) => rest
  | _ => ""
  end.

(** [for k, v in list(json_message.items()): setattr(record, k, v)] *)
Definition set_members (record : gmap string value)
    (members : list (string * value)) : gmap string value :=
  foldl (fun r kv => <[fst kv := snd kv]> r) record members.

(** [filter(self, record)] for [self.app_name = name]: what is returned
    and the attributes of the record afterwards. *)
Definition filter (name : string) (record : gmap string value)
  : Exc.res (bool * gmap string value) :=
  let record := <["app_name" := str name]> record in
  let message := getMessage record in
  perform json_message <-
    (if Py.startswith message "- {" then
       match json_loads (from_2 message) with
       | Some members => Exc.Val (Some members)
       | None => Exc.Err Exc.JSONDecodeError
       end
     else if Py.startswith message "{" then
       match json_loads message with
       | Some members => Exc.Val (Some members)
       | None => Exc.Err Exc.JSONDecodeError
       end
     else Exc.Val None) in
  match json_message with
  | Some (kv :: members) => Exc.Val (true, set_members record (kv :: members))
  | _ => Exc.Val (true, record)
  end.
End Filter.

End LoggingFilterPipelineName.

(** ** update_params_with_commandline_options *)

Module Params.

(** The values of options and parameters. *)
Inductive value :=
| VNone
| VBool (b : bool)
| VInt (z : Z)
| VStr (s : string).

(** An entry of the parameter dictionary: a value, or the dictionary of
    a section. *)
Inductive entry :=
| Scalar (v : value)
| Section_ (d : gmap string value).

(** The attributes of [options] that the function reads. *)
Record options := Options {
  dry_run : value;
  cluster_queue : value;
  cluster_priority : value;
  cluster_num_jobs : value;
  cluster_options : value;
  cluster_parallel_environment : value;
  without_cluster : value;
  shell_logfile : value;
  ruffus_checksums_level : value;
  variables_to_set : list string
}.

(** The truth value of a value in a condition. *)
Definition truthy (v : value) : bool :=
  match v with
  | VNone => false
  | VBool b => b
  | VInt z => negb (z =? 0)%Z
  | VStr s => negb (String.eqb s "")
  end.

(** [if v is not None: params[key] = v] *)
Definition set_if_given (key : string) (v : value)
    (params : gmap string entry) : gmap string entry :=
  match v with
  | VNone => params
  | _ => <[key := Scalar v]> params
  end.

Section Update.
(** [IOTools.str2val], which is not among the sources. *)
Variable str2val : string -> value.

(** The body of the loop over the split points [x] of a variable name:
    the new style entry [params[prefix][suffix] = value].  A section is
    one dictionary under one key. *)
Definition set_new_style (parts : list string) (v : value)
    (params : gmap string entry) (x : nat) : Exc.res (gmap string entry) :=
  let prefix := Py.join "_" (take x parts) in
  match params !! prefix with
  | None => Exc.Val params
  | Some (Section_ d) =>
      let suffix := Py.join "_" (drop x parts) in
      Exc.Val (<[prefix := Section_ (<[suffix := v]> d)]> params)
  | Some (Scalar _) => Exc.Err Exc.TypeError
  end.

Fixpoint set_new_styles (parts : list string) (v : value)
    (params : gmap string entry) (xs : list nat)
  : Exc.res (gmap string entry) :=
  match xs with
  | [] => Exc.Val params
  | x :: xs' =>
      perform params' <- set_new_style parts v params x in
      set_new_styles parts v params' xs'
  end.

(** The body of the loop over [options.variables_to_set]. *)
Definition set_variable (params : gmap string entry) (variables : string)
  : Exc.res (gmap string entry) :=
  match Py.split "=" variables with
  | [variable; value] =>
      let v := str2val (Py.strip value) in
      let params := <[Py.strip variable := Scalar v]> params in
      let parts := Py.split "_" variable in
      set_new_styles parts v params (seq 1 (length parts - 1))
  | _ => Exc.Err Exc.ValueError
  end.

Fixpoint set_variables (params : gmap string entry) (items : list string)
  : Exc.res (gmap string entry) :=
  match items with
  | [] => Exc.Val params
  | variables :: items' =>
      perform params' <- set_variable params variables in
      set_variables params' items'
  end.

Definition update_params_with_commandline_options
    (params : gmap string entry) (options : options)
  : Exc.res (gmap string entry) :=
  let params := <["dryrun" := Scalar (dry_run options)]> params in
  let params := set_if_given "cluster_queue" (cluster_queue options) params in
  let params :=
    set_if_given "cluster_priority" (cluster_priority options) params in
  let params :=
    set_if_given "cluster_num_jobs" (cluster_num_jobs options) params in
  let params :=
    set_if_given "cluster_options" (cluster_options options) params in
  let params :=
    set_if_given "cluster_parallel_environment"
      (cluster_parallel_environment options) params in
  let params :=
    if truthy (without_cluster options)
    then <["without_cluster" := Scalar (VBool true)]> params
    else params in
  let params := <["shell_logfile" := Scalar (shell_logfile options)]> params in
  let params :=
    <["ruffus_checksums_level" := Scalar (ruffus_checksums_level options)]>
      params in
  set_variables params (variables_to_set options).
End Update.

End Params.

(** ** write_config_files *)

Module ConfigFiles.

(** What a path names: a file with its content, or a directory. *)
Inductive node :=
| File (content : string)
| Directory.

(** [E.warn] on a file that exists, [E.info] on a file created. *)
Inductive message :=
| Skipped (dest : string)
| Created (dest : string).

(** The process while the function runs: the files and directories by
    path, and what was sent to the log.  Two paths name the same file
    only when they are the same string, and there are no symbolic
    links; [WriteConfig] below leaves the file system open. *)
Record state := State {
  files : gmap string node;
  messages : list message
}.

Definition config_files : list string := ["pipeline.ini"; "conf.py"].

Section Write.
(** [os.path.join] *)
Variable join : string -> string -> string.

(** [os.path.exists] *)
Definition exists_ (fs : gmap string node) (path : string) : bool :=
  bool_decide (is_Some (fs !! path)).

(** [shutil.copyfile(src, dest)] for a source that exists: a directory
    cannot be copied. *)
Definition copyfile (fs : gmap string node) (src dest : string)
  : Exc.res (gmap string node) :=
  match fs !! src with
  | Some (File content) => Exc.Val (<[dest := File content]> fs)
  | _ => Exc.Err Exc.OSError
  end.

(** The loop over [paths] with its [else]: the state after it, and the
    exception if it raises. *)
Fixpoint copy_from (st : state) (dest : string) (paths : list string)
  : state * option Exc.t :=
  match paths with
  | [] => (st, Some Exc.ValueError)
  | path :: paths' =>
      let src := join path dest in
      if exists_ (files st) src then
        match copyfile (files st) src dest with
        | Exc.Val fs' => (State fs' (messages st ++ [Created dest]), None)
        | Exc.Err e => (st, Some e)
        end
      else copy_from st dest paths'
  end.

(** The loop over [config_files]. *)
Fixpoint write_each (st : state) (paths dests : list string)
  : state * option Exc.t :=
  match dests with
  | [] => (st, None)
  | dest :: dests' =>
      if exists_ (files st) dest then
        write_each (State (files st) (messages st ++ [Skipped dest]))
          paths dests'
      else
        match copy_from st dest paths with
        | (st', None) => write_each st' paths dests'
        | (st', Some e) => (st', Some e)
        end
  end.

(** The state after the call, and the exception if the call raises. *)
Definition write_config_files (st : state) (pipeline_path general_path : string)
  : state * option Exc.t :=
  write_each st [pipeline_path; general_path] config_files.
End Write.

End ConfigFiles.

(** ** write_config_files over any file system *)

(** The same function with [os.path.exists] and [shutil.copyfile] left
    open, so that symbolic links, permissions and the like are whatever
    the file system makes of them; every call of [shutil.copyfile] is
    recorded with the files at the time of the call. *)
Module WriteConfig.

Section Calls.
Context {world : Type}.

(** [os.path.join] *)
Variable join : string -> string -> string.

(** [os.path.exists] *)
Variable exists_ : world -> string -> bool.

(** [shutil.copyfile(src, dest)]: the files afterwards, and the
    exception if it raises. *)
Variable copyfile : world -> string -> string -> world * option Exc.t.

(** A call [shutil.copyfile(src, dest)] and the files it was made on. *)
Record call := Call {
  before : world;
  src : string;
  dest : string
}.

Record state := State {
  fs : world;
  messages : list ConfigFiles.message;
  calls : list call
}.

(** The loop over [paths] with its [else]. *)
Fixpoint copy_from (st : state) (dest : string) (paths : list string)
  : state * option Exc.t :=
  match paths with
  | [] => (st, Some Exc.ValueError)
  | path :: paths' =>
      let src := join path dest in
      if exists_ (fs st) src then
        let done_ := calls st ++ [Call (fs st) src dest] in
        match copyfile (fs st) src dest with
        | (fs', None) =>
            (State fs' (messages st ++ [ConfigFiles.Created dest]) done_, None)
        | (fs', Some e) => (State fs' (messages st) done_, Some e)
        end
      else copy_from st dest paths'
  end.

(** The loop over [config_files]. *)
Fixpoint write_each (st : state) (paths dests : list string)
  : state * option Exc.t :=
  match dests with
  | [] => (st, None)
  | dest :: dests' =>
      if exists_ (fs st) dest then
        write_each
          (State (fs st) (messages st ++ [ConfigFiles.Skipped dest]) (calls st))
          paths dests'
      else
        match copy_from st dest paths with
        | (st', None) => write_each st' paths dests'
        | (st', Some e) => (st', Some e)
        end
  end.

(** The state after the call, and the exception if the call raises. *)
Definition write_config_files (st : state) (pipeline_path general_path : string)
  : state * option Exc.t :=
  write_each st [pipeline_path; general_path] ConfigFiles.config_files.

(** The files after a list of calls, one after the other. *)
Definition replay (w : world) (l : list call) : world :=
  foldl (fun w c => fst (copyfile w (src c) (dest c))) w l.

(** What is to hold of the call at place [i] of the calls [l] made from
    the files [w0] on: it was made on the files that the calls before it
    left, on a destination that did not exist then and from a source
    that did, for one of the two configuration files and from one of
    the two paths. *)
Definition guarded (w0 : world) (pipeline_path general_path : string)
    (l : list call) (i : nat) (c : call) : Prop :=
  before c = replay w0 (take i l)
  /\ exists_ (before c) (dest c) = false
  /\ exists_ (before c) (src c) = true
  /\ dest c ∈ ConfigFiles.config_files
  /\ (src c = join pipeline_path (dest c)
      \/ src c = join general_path (dest c)).

(** The invariant of both loops. *)
Definition calls_ok (w0 : world) (pipeline_path general_path : string)
    (st : state) : Prop :=
  fs st = replay w0 (calls st)
  /\ forall i c, calls st !! i = Some c ->
                 guarded w0 pipeline_path general_path (calls st) i c.
End Calls.

(** [shutil.copyfile] on files that are a map from paths, as in
    [ConfigFiles]. *)
Definition link_free_copyfile (fs : gmap string ConfigFiles.node)
    (src dest : string) : gmap string ConfigFiles.node * option Exc.t :=
  match ConfigFiles.copyfile fs src dest with
  | Exc.Val fs' => (fs', None)
  | Exc.Err e => (fs, Some e)
  end.

End WriteConfig.

(** ** clean *)

Module Clean.

(** [E.Counter], which is not among the sources: every count starts
    at 0. *)
Record counter := Counter {
  c_files : Z;
  c_zapped : Z;
  c_links : Z
}.

Section Clean.
(** The files on disk, and what [os.stat] tells of a file. *)
Context {world stat : Type}.

(** [IOTools.zap_file], which is not among the sources: the status of
    the file before and the target when it was a link, or [None] twice,
    or the exception that it raises, as on a file that is missing; and
    the files afterwards. *)
Variable zap_file :
  world -> string -> Exc.res (option stat * option string) * world.

(** [IOTools.open_file(logfile, mode)]: the exception, if it raises. *)
Variable open_file : world -> option Exc.t.

(** [time.asctime(time.localtime(time.time()))] *)
Variable asctime : world -> string.

(** The thirteen fields of a status, each through [str], joined by
    tabs. *)
Variable show_fields : stat -> string.

Definition TAB : string := String (ascii_of_N 9) "".
Definition NEWLINE : string := String Py.LF "".

(** [str(linkdest)] *)
Definition show_link (linkdest : option string) : string :=
  match linkdest with
  | Some target => target
  | None => "None"
  end.

Definition HEADER : string :=
  "filename" +:+ TAB +:+ "zapped" +:+ TAB +:+ "linkdest" +:+ TAB +:+
  Py.join TAB
    ["st_atime"; "st_blksize"; "st_blocks"; "st_ctime"; "st_dev"; "st_gid";
     "st_ino"; "st_mode"; "st_mtime"; "st_nlink"; "st_rdev"; "st_size";
     "st_uid"] +:+ NEWLINE.

(** The process while the function runs: the files, the count, and what
    has been written to [outfile]. *)
Record state := State {
  disk : world;
  count : counter;
  written : list string
}.

(** The body of the loop over [files]: the state after it, and the
    exception when [IOTools.zap_file] raises, for which the function has
    no handler. *)
Definition clean_one (dry_run : bool) (st : state) (fn : string)
  : state * option Exc.t :=
  let c := count st in
  let c := Counter (c_files c + 1) (c_zapped c) (c_links c) in
  if dry_run then (State (disk st) c (written st), None)
  else
    match zap_file (disk st) fn with
    | (Exc.Err x, disk') => (State disk' c (written st), Some x)
    | (Exc.Val (None, _), disk') => (State disk' c (written st), None)
    | (Exc.Val (Some status, linkdest), disk') =>
        let c := Counter (c_files c) (c_zapped c + 1) (c_links c) in
        let c :=
          match linkdest with
          | Some _ => Counter (c_files c) (c_zapped c) (c_links c + 1)
          | None => c
          end in
        (State disk' c
           (written st ++
            [fn +:+ TAB +:+ asctime disk' +:+ TAB +:+ show_link linkdest
             +:+ TAB +:+ show_fields status +:+ NEWLINE]),
         None)
    end.

(** [for fn in files: ...] *)
Fixpoint clean_loop (dry_run : bool) (st : state) (files : list string)
  : state * option Exc.t :=
  match files with
  | [] => (st, None)
  | fn :: files' =>
      match clean_one dry_run st fn with
      | (st', None) => clean_loop dry_run st' files'
      | (st', Some x) => (st', Some x)
      end
  end.

(** [clean(files, logfile)] with [dry_run] the truth of
    [PARAMS.get("dryrun", False)] and [logfile_exists] that of
    [os.path.exists(logfile)]: the state at the end, and the count
    returned or the exception raised.  In a dry run [outfile] is never
    bound, and closing it raises.  Writing to the log file, once it is
    open, is taken to succeed. *)
Definition clean (dry_run logfile_exists : bool) (w : world)
    (files : list string) : state * Exc.res counter :=
  let start := State w (Counter 0 0 0) in
  match (if dry_run then None else open_file w) with
  | Some x => (start [], Exc.Err x)
  | None =>
      let out :=
        if dry_run then []
        else if logfile_exists then [] else [HEADER] in
      match clean_loop dry_run (start out) files with
      | (st, Some x) => (st, Exc.Err x)
      | (st, None) =>
          if dry_run then (st, Exc.Err Exc.UnboundLocalError)
          else (st, Exc.Val (count st))
      end
  end.
End Clean.

End Clean.

(** ** peek_parameters *)

Module Peek.

(** A value of the dumped configuration: a string, or any other JSON
    value. *)
Inductive jvalue :=
| JStr (s : string)
| JOther (n : nat).

(** What the function reads from the process around it. *)
Record env := Env {
  argv : list string;                          (* sys.argv *)
  pipelinedir : option string;                 (* PARAMS, key pipelinedir *)
  caller_name : option string;                 (* caller_locals, __name__ *)
  caller_file : option string;                 (* caller_locals, __file__ *)
  is_test : Exc.res bool;                      (* isTest() *)
  exists_ : string -> bool;                    (* os.path.exists *)
  abspath_dot : string;                        (* os.path.abspath(".") *)
  dirname : string -> string;                  (* os.path.dirname *)
  join : string -> string -> string;           (* os.path.join *)
  snip : string -> string -> Exc.res string;   (* IOTools.snip, which raises
                                                  on a name without the suffix *)
  popen : string -> string -> Z * string;      (* statement, cwd: returncode, stdout *)
  decode : string -> Exc.res string;           (* stdout.decode("utf-8") *)
  json_loads : string -> option (gmap string jvalue)
}.

(** What the call does: the child processes it starts, as statement and
    working directory, and what it returns or raises. *)
Record outcome := Outcome {
  spawned : list (string * string);
  result : Exc.res (gmap string jvalue)
}.

Definition mem (x : string) (l : list string) : bool := bool_decide (x ∈ l).

(** [not isTest() and "__name__" in caller_locals and
    caller_locals["__name__"] == "__main__"] *)
Definition default_on_error_raise (e : env) : Exc.res bool :=
  perform t <- is_test e in
  Exc.Val
    (negb t &&
     match caller_name e with
     | Some n => String.eqb n "__main__"
     | None => false
     end).

(** The body of the loop that prefixes the values of the interface with
    the working directory. *)
Definition update_one (e : env) (workingdir : string)
    (dump : Exc.res (gmap string jvalue)) (kv : string * jvalue)
  : Exc.res (gmap string jvalue) :=
  perform d <- dump in
  if Py.startswith (fst kv) "interface" then
    match snd kv with
    | JStr value => Exc.Val (<[fst kv := JStr (join e workingdir value)]> d)
    | JOther _ => Exc.Err Exc.TypeError
    end
  else Exc.Val d.

(** [for key, value in list(dump.items()): ...] *)
Definition update_interface_loop (e : env) (workingdir : string)
    (dump : gmap string jvalue) : Exc.res (gmap string jvalue) :=
  foldl (update_one e workingdir) (Exc.Val dump) (map_to_list dump).

(** [dict([(k, v) for k, v in dump.items() if k.startswith("interface")])] *)
Definition only_interface (dump : gmap string jvalue) : gmap string jvalue :=
  list_to_map
    (List.filter (fun kv => Py.startswith (fst kv) "interface")
       (map_to_list dump)).

(** [dict([(prefix + x, y) for x, y in list(dump.items())])] *)
Definition add_prefix (prefix : string) (dump : gmap string jvalue)
  : gmap string jvalue :=
  list_to_map ((fun kv => (prefix +:+ fst kv, snd kv)) <$> map_to_list dump).

(** The end of the function, from the dump that the child printed. *)
Definition finish (e : env) (workingdir : string)
    (update_interface restrict_interface : bool) (prefix : option string)
    (dump : gmap string jvalue) : Exc.res (gmap string jvalue) :=
  perform dump <-
    (if update_interface then update_interface_loop e workingdir dump
     else Exc.Val dump) in
  let dump := if restrict_interface then only_interface dump else dump in
  Exc.Val (match prefix with
           | Some p => add_prefix p dump
           | None => dump
           end).

(** The function from the start of the child process on. *)
Definition from_child (e : env) (workingdir pipeline : string)
    (update_interface restrict_interface : bool) (prefix : option string)
  : outcome :=
  let statement := "python " +:+ pipeline +:+ " -f -v 0 dump" in
  let '(returncode, stdout) := popen e statement workingdir in
  Outcome [(statement, workingdir)]
    (if negb (returncode =? 0)%Z then Exc.Err Exc.OSError
     else
       perform text <- decode e stdout in
       let lines :=
         List.filter (fun x => Py.startswith x "{") (Py.splitlines text) in
       if (1 <? length lines) then Exc.Err Exc.ValueError
       else
         match lines with
         | [] => Exc.Err Exc.IndexError
         | line :: _ =>
             match json_loads e line with
             | None => Exc.Err Exc.JSONDecodeError
             | Some dump =>
                 finish e workingdir update_interface restrict_interface
                   prefix dump
             end
         end).

(** Not found: raise, or return the empty dictionary. *)
Definition not_found (on_error_raise : bool) : outcome :=
  Outcome [] (if on_error_raise then Exc.Err Exc.ValueError else Exc.Val ∅).

Definition peek_parameters (e : env) (workingdir pipeline : string)
    (on_error_raise : option bool) (prefix : option string)
    (update_interface restrict_interface : bool) : outcome :=
  match
    (match on_error_raise with
     | Some b => Exc.Val b
     | None => default_on_error_raise e
     end)
  with
  | Exc.Err x => Outcome [] (Exc.Err x)
  | Exc.Val on_error_raise =>
      if mem "--help" (argv e) || mem "-h" (argv e) then Outcome [] (Exc.Val ∅)
      else
        match pipelinedir e with
        | None => Outcome [] (Exc.Err Exc.KeyError)
        | Some dir =>
            match
              (if String.eqb dir "" then Exc.Val (abspath_dot e)
               else if exists_ e dir then Exc.Val dir
                    else match caller_file e with
                         | Some f => Exc.Val (dirname e f)
                         | None => Exc.Err Exc.KeyError
                         end)
            with
            | Exc.Err x => Outcome [] (Exc.Err x)
            | Exc.Val dirname_ =>
                let pipeline := join e dirname_ pipeline in
                if negb (exists_ e pipeline) then not_found on_error_raise
                else
                  let workingdir :=
                    if String.eqb workingdir "" then abspath_dot e
                    else workingdir in
                  match
                    (if mem "config" (argv e) || mem "check" (argv e)
                        || (mem "clone" (argv e)
                            && String.eqb workingdir "?!")
                     then
                       perform root <- snip e pipeline ".py" in
                       Exc.Val (join e dir root)
                     else Exc.Val workingdir)
                  with
                  | Exc.Err x => Outcome [] (Exc.Err x)
                  | Exc.Val workingdir =>
                      if negb (exists_ e workingdir)
                      then not_found on_error_raise
                      else
                        from_child e workingdir pipeline update_interface
                          restrict_interface prefix
                  end
            end
        end
  end.

End Peek.

(** ** The source of a configuration file *)

(** What the first of the paths that has the file holds under its
    name. *)
Fixpoint first_source (join : string -> string -> string)
    (fs : gmap string ConfigFiles.node) (dest : string) (paths : list string)
  : option ConfigFiles.node :=
  match paths with
  | [] => None
  | path :: paths' =>
      match fs !! join path dest with
      | Some n => Some n
      | None => first_source join fs dest paths'
      end
  end.

(** ** Helpers for stating the further properties *)


(** The options with another list of variables to set. *)
Definition with_variables (o : Params.options) (items : list string)
  : Params.options :=
  Params.Options (Params.dry_run o) (Params.cluster_queue o)
    (Params.cluster_priority o) (Params.cluster_num_jobs o)
    (Params.cluster_options o) (Params.cluster_parallel_environment o)
    (Params.without_cluster o) (Params.shell_logfile o)
    (Params.ruffus_checksums_level o) items.

(** What the new style entries of one value [v] leave of a dictionary:
    the same keys, the same values, and in the sections the same keys
    and every entry that holds [v]. *)
Definition kept (v : Params.value) (params params' : gmap string Params.entry)
  : Prop :=
  forall k,
    match params !! k with
    | None => params' !! k = None
    | Some (Params.Scalar a) => params' !! k = Some (Params.Scalar a)
    | Some (Params.Section_ d) =>
        exists d',
          params' !! k = Some (Params.Section_ d')
          /\ (forall s, is_Some (d !! s) -> is_Some (d' !! s))
          /\ (forall s, d !! s = Some v -> d' !! s = Some v)
    end.

(** What [Peek.peek_parameters] returns for a key of the dump that holds
    [v], under the key with the prefix: an entry of the interface with
    the working directory joined to it when asked for, another entry
    unless only the interface is asked for. *)
Definition peeked (join_workingdir : string -> string)
    (update_interface restrict_interface : bool) (k : string)
    (v : Peek.jvalue) : option Peek.jvalue :=
  if Py.startswith k "interface" then
    Some (if update_interface then
            match v with
            | Peek.JStr s => Peek.JStr (join_workingdir s)
            | Peek.JOther _ => v
            end
          else v)
  else if restrict_interface then None else Some v.

(** Example inputs for the further properties. *)
Module MoreExamples.

Definition str2val (s : string) : Params.value := Params.VStr s.

Definition no_options : Params.options :=
  Params.Options (Params.VBool false) Params.VNone Params.VNone Params.VNone
    Params.VNone Params.VNone Params.VNone Params.VNone (Params.VInt 0) [].

(** A dictionary with the section of the cluster and one of its
    parameters in the old style. *)
Definition params0 : gmap string Params.entry :=
  <["cluster" := Params.Section_ {["queue" := Params.VStr "all.q"]}]>
    (<["cluster_queue" := Params.Scalar (Params.VStr "all.q")]> ∅).

(** Paths joined with a slash. *)
Definition join (a b : string) : string := a +:+ "/" +:+ b.



(** A process that runs pipeline_a.py from a source directory src in
    which pipeline_b.py lives too, beside a directory run_b in which
    pipeline_b was run; the child ends with [returncode] and prints
    [stdout]. *)
Definition quoted (s : string) : string :=
  String Py.DQUOTE (s +:+ String Py.DQUOTE "").

Definition config_line : string :=
  "{" +:+ quoted "interface_out" +:+ ": " +:+ quoted "out.tsv" +:+ ", "
  +:+ quoted "threads" +:+ ": 4}".

Definition config : gmap string Peek.jvalue :=
  <["interface_out" := Peek.JStr "out.tsv"]>
    (<["threads" := Peek.JOther 4]> ∅).

(** A configuration in which an entry of the interface is a number. *)
Definition bad_line : string := "{" +:+ quoted "interface_n" +:+ ": 4}".

Definition bad_config : gmap string Peek.jvalue :=
  <["interface_n" := Peek.JOther 4]> ∅.

Definition snip (s suffix : string) : Exc.res string :=
  if Py.endswith s suffix
  then Exc.Val (String.substring 0 (String.length s - String.length suffix) s)
  else Exc.Err Exc.ValueError.

Definition process (args : list string) (returncode : Z) (stdout : string)
  : Peek.env :=
  Peek.Env args (Some "src") (Some "__main__") (Some "src/pipeline_a.py")
    (Exc.Val false)
    (fun path => bool_decide (path ∈ ["src"; "src/pipeline_b.py"; "run_b"]))
    "cwd" (fun _ => "src") join snip
    (fun _ _ => (returncode, stdout))
    Exc.Val
    (fun line =>
       if String.eqb line config_line then Some config
       else if String.eqb line bad_line then Some bad_config else None).

Definition args : list string := ["pipeline_a.py"; "make"; "full"].

(** What the child prints: a line of the log, then the configuration. *)
Definition printed : string :=
  "# job started" +:+ String Py.LF (config_line +:+ String Py.LF "").

Definition printed_bad : string := bad_line +:+ String Py.LF "".

(** The statement that runs pipeline_b, and what is read from it with
    the prefix b_ and the interface updated. *)
Definition dump_statement : string := "python src/pipeline_b.py -f -v 0 dump".

Definition peeked_config : gmap string Peek.jvalue :=
  <["b_interface_out" := Peek.JStr "run_b/out.tsv"]>
    (<["b_threads" := Peek.JOther 4]> ∅).

End MoreExamples.

(** * Theorems *)

Import LoggingFilterProgress.

(** ** The primitives on sample strings

    Each value below is the one that Python gives for the same call. *)

Example splitlines_sample :
  Py.splitlines ("a" +:+ String Py.CR (String Py.LF "") +:+ String Py.LF "b"
                 +:+ String Py.LF "")
  = ["a"; ""; "b"]
  /\ Py.splitlines "" = []
  /\ Py.splitlines (String Py.LF "") = [""].
Proof. repeat split; reflexivity. Qed.

Example split_sample :
  Py.split " = " "Task enters queue = align" = ["Task enters queue"; "align"]
  /\ Py.split " = " "abc = " = ["abc"; ""]
  /\ Py.split " = " " =  = " = [""; ""; ""]
  /\ Py.split " = " "a = = b" = ["a"; "= b"].
Proof. repeat split; reflexivity. Qed.

Example strip_sample :
  Py.strip "  a b  " = "a b" /\ Py.strip "   " = "".
Proof. split; reflexivity. Qed.

Example endswith_sample :
  Py.endswith "ruffus/task.py" "task.py" = true
  /\ Py.endswith "py" "task.py" = false.
Proof. split; reflexivity. Qed.

Example search_bracket_sample :
  Re.search RE_BRACKET "Job  = [x -> out1.bam] completed"
  = Some ("out1.bam", " completed")
  /\ Re.search RE_BRACKET "[a -> b] [c -> d e]" = Some ("d e", "")
  /\ Re.search RE_BRACKET "[a -> b" = None
  /\ Re.search RE_BRACKET "[a -> ]" = None
  /\ Re.search RE_BRACKET "[a -> b -> ]c]" = Some ("b -> ", "c]")
  /\ Re.search RE_BRACKET ("[a" +:+ String Py.LF " -> b]") = None
  /\ Re.search RE_BRACKET ("[[a -> b" +:+ String Py.LF "c]")
     = Some ("b" +:+ String Py.LF "c", "").
Proof. repeat split; reflexivity. Qed.

Example sub_sample :
  Re.sub RE_SPACE " a b  c " = "abc"
  /\ Re.sub RE_PREFIX "pipeline::task::x" = "task::x"
  /\ Re.sub RE_PREFIX "::x" = "::x"
  /\ Re.sub RE_PREFIX "a:b::x" = "a:b::x"
  /\ Re.sub RE_PREFIX "a::b::c::" = "b::c::"
  /\ Re.sub RE_DOCSTRING
       (String Py.DQUOTE "doc" +:+ String Py.DQUOTE " x")
     = " x"
  /\ Re.sub RE_DOCSTRING
       (" " +:+ String Py.DQUOTE "doc" +:+ String Py.DQUOTE "")
     = " " +:+ String Py.DQUOTE "doc" +:+ String Py.DQUOTE "".
Proof. repeat split; reflexivity. Qed.

Example split_job_sample :
  Re.split RE_JOB "pre Job = a Job   = b Job=c" = ["pre "; " a "; " b Job=c"]
  /\ Re.split RE_JOB "" = [""]
  /\ Re.split RE_JOB "Job =" = [""; ""].
Proof. repeat split; reflexivity. Qed.

Example task_name_sample :
  Re.match_ RE_TASK_NAME "Task = align reads" = Some ("align reads", "").
Proof. reflexivity. Qed.

(** The example of the specification: the plan parses to one task with
    two jobs, one done; the completion record of the other job brings
    the task to 2 of 2 and to 100 percent. *)
Example specification_example :
  tasks Examples.tracker0 !! "align" = Some (TaskState (Some update) 2 1)
  /\ exists o,
      filter Examples.tracker0
        (Examples.record "Job  = [x -> out1.bam] completed") = Ok o
      /\ returned o = RTrue
      /\ tasks (self_after o) !! "align" = Some (TaskState (Some update) 2 2)
      /\ exists ev,
          logged o = [ev]
          /\ ev_task ev = "align"
          /\ ev_task_total ev = 2%Z
          /\ ev_task_completed ev = 2%Z
          /\ (ev_task_completed_percent ev == 100)%Q.
Proof.
  split; [vm_compute; reflexivity|].
  eexists. split; [vm_compute; reflexivity|].
  repeat split. eexists. repeat split.
Qed.

(** ** EventPool *)

(** C6: the reported length of the pool is the number of outstanding
    greenlets when there is at least one, and 1 when there is none; with
    no greenlet it is 1 and with three it is 3. *)
Theorem C6_len_is_count_or_one :
  (forall (G : Type) (self : @EventPool.pool G),
      (length (EventPool.greenlets self) = 0
       /\ EventPool.__len__ self = 1%Z)
      \/ (0 < length (EventPool.greenlets self)
          /\ EventPool.__len__ self
             = Z.of_nat (length (EventPool.greenlets self))))
  /\ EventPool.__len__ (EventPool.Pool (@nil nat)) = 1%Z
  /\ EventPool.__len__ (EventPool.Pool [7; 8; 9]) = 3%Z.
Proof.
  split; [|split; reflexivity].
  intros G [gs]; unfold EventPool.__len__, EventPool.Pool__len__; simpl.
  destruct gs as [|g gs]; [left | right]; simpl; split; try lia; reflexivity.
Qed.

(** C9: whatever the timeout, [next_with_timeout] returns what the
    original [next] of the iterator returns. *)
Theorem C9_timeout_ignored :
  forall (I V : Type) (OLD_NEXT : I -> V * I) (instance : I)
         (timeout : option Q),
    EventPool.next_with_timeout OLD_NEXT instance timeout = OLD_NEXT instance.
Proof. intros; reflexivity. Qed.

(** ** cache_os_functions *)

Lemma resume_cache_os_functions (m : OsCache.os_module) :
  OsCache.resume OsCache.cache_os_functions m
  = (OsCache.cached_os,
     [ OsCache.Assign OsCache.stat (OsCache.SAVED OsCache.stat);
       OsCache.Assign OsCache.abspath (OsCache.SAVED OsCache.abspath);
       OsCache.Assign OsCache.realpath (OsCache.SAVED OsCache.realpath);
       OsCache.Assign OsCache.relpath (OsCache.SAVED OsCache.relpath);
       OsCache.Assign OsCache.islink (OsCache.SAVED OsCache.islink) ]).
Proof. reflexivity. Qed.

(** C1, as stated, fails.  When the region raises after one query, the
    five names stay bound to the memoizing wrappers and a later query
    answers from the table although the file has changed; and when the
    region completes, the table keeps its entry. *)
Lemma C1_counterexample :
  let w1 := snd (OsCache.with_ OsCache.cache_os_functions Examples.body_fail
                   Examples.world0) in
  let w2 := snd (OsCache.with_ OsCache.cache_os_functions Examples.body_ok
                   Examples.world0) in
  OsCache.os w1 = OsCache.cached_os
  /\ OsCache.os w1 <> OsCache.original_os
  /\ fst (OsCache.call OsCache.stat "a" (Examples.touch w1)) = 1%Z
  /\ OsCache.filesystem (Examples.touch w1) OsCache.stat "a" = 2%Z
  /\ OsCache.table w2 !! (OsCache.query_id OsCache.stat, "a") = Some 1%Z
  /\ OsCache.table w2 <> ∅.
Proof.
  cbv zeta. repeat split; vm_compute; congruence.
Qed.

(** C1, amended: when the region completes or returns, the five names
    are bound to the saved originals again, whatever the region did to
    them, and the table of the wrappers is the one the region left. *)
Theorem C1_restored_on_normal_exit :
  forall (body : OsCache.world -> OsCache.exit * OsCache.world)
         (w : OsCache.world),
    fst (body (OsCache.set_os w OsCache.cached_os)) <> OsCache.Raised ->
    let inside := body (OsCache.set_os w OsCache.cached_os) in
    let after := OsCache.with_ OsCache.cache_os_functions body w in
    fst after = fst inside
    /\ OsCache.os (snd after) = OsCache.original_os
    /\ OsCache.table (snd after) = OsCache.table (snd inside)
    /\ OsCache.filesystem (snd after) = OsCache.filesystem (snd inside).
Proof.
  intros body w Hne. cbv zeta.
  unfold OsCache.with_. rewrite resume_cache_os_functions.
  destruct (body (OsCache.set_os w OsCache.cached_os)) as [e w2] eqn:Eb.
  simpl in Hne |- *.
  destruct e; [| |congruence]; simpl; auto.
Qed.

Lemma C1_restored_on_normal_exit_witness :
  let inside := Examples.body_ok
                  (OsCache.set_os Examples.world0 OsCache.cached_os) in
  let after := OsCache.with_ OsCache.cache_os_functions Examples.body_ok
                 Examples.world0 in
  fst after = fst inside
  /\ OsCache.os (snd after) = OsCache.original_os
  /\ OsCache.table (snd after) = OsCache.table (snd inside)
  /\ OsCache.filesystem (snd after) = OsCache.filesystem (snd inside).
Proof.
  apply (C1_restored_on_normal_exit Examples.body_ok Examples.world0).
  simpl. discriminate.
Defined.

(** ** LoggingFilterProgress: the filter *)

Section FilterFacts.
Implicit Types (self : tracker) (record : log_record).

Lemma tracker_step_refl self : tracker_step self self.
Proof.
  split; [reflexivity|]. intros n.
  destruct (tasks self !! n); [split; [reflexivity | lia] | exact I].
Qed.

Lemma tracker_step_trans self1 self2 self3 :
  tracker_step self1 self2 -> tracker_step self2 self3 ->
  tracker_step self1 self3.
Proof.
  intros [Hm1 H1] [Hm2 H2]. split; [congruence|]. intros n.
  specialize (H1 n). specialize (H2 n).
  destruct (tasks self1 !! n), (tasks self2 !! n), (tasks self3 !! n);
    try done.
  destruct H1, H2. split; [congruence | lia].
Qed.

Lemma tracker_step_insert self n t t' :
  tasks self !! n = Some t -> entry_step t t' ->
  tracker_step self (Tracker (jobs self) (<[n := t']> (tasks self))
                       (map_job2task self)).
Proof.
  intros Hn Hs. split; [reflexivity|]. intros k. simpl.
  destruct (decide (n = k)) as [->|Hne].
  - rewrite lookup_insert_eq, Hn. exact Hs.
  - rewrite lookup_insert_ne by done.
    destruct (tasks self !! k); [split; [reflexivity | lia] | exact I].
Qed.

Lemma increment_ok self n t :
  tasks self !! n = Some t ->
  increment self n
  = Ok (Tracker (jobs self)
          (<[n := TaskState (ts_status t) (ts_total t) (ts_completed t + 1)]>
             (tasks self))
          (map_job2task self)).
Proof. intros Hn. unfold increment. rewrite Hn. reflexivity. Qed.

Lemma set_status_ok self n t s :
  tasks self !! n = Some t ->
  set_status self n s
  = Ok (Tracker (jobs self)
          (<[n := TaskState (Some s) (ts_total t) (ts_completed t)]>
             (tasks self))
          (map_job2task self)).
Proof. intros Hn. unfold set_status. rewrite Hn. reflexivity. Qed.

Lemma update_log_record_ok self record n t :
  tasks self !! n = Some t ->
  update_log_record self record (Some n)
  = Ok (Outcome RTrue self
          (LogRecord (filename record) (msg record)
             (Some (ts_status t)) (Some (ts_total t))
             (Some (ts_completed t)) (Some (completed_percent t)))
          [ProgressEvent (Re.sub RE_PREFIX n) (ts_status t) (ts_total t)
             (ts_completed t) (completed_percent t)]).
Proof. intros Hn. unfold update_log_record. rewrite Hn. reflexivity. Qed.

(** The record passes and the tracker stays as it is. *)
Ltac unchanged :=
  eexists; split; [reflexivity | apply tracker_step_refl].

(** One entry is replaced by one that [entry_step] allows. *)
Ltac one_entry Ht :=
  cbn [bind];
  erewrite update_log_record_ok by (simpl; apply lookup_insert_eq);
  eexists; split; [reflexivity|]; simpl;
  eapply tracker_step_insert; [exact Ht|]; split; simpl; [done | lia].

(** The filter raises nothing on a tracker whose index names known
    tasks, and changes the tracker by a [tracker_step]. *)
Lemma filter_total self record :
  owners_known self ->
  exists o, filter self record = Ok o /\ tracker_step self (self_after o).
Proof.
  intros Hk. unfold filter.
  destruct (negb _); [unchanged|].
  destruct (is_Some_b (Re.search RE_JOB _)).
  { destruct (Re.search RE_BRACKET _) as [[j rest]|]; [|unchanged].
    destruct (map_job2task self !! _) as [n|] eqn:Hj; [|unchanged].
    destruct (Hk _ _ Hj) as [t Ht].
    destruct (Py.contains _ _).
    - rewrite (increment_ok _ _ _ Ht). one_entry Ht.
    - cbn [bind]. rewrite (update_log_record_ok _ _ _ _ Ht). unchanged. }
  destruct (is_Some_b (Re.search RE_TASK _)); [|unchanged].
  destruct (Py.split _ _) as [|before [|n [|? ?]]]; try unchanged.
  destruct (tasks self !! n) as [t|] eqn:Ht; [|unchanged].
  repeat (destruct (String.eqb before _);
          [rewrite (set_status_ok _ _ _ _ Ht); one_entry Ht|]).
  unchanged.
Qed.

Lemma tracker_step_owners self self' :
  tracker_step self self' -> owners_known self -> owners_known self'.
Proof.
  intros [Hm Ht] Hk j n Hj. rewrite Hm in Hj.
  destruct (Hk _ _ Hj) as [t Hn]. specialize (Ht n). rewrite Hn in Ht.
  destruct (tasks self' !! n); [eauto | done].
Qed.

Lemma tracker_step_counts self self' :
  tracker_step self self' -> counts_ok self -> counts_ok self'.
Proof.
  intros [Hm Ht] Hc n t' Hn. specialize (Ht n). rewrite Hn in Ht.
  destruct (tasks self !! n) as [t|] eqn:Hn0; [|done].
  destruct (Hc _ _ Hn0), Ht as [Htot Hle]. rewrite Htot. lia.
Qed.

Lemma feed_total self records :
  owners_known self ->
  exists self', feed self records = Ok self' /\ tracker_step self self'.
Proof.
  revert self. induction records as [|r rs IH]; intros self Hk; simpl.
  - eexists; split; [reflexivity | apply tracker_step_refl].
  - destruct (filter_total self r Hk) as (o & -> & Hs). simpl.
    destruct (IH (self_after o)) as (self' & Hf & Hs').
    { eapply tracker_step_owners; eauto. }
    exists self'. split; [done|]. eapply tracker_step_trans; eauto.
Qed.
End FilterFacts.

(** ** LoggingFilterProgress: the plan parser *)

Section ParserFacts.
Implicit Types (self : tracker) (js : list (string * status)).

(** The two maps that the loop over the jobs of one task builds. *)
Lemma foldl_add_job name js self k :
  foldl (add_job name) (self, k) js
  = (Tracker
       (foldl (fun m j => <[fst j := (name, fst j)]> m) (jobs self) js)
       (tasks self)
       (foldl (fun m j => <[normalize (fst j) := name]> m)
          (map_job2task self) js),
     (k + Z.of_nat (needing_update js))%Z).
Proof.
  revert self k. induction js as [|[j st] js IH]; intros self k.
  - simpl. destruct self. f_equal. unfold needing_update. simpl. lia.
  - cbn [foldl]. unfold add_job at 2. rewrite IH. cbn [jobs tasks map_job2task fst].
    f_equal. unfold needing_update. destruct st; simpl; lia.
Qed.

Lemma add_task_eq self name st js :
  Py.startswith name "(mkdir" = false ->
  add_task self (name, st, js)
  = Tracker
      (foldl (fun m j => <[fst j := (name, fst j)]> m) (jobs self) js)
      (<[name := TaskState st (Z.of_nat (length js))
                   (Z.of_nat (length js) - Z.of_nat (needing_update js))]>
         (tasks self))
      (foldl (fun m j => <[normalize (fst j) := name]> m)
         (map_job2task self) js).
Proof.
  intros Hm. unfold add_task. rewrite Hm, foldl_add_job. reflexivity.
Qed.

Lemma add_task_mkdir self name st js :
  Py.startswith name "(mkdir" = true -> add_task self (name, st, js) = self.
Proof. intros Hm. unfold add_task. rewrite Hm. reflexivity. Qed.

(** The index after the jobs of one task. *)
Lemma lookup_index_jobs name js (m : gmap string string) k :
  foldl (fun m j => <[normalize (fst j) := name]> m) m js !! k
  = if decide (k ∈ (fun j => normalize (fst j)) <$> js)
    then Some name else m !! k.
Proof.
  revert m. induction js as [|j js IH]; intros m.
  - case_decide as Hin; [by apply elem_of_nil in Hin | done].
  - cbn [foldl]. rewrite IH, fmap_cons.
    destruct (decide (k ∈ _ <$> js)) as [Hin|Hout].
    + rewrite decide_True; [done | by right].
    + destruct (decide (k = normalize (fst j))) as [->|Hne].
      * rewrite lookup_insert_eq, decide_True; [done | by left].
      * rewrite lookup_insert_ne by done.
        rewrite decide_False; [done|].
        intros [?|?]%elem_of_cons; done.
Qed.

Lemma needing_update_le js : needing_update js <= length js.
Proof. unfold needing_update. apply List.filter_length_le. Qed.

Lemma add_task_owners self c :
  owners_known self -> owners_known (add_task self c).
Proof.
  intros Hk. destruct c as [[name st] js].
  destruct (Py.startswith name "(mkdir") eqn:Hm.
  - by rewrite add_task_mkdir.
  - rewrite add_task_eq by done. intros j n. simpl.
    rewrite lookup_index_jobs. case_decide.
    + intros [= <-]. rewrite lookup_insert_eq. eauto.
    + intros Hj. destruct (Hk _ _ Hj) as [t Ht].
      destruct (decide (name = n)) as [->|Hne].
      * rewrite lookup_insert_eq. eauto.
      * rewrite lookup_insert_ne by done. eauto.
Qed.

Lemma add_task_counts self c :
  counts_ok self -> counts_ok (add_task self c).
Proof.
  intros Hc. destruct c as [[name st] js].
  destruct (Py.startswith name "(mkdir") eqn:Hm.
  - by rewrite add_task_mkdir.
  - rewrite add_task_eq by done. intros n t. simpl.
    destruct (decide (name = n)) as [->|Hne].
    + rewrite lookup_insert_eq. intros [= <-]. simpl.
      pose proof (needing_update_le js). lia.
    + rewrite lookup_insert_ne by done. apply Hc.
Qed.

Lemma foldl_add_task_inv self cs :
  owners_known self -> counts_ok self ->
  owners_known (foldl add_task self cs) /\ counts_ok (foldl add_task self cs).
Proof.
  revert self. induction cs as [|c cs IH]; intros self Hk Hc; simpl.
  - done.
  - apply IH; [by apply add_task_owners | by apply add_task_counts].
Qed.

Lemma init_inv text self :
  __init__ text = Ok self -> owners_known self /\ counts_ok self.
Proof.
  unfold __init__. destruct (split_by_task text) as [cs|]; [|done].
  intros [= <-]. apply foldl_add_task_inv.
  - intros j n Hj. simpl in Hj. by rewrite lookup_empty in Hj.
  - intros n t Hn. simpl in Hn. by rewrite lookup_empty in Hn.
Qed.

Lemma reachable_inv self : reachable self -> owners_known self /\ counts_ok self.
Proof.
  induction 1 as [text self Hi | self record o Hr [Hk Hc] Hf].
  - by eapply init_inv.
  - destruct (filter_total self record Hk) as (o' & Ho & Hs).
    rewrite Hf in Ho. injection Ho as <-.
    split; [by eapply tracker_step_owners | by eapply tracker_step_counts].
Qed.
End ParserFacts.

(** ** The parser raises nothing *)

Section ParserTotal.

Lemma star_close_total p s bos gs grp :
  is_Some (Re.match_here [Re.Star p; Re.GClose] bos s gs grp).
Proof.
  revert bos. induction s as [|c s IH]; intros bos; simpl; [eauto|].
  destruct (p c); [|eauto].
  destruct (IH false) as [x Hx]. simpl in Hx. rewrite Hx. eauto.
Qed.

Lemma prefix_cons_inv a p s :
  String.prefix (String a p) s = true ->
  exists s', s = String a s' /\ String.prefix p s' = true.
Proof.
  destruct s as [|b s]; [discriminate|]. cbn [String.prefix].
  destruct (ascii_dec a b) as [<-|]; [eauto | discriminate].
Qed.

(** A line that starts with the task header matches the pattern that
    extracts the task name. *)
Lemma task_header_match line :
  Py.startswith line "Task = " = true ->
  is_Some (Re.match_ RE_TASK_NAME line).
Proof.
  unfold Py.startswith, Re.match_. intros Hp.
  do 7 (apply prefix_cons_inv in Hp as (? & -> & Hp)).
  apply (star_close_total Re.dot _ false _ "").
Qed.

Lemma task_step_total st line : exists r, task_step st line = Ok r.
Proof.
  unfold task_step.
  destruct (Py.startswith _ "Tasks which will be run"); [eauto|].
  destruct (Py.startswith _ "Tasks which are up-to-date"); [eauto|].
  destruct (Py.startswith _ "Task = ") eqn:Hh.
  - destruct (task_header_match _ Hh) as [[name rest] ->]. eauto.
  - destruct (negb _); eauto.
Qed.

Lemma split_by_task_loop_total st lines :
  exists cs, split_by_task_loop st lines = Ok cs.
Proof.
  revert st. induction lines as [|l ls IH]; intros st; simpl; [eauto|].
  destruct (task_step_total st l) as [r ->]. cbn [bind].
  destruct (IH (snd r)) as [cs ->]. cbn [bind]. eauto.
Qed.

Lemma init_total text : exists self, __init__ text = Ok self.
Proof.
  unfold __init__, split_by_task.
  destruct (split_by_task_loop_total (Locals [] None None)
              (Py.splitlines text)) as [cs ->].
  cbn [bind]. eauto.
Qed.

End ParserTotal.

(** ** Claims about the filter *)

(** C2, as stated, fails: a job record without a bracketed output is
    kept, not dropped. *)
Lemma C2_counterexample :
  let r := Examples.record "Job = unparsable" in
  Py.endswith (filename r) "task.py" = true
  /\ is_Some_b (Re.search RE_JOB (msg r)) = true
  /\ Re.search RE_BRACKET (msg r) = None
  /\ exists o, filter Examples.tracker0 r = Ok o /\ keeps (returned o) = true.
Proof.
  cbv zeta. repeat split; try reflexivity.
  eexists. split; [vm_compute; reflexivity | reflexivity].
Qed.

(** C2, amended: a job record from which no bracketed output can be
    extracted is kept: the filter returns [True], changes neither the
    tracker nor the record and logs nothing. *)
Theorem C2_unparsable_job_record_kept :
  forall (self : tracker) (record : log_record),
    is_Some_b (Re.search RE_JOB (msg record)) = true ->
    Re.search RE_BRACKET (msg record) = None ->
    filter self record = Ok (Outcome RTrue self record [])
    /\ keeps RTrue = true.
Proof.
  intros self record Hj Hb. split; [|reflexivity].
  unfold filter. rewrite Hj, Hb. destruct (negb _); reflexivity.
Qed.

Lemma C2_unparsable_job_record_kept_witness :
  filter Examples.tracker0 (Examples.record "Job = unparsable")
  = Ok (Outcome RTrue Examples.tracker0
          (Examples.record "Job = unparsable") [])
  /\ keeps RTrue = true.
Proof.
  apply (C2_unparsable_job_record_kept Examples.tracker0
           (Examples.record "Job = unparsable")); reflexivity.
Defined.

(** C5: a job record of the scheduler whose normalized output is not in
    the job index is dropped: the filter returns [None], changes neither
    the tracker nor the record and logs nothing. *)
Theorem C5_unknown_job_dropped :
  forall (self : tracker) (record : log_record) (job_name rest : string),
    Py.endswith (filename record) "task.py" = true ->
    is_Some_b (Re.search RE_JOB (msg record)) = true ->
    Re.search RE_BRACKET (msg record) = Some (job_name, rest) ->
    map_job2task self !! normalize job_name = None ->
    filter self record = Ok (Outcome RNone self record [])
    /\ keeps RNone = false.
Proof.
  intros self record job_name rest Hf Hj Hb Hm. split; [|reflexivity].
  unfold filter. rewrite Hf, Hj, Hb. cbn [negb].
  unfold normalize in Hm. rewrite Hm. reflexivity.
Qed.

Lemma C5_unknown_job_dropped_witness :
  filter Examples.tracker0
    (Examples.record "Job  = [x -> other.bam] completed")
  = Ok (Outcome RNone Examples.tracker0
          (Examples.record "Job  = [x -> other.bam] completed") [])
  /\ keeps RNone = false.
Proof.
  apply (C5_unknown_job_dropped Examples.tracker0
           (Examples.record "Job  = [x -> other.bam] completed")
           "other.bam" " completed"); vm_compute; reflexivity.
Defined.

(** C4: a job record of the scheduler whose normalized output the index
    maps to a task and whose message contains the completion word adds
    exactly 1 to the completed count of that task, leaves every other
    entry and the index as they were, is kept, and reports the percentage
    100 * completed / total (0 for a total of 0) of the new count. *)
Theorem C4_completion_increments_owner :
  forall (self : tracker) (record : log_record)
         (job_name rest name : string),
    reachable self ->
    Py.endswith (filename record) "task.py" = true ->
    is_Some_b (Re.search RE_JOB (msg record)) = true ->
    Re.search RE_BRACKET (msg record) = Some (job_name, rest) ->
    map_job2task self !! normalize job_name = Some name ->
    Py.contains "completed" (msg record) = true ->
    exists (t : task_state) (o : outcome),
      tasks self !! name = Some t
      /\ filter self record = Ok o
      /\ returned o = RTrue
      /\ tasks (self_after o) !! name
         = Some (TaskState (ts_status t) (ts_total t) (ts_completed t + 1))
      /\ (forall n, n <> name ->
             tasks (self_after o) !! n = tasks self !! n)
      /\ map_job2task (self_after o) = map_job2task self
      /\ logged o
         = [ProgressEvent (Re.sub RE_PREFIX name) (ts_status t) (ts_total t)
              (ts_completed t + 1)
              (if (0 <? ts_total t)%Z
               then (100 * inject_Z (ts_completed t + 1)
                     / inject_Z (ts_total t))%Q
               else 0%Q)]
      /\ task_completed_percent_attr (record_after o)
         = Some (if (0 <? ts_total t)%Z
                 then (100 * inject_Z (ts_completed t + 1)
                       / inject_Z (ts_total t))%Q
                 else 0%Q).
Proof.
  intros self record job_name rest name Hr Hf Hj Hb Hm Hc.
  destruct (reachable_inv self Hr) as [Hk _].
  destruct (Hk _ _ Hm) as [t Ht].
  exists t. eexists. split; [exact Ht|].
  unfold filter. rewrite Hf, Hj, Hb. cbn [negb].
  unfold normalize in Hm. rewrite Hm, Hc, (increment_ok _ _ _ Ht). cbn [bind].
  erewrite update_log_record_ok by (simpl; apply lookup_insert_eq).
  split; [reflexivity|]. simpl.
  repeat split; try reflexivity.
  - apply lookup_insert_eq.
  - intros n Hn. by rewrite lookup_insert_ne.
Qed.

Lemma C4_completion_increments_owner_witness :
  exists (t : task_state) (o : outcome),
    tasks Examples.tracker0 !! "align" = Some t
    /\ filter Examples.tracker0
         (Examples.record "Job  = [x -> out1.bam] completed") = Ok o
    /\ returned o = RTrue
    /\ tasks (self_after o) !! "align"
       = Some (TaskState (ts_status t) (ts_total t) (ts_completed t + 1))
    /\ (forall n, n <> "align" ->
           tasks (self_after o) !! n = tasks Examples.tracker0 !! n)
    /\ map_job2task (self_after o) = map_job2task Examples.tracker0
    /\ logged o
       = [ProgressEvent (Re.sub RE_PREFIX "align") (ts_status t) (ts_total t)
            (ts_completed t + 1)
            (if (0 <? ts_total t)%Z
             then (100 * inject_Z (ts_completed t + 1)
                   / inject_Z (ts_total t))%Q
             else 0%Q)]
    /\ task_completed_percent_attr (record_after o)
       = Some (if (0 <? ts_total t)%Z
               then (100 * inject_Z (ts_completed t + 1)
                     / inject_Z (ts_total t))%Q
               else 0%Q).
Proof.
  apply (C4_completion_increments_owner Examples.tracker0
           (Examples.record "Job  = [x -> out1.bam] completed")
           "out1.bam" " completed" "align");
    [ apply (reach_init Examples.plan) | .. ]; vm_compute; reflexivity.
Defined.



(** ** The percentage over a stream of records *)

Section Percent.

Lemma completed_percent_nonneg t :
  (0 <= ts_completed t)%Z -> (0 <= completed_percent t)%Q.
Proof.
  intros Hc. unfold completed_percent.
  destruct (0 <? ts_total t)%Z eqn:Ht; [|apply Qle_refl].
  apply Z.ltb_lt in Ht.
  apply Qle_shift_div_l.
  - change 0%Q with (inject_Z 0). rewrite <- Zlt_Qlt. exact Ht.
  - rewrite Qmult_0_l.
    apply Qmult_le_0_compat; [discriminate|].
    change 0%Q with (inject_Z 0). rewrite <- Zle_Qle. exact Hc.
Qed.

Lemma completed_percent_zero_total t :
  ts_total t = 0%Z -> completed_percent t = 0%Q.
Proof. intros Ht. unfold completed_percent. rewrite Ht. reflexivity. Qed.

Lemma completed_percent_mono t t' :
  entry_step t t' -> (completed_percent t <= completed_percent t')%Q.
Proof.
  intros [Htot Hle]. unfold completed_percent. rewrite Htot.
  destruct (0 <? ts_total t)%Z eqn:Ht; [|apply Qle_refl].
  apply Z.ltb_lt in Ht.
  apply Qmult_le_compat_r.
  - apply Qmult_le_l; [reflexivity|]. rewrite <- Zle_Qle. exact Hle.
  - apply Qinv_le_0_compat.
    change 0%Q with (inject_Z 0). rewrite <- Zle_Qle. lia.
Qed.

End Percent.

(** C8: over every stream of records filtered after the plan was
    parsed, the filter raises nothing and, at every point of the stream
    and for every task, the percentage is 0 when the total is 0, is
    never negative, and is no smaller at any later point. *)
Theorem C8_percent_bounds_and_monotone :
  forall (text : string) (earlier later : list log_record),
  exists self0 self1 self2 : tracker,
    __init__ text = Ok self0
    /\ feed self0 earlier = Ok self1
    /\ feed self1 later = Ok self2
    /\ forall (n : string) (t1 : task_state),
         tasks self1 !! n = Some t1 ->
         (ts_total t1 = 0%Z -> completed_percent t1 = 0%Q)
         /\ (0 <= completed_percent t1)%Q
         /\ exists t2 : task_state,
              tasks self2 !! n = Some t2
              /\ ts_total t2 = ts_total t1
              /\ (completed_percent t1 <= completed_percent t2)%Q.
Proof.
  intros text earlier later.
  destruct (init_total text) as [self0 Hi].
  destruct (init_inv _ _ Hi) as [Hk0 Hc0].
  destruct (feed_total self0 earlier Hk0) as (self1 & Hf1 & Hs1).
  pose proof (tracker_step_owners _ _ Hs1 Hk0) as Hk1.
  pose proof (tracker_step_counts _ _ Hs1 Hc0) as Hc1.
  destruct (feed_total self1 later Hk1) as (self2 & Hf2 & [_ Hs2]).
  exists self0, self1, self2. repeat split; try done.
  - by apply completed_percent_zero_total.
  - apply completed_percent_nonneg. by destruct (Hc1 _ _ H).
  - specialize (Hs2 n). rewrite H in Hs2.
    destruct (tasks self2 !! n) as [t2|]; [|done].
    exists t2. split; [done|]. split; [apply Hs2|].
    by apply completed_percent_mono.
Qed.

(** ** ruffus_return_dag *)

Section DagFacts.
Context `{Countable node}.
Variable inward : node -> list node.

Lemma push_inward_filter (visited : gset node) (stack l : list node) :
  Dag.push_inward visited stack l
  = stack ++ base.filter (fun x => x ∉ visited) l.
Proof.
  revert stack. induction l as [|x l IH]; intros stack; simpl.
  - by rewrite app_nil_r.
  - rewrite filter_cons. destruct (decide (x ∈ visited)).
    + rewrite decide_False by tauto. apply IH.
    + rewrite decide_True by done. rewrite IH, <- app_assoc. done.
Qed.

Lemma walks_pos m t : 1 <= Dag.walks inward m t.
Proof. destruct m; simpl; lia. Qed.

Lemma sum_list_filter_le (f : node -> nat) (P : node -> Prop)
    `{!forall x, Decision (P x)} (l : list node) :
  sum_list_with f (base.filter P l) <= sum_list_with f l.
Proof.
  induction l as [|x l IH]; [done|].
  rewrite filter_cons. destruct (decide (P x)); simpl; lia.
Qed.

Lemma sum_list_with_fmap {B} (g : B -> nat) (h : node -> B) (l : list node) :
  sum_list_with g (h <$> l) = sum_list_with (g ∘ h) l.
Proof. induction l as [|x l IH]; csimpl; [done | by rewrite IH]. Qed.

Lemma sum_list_with_ext (f g : node -> nat) (l : list node) :
  (forall x, f x = g x) -> sum_list_with f l = sum_list_with g l.
Proof. intros E. induction l as [|x l IH]; simpl; [done | by rewrite E, IH]. Qed.

Lemma filter_all_out (P : node -> Prop) `{!forall x, Decision (P x)}
    (l : list node) :
  (forall x, x ∈ l -> ~ P x) -> base.filter P l = [].
Proof.
  intros Hn. induction l as [|x l IH]; [done|].
  rewrite filter_cons, decide_False by (apply Hn; by left).
  apply IH. intros y Hy. apply Hn. by right.
Qed.

(** A duplicate-free list of tasks that is as long as the list of all
    tasks holds every task. *)
Lemma full_path (nodes p : list node) :
  NoDup p -> (forall x, x ∈ p -> x ∈ nodes) ->
  length nodes <= length p -> forall x, x ∈ nodes -> x ∈ p.
Proof.
  intros Hnd Hsub Hlen x Hx.
  assert (p ⊆+ nodes) as Hs by (by apply NoDup_submseteq).
  apply submseteq_length_Permutation in Hs; [|done].
  by rewrite Hs.
Qed.

Lemma short_path (nodes p : list node) :
  NoDup p -> (forall x, x ∈ p -> x ∈ nodes) -> length p <= length nodes.
Proof.
  intros Hnd Hsub. apply submseteq_length. by apply NoDup_submseteq.
Qed.

Variable nodes : list node.
Hypothesis closed : forall t x, t ∈ nodes -> x ∈ inward t -> x ∈ nodes.

(** The loop ends within as many iterations as the weights of the
    entries of the stack add up to. *)
Lemma dump_loop_terminates fuel (es : list (Dag.entry (node := node)))
    (visited : gset node) :
  Forall (Dag.entry_ok nodes visited) es ->
  sum_list_with (Dag.weight inward nodes) es <= fuel ->
  is_Some (Dag.dump_loop inward fuel (fst <$> es) visited).
Proof.
  revert es visited.
  induction fuel as [|fuel IH]; intros [|[t q] es] visited Hok Hsum;
    simpl; eauto.
  { simpl in Hsum. pose proof (walks_pos (length nodes - S (length q)) t).
    unfold Dag.weight in Hsum. simpl in Hsum. lia. }
  apply Forall_cons in Hok as [(Hnd & Hvis & Hin) Hok]. simpl in *.
  set (visited' := {[t]} ∪ visited).
  set (new := base.filter (fun x => x ∉ visited') (inward t)).
  assert (forall x, x ∈ q ++ [t] -> x ∈ visited') as Hvis'.
  { intros x [?|Hx%list_elem_of_singleton]%elem_of_app;
      unfold visited'; set_solver. }
  assert (is_Some (Dag.dump_loop inward fuel
                     (fst <$> es ++ ((fun x => (x, q ++ [t])) <$> new))
                     visited')) as [out Hout].
  { apply IH.
    - apply Forall_app. split.
      + eapply Forall_impl; [exact Hok|].
        intros [t0 q0] (? & Hv0 & ?). repeat split; try done.
        intros x Hx. unfold visited'. specialize (Hv0 x Hx). set_solver.
      + apply Forall_fmap, Forall_forall. intros x Hx.
        apply list_elem_of_filter in Hx as [Hnv Hx].
        repeat split; simpl.
        * rewrite NoDup_app. split; [done|]. split; [|apply NoDup_singleton].
          intros y Hy Hy'%list_elem_of_singleton. subst y.
          apply Hnv, Hvis', Hy.
        * done.
        * intros y [?|Hy%list_elem_of_singleton]%elem_of_app;
            [by apply Hin|]. subst y.
          apply (closed t); [|done]. apply Hin. set_solver.
    - rewrite sum_list_with_app.
      unfold Dag.weight in Hsum at 1. simpl in Hsum.
      pose proof (short_path nodes (q ++ [t]) Hnd Hin) as Hlen.
      rewrite length_app in Hlen. simpl in Hlen.
      destruct (length nodes - S (length q)) as [|m] eqn:Hm.
      + assert (new = []) as ->.
        { apply filter_all_out. intros x Hx Hnv.
          apply Hnv, Hvis', (full_path nodes); try done.
          - rewrite length_app. simpl. lia.
          - apply (closed t); [|done]. apply Hin. set_solver. }
        simpl in *. lia.
      + simpl in Hsum. rewrite sum_list_with_fmap.
        assert (sum_list_with
                  (Dag.weight inward nodes ∘ (fun x => (x, q ++ [t]))) new
                <= sum_list_with (Dag.walks inward m) (inward t)).
        { etrans; [|apply (sum_list_filter_le _ (fun x => x ∉ visited'))].
          fold new. apply Nat.eq_le_incl, sum_list_with_ext.
          intros x. unfold Dag.weight. simpl.
          f_equal. rewrite length_app. simpl. lia. }
        lia. }
  rewrite fmap_app, <- list_fmap_compose in Hout.
  rewrite push_inward_filter. fold visited'. fold new.
  change (fst ∘ (fun x => (x, q ++ [t]))) with (@id node) in Hout.
  rewrite list_fmap_id in Hout.
  change (list_fmap _ _ fst es) with (fst <$> es).
  rewrite Hout. eauto.
Qed.
End DagFacts.

(** X3: the traversal of the dump ends on every finite graph, cyclic or
    not: for targets among a list of tasks that is closed under
    [_get_inward], a bound that the targets and the graph fix is enough
    for the loop to empty its stack. *)
Lemma dump_terminates `{Countable node} (inward : node -> list node)
    (nodes target_tasks forcedtorun_tasks : list node) :
  (forall t x, t ∈ nodes -> x ∈ inward t -> x ∈ nodes) ->
  (forall t, t ∈ target_tasks ++ forcedtorun_tasks -> t ∈ nodes) ->
  exists fuel out,
    Dag.visits inward fuel target_tasks forcedtorun_tasks = Some out.
Proof.
  intros Hclosed Hin. unfold Dag.visits.
  set (stack := target_tasks ++ forcedtorun_tasks) in *.
  set (es := (fun t => (t, @nil node)) <$> stack).
  exists (sum_list_with (Dag.weight inward nodes) es).
  destruct (dump_loop_terminates inward nodes Hclosed
              (sum_list_with (Dag.weight inward nodes) es) es ∅) as [out Hout].
  - apply Forall_fmap, Forall_forall. intros t Ht. repeat split; simpl.
    + apply NoDup_singleton.
    + intros x Hx. by apply elem_of_nil in Hx.
    + intros x Hx%list_elem_of_singleton. subst x. by apply Hin.
  - done.
  - exists out. unfold es in Hout.
    rewrite <- list_fmap_compose in Hout.
    change (fst ∘ (fun t => (t, @nil node))) with (@id node) in Hout.
    by rewrite list_fmap_id in Hout.
Qed.

(** C7: the claim holds of the two-task cycle, where each task is
    written once, but not of every graph: in the diamond, where A
    depends on B and C and both depend on D, D is put on the stack twice
    before it is first visited and its line is written twice. *)
Theorem C7_diamond_written_twice :
  Dag.visits Examples.cycle 10 [0] [] = Some [0; 1]
  /\ Dag.visits Examples.diamond 10 [0] [] = Some [0; 1; 2; 3; 3]
  /\ Dag.ruffus_return_dag Examples.name_of (fun _ => true)
       Examples.outputs_of Examples.diamond 10 [0] []
     = Some [ Dag.HEADER;
              "A" +:+ Dag.TAB +:+ "True" +:+ Dag.TAB +:+ "" +:+ Dag.TAB
                  +:+ "B,C" +:+ Dag.NEWLINE;
              "B" +:+ Dag.TAB +:+ "True" +:+ Dag.TAB +:+ "" +:+ Dag.TAB
                  +:+ "D" +:+ Dag.NEWLINE;
              "C" +:+ Dag.TAB +:+ "True" +:+ Dag.TAB +:+ "" +:+ Dag.TAB
                  +:+ "D" +:+ Dag.NEWLINE;
              "D" +:+ Dag.TAB +:+ "True" +:+ Dag.TAB +:+ "d1.txt,d2.txt"
                  +:+ Dag.TAB +:+ "" +:+ Dag.NEWLINE;
              "D" +:+ Dag.TAB +:+ "True" +:+ Dag.TAB +:+ "d1.txt,d2.txt"
                  +:+ Dag.TAB +:+ "" +:+ Dag.NEWLINE ].
Proof. repeat split; vm_compute; reflexivity. Qed.

(** ** The plan parser on a task block *)

Section BlockFacts.
Implicit Types (st : locals) (lines : list string).

Lemma run_total st lines : exists r, run st lines = Ok r.
Proof.
  revert st. induction lines as [|l ls IH]; intros st; simpl; [eauto|].
  destruct (task_step_total st l) as [r ->]. cbn [bind].
  destruct (IH (snd r)) as [r' ->]. cbn [bind]. eauto.
Qed.

Lemma loop_run st lines ys st' :
  run st lines = Ok (ys, st') ->
  split_by_task_loop st lines = Ok (ys ++ flush st').
Proof.
  revert st ys st'. induction lines as [|l ls IH]; intros st ys st'; simpl.
  - intros [= <- <-]. reflexivity.
  - destruct (task_step st l) as [r|]; [|discriminate]. cbn [bind].
    destruct (run (snd r) ls) as [[ys' st'']|] eqn:Hr; [|discriminate].
    cbn [bind]. intros [= <- <-]. simpl.
    rewrite (IH _ _ _ Hr). cbn [bind]. by rewrite app_assoc.
Qed.

Lemma run_app st lines1 lines2 ys1 st1 ys2 st2 :
  run st lines1 = Ok (ys1, st1) ->
  run st1 lines2 = Ok (ys2, st2) ->
  run st (lines1 ++ lines2) = Ok (ys1 ++ ys2, st2).
Proof.
  revert st ys1 st1. induction lines1 as [|l ls IH]; intros st ys1 st1; simpl.
  - intros [= <- <-]. done.
  - destruct (task_step st l) as [r|]; [|discriminate]. cbn [bind].
    destruct (run (snd r) ls) as [[ys' st'']|] eqn:Hr; [|discriminate].
    cbn [bind]. intros [= <- <-] H2. simpl.
    rewrite (IH _ _ _ Hr H2). cbn [bind]. simpl. by rewrite app_assoc.
Qed.

(** The status among the locals is the mode of the section. *)
Lemma run_status st lines ys st' :
  run st lines = Ok (ys, st') ->
  task_status st' = section_mode_from (task_status st) lines.
Proof.
  revert st ys st'. induction lines as [|l ls IH]; intros st ys st'; simpl.
  - by intros [= _ <-].
  - destruct (task_step st l) as [r|] eqn:Hs; [|discriminate]. cbn [bind].
    destruct (run (snd r) ls) as [[ys' st'']|] eqn:Hr; [|discriminate].
    cbn [bind]. intros [= _ <-]. simpl. rewrite (IH _ _ _ Hr).
    f_equal. unfold task_step in Hs.
    destruct (Py.startswith _ "Tasks which will be run");
      [by injection Hs as <-|].
    destruct (Py.startswith _ "Tasks which are up-to-date");
      [by injection Hs as <-|].
    destruct (Py.startswith _ "Task = ").
    + destruct (Re.match_ _ _) as [[? ?]|]; [by injection Hs as <-|done].
    + destruct (negb _); by injection Hs as <-.
Qed.

(** A pattern that begins with literal text matches only behind that
    text. *)
Lemma match_lit_prefix p r bos s gs grp x :
  Re.match_here (Re.lit p ++ r) bos s gs grp = Some x ->
  String.prefix p s = true.
Proof.
  revert bos s. induction p as [|a p IH]; intros bos s Hm.
  - by destruct s.
  - destruct s as [|c s]; [discriminate Hm|].
    change (Re.match_here (Re.lit (String a p) ++ r) bos (String c s) gs grp)
      with (if Ascii.eqb a c
            then Re.match_here (Re.lit p ++ r) false s gs grp else None)
      in Hm.
    destruct (Ascii.eqb_spec a c) as [<-|]; [|discriminate Hm].
    cbn [String.prefix]. destruct (ascii_dec a a); [|done]. by eapply IH.
Qed.

(** The pattern of the task name matches only behind the header. *)
Lemma task_name_match_prefix line x :
  Re.match_ RE_TASK_NAME line = Some x ->
  Py.startswith line "Task = " = true.
Proof. apply match_lit_prefix. Qed.

Lemma header_not_marker line :
  Py.startswith line "Task = " = true ->
  Py.startswith line "Tasks which will be run" = false
  /\ Py.startswith line "Tasks which are up-to-date" = false.
Proof.
  unfold Py.startswith. intros Hp.
  do 5 (apply prefix_cons_inv in Hp as (? & -> & Hp)).
  split; reflexivity.
Qed.

Lemma step_header st line name :
  header_name line = Some name ->
  task_step st line = Ok (flush st, Locals [] (Some name) (task_status st)).
Proof.
  unfold header_name, task_step. intros Hn.
  destruct (Re.match_ RE_TASK_NAME (Py.strip line)) as [[n r]|] eqn:Hm;
    [|discriminate].
  injection Hn as ->.
  pose proof (task_name_match_prefix _ _ Hm) as Hp.
  destruct (header_not_marker _ Hp) as [-> ->]. by rewrite Hp.
Qed.

(** The lines of a block add up below the header. *)
Lemma run_body b name m body :
  Forall (fun l => is_marker l = false /\ header_name l = None) body ->
  run (Locals b name m) body = Ok ([], Locals (b ++ block_of body) name m).
Proof.
  revert b. induction body as [|l ls IH]; intros b Hb.
  - simpl. unfold block_of. simpl. by rewrite app_nil_r.
  - apply Forall_cons in Hb as [[Hmk Hh] Hb]. simpl.
    unfold task_step. unfold is_marker in Hmk.
    apply orb_false_iff in Hmk as [-> ->].
    destruct (Py.startswith (Py.strip l) "Task = ") eqn:Hp.
    { destruct (task_header_match _ Hp) as [[n r] Hm].
      unfold header_name in Hh. by rewrite Hm in Hh. }
    unfold block_of. rewrite fmap_cons. simpl.
    destruct (String.eqb (Py.strip l) "") eqn:He; cbn [negb bind snd fst].
    + rewrite (IH b Hb). reflexivity.
    + rewrite (IH (b ++ [Py.strip l]) Hb). cbn [bind]. simpl.
      unfold block_of. by rewrite <- app_assoc.
Qed.

(** The chunks carry the task in the locals or the name of a header. *)
Lemma run_names st lines ys st' c :
  run st lines = Ok (ys, st') ->
  c ∈ ys ++ flush st' ->
  Some (chunk_name c) = task_name st
  \/ exists l, l ∈ lines /\ header_name l = Some (chunk_name c).
Proof.
  revert st ys st'. induction lines as [|l ls IH]; intros st ys st'; simpl.
  - intros [= <- <-]. simpl. unfold flush.
    destruct (task_name st) as [[|? ?]|]; simpl;
      try (by intros ?%elem_of_nil).
    intros ->%list_elem_of_singleton. by left.
  - destruct (task_step st l) as [[ys0 st0]|] eqn:Hs; [|discriminate].
    cbn [bind].
    destruct (run (snd (ys0, st0)) ls) as [[ys' st'']|] eqn:Hr; [|discriminate].
    cbn [bind]. intros [= <- <-]. simpl in *.
    rewrite <- app_assoc. intros [Hc|Hc]%elem_of_app.
    + (* yielded by this line: the task of the locals *)
      unfold task_step in Hs.
      destruct (Py.startswith _ "Tasks which will be run");
        [injection Hs as <- <-; by apply elem_of_nil in Hc|].
      destruct (Py.startswith _ "Tasks which are up-to-date");
        [injection Hs as <- <-; by apply elem_of_nil in Hc|].
      destruct (Py.startswith _ "Task = ").
      * destruct (Re.match_ _ _) as [[? ?]|]; [|done].
        injection Hs as <- <-. unfold flush in Hc.
        destruct (task_name st) as [[|? ?]|]; simpl in Hc;
          try (by apply elem_of_nil in Hc).
        apply list_elem_of_singleton in Hc as ->. by left.
      * destruct (negb _); injection Hs as <- <-;
          by apply elem_of_nil in Hc.
    + destruct (IH _ _ _ Hr Hc) as [Hn|(l' & Hl & Hn)].
      * unfold task_step in Hs.
        destruct (Py.startswith _ "Tasks which will be run");
          [injection Hs as <- <-; by left|].
        destruct (Py.startswith _ "Tasks which are up-to-date");
          [injection Hs as <- <-; by left|].
        destruct (Py.startswith _ "Task = ").
        -- destruct (Re.match_ _ _) as [[n ?]|] eqn:Hm; [|done].
           injection Hs as <- <-. simpl in Hn. right. exists l.
           split; [by left|]. unfold header_name. by rewrite Hm.
        -- destruct (negb _); injection Hs as <- <-; by left.
      * right. exists l'. split; [by right | done].
Qed.
End BlockFacts.

(** ** The tables after the loop over the chunks *)

Section TableFacts.
Implicit Types (self : tracker) (c : chunk) (cs : list chunk).

Lemma add_task_index self c k :
  map_job2task (add_task self c) !! k
  = if decide (Py.startswith (chunk_name c) "(mkdir" = false
               /\ k ∈ labels c)
    then Some (chunk_name c) else map_job2task self !! k.
Proof.
  destruct c as [[name st] js]. unfold chunk_name, labels. cbn [fst snd].
  destruct (Py.startswith name "(mkdir") eqn:Hm.
  - rewrite add_task_mkdir by done. rewrite decide_False; [done|].
    by intros [? _].
  - rewrite add_task_eq by done. simpl. rewrite lookup_index_jobs.
    destruct (decide (k ∈ _)).
    + by rewrite decide_True.
    + rewrite decide_False; [done|]. by intros [_ ?].
Qed.

Lemma add_task_tasks_other self c n :
  chunk_name c <> n -> tasks (add_task self c) !! n = tasks self !! n.
Proof.
  destruct c as [[name st] js]. unfold chunk_name. cbn [fst snd]. intros Hne.
  destruct (Py.startswith name "(mkdir") eqn:Hm.
  - by rewrite add_task_mkdir.
  - rewrite add_task_eq by done. simpl. by rewrite lookup_insert_ne.
Qed.

(** A task keeps its entry while no later chunk has its name. *)
Lemma foldl_add_task_tasks_other self cs n :
  (forall c, c ∈ cs -> chunk_name c <> n) ->
  tasks (foldl add_task self cs) !! n = tasks self !! n.
Proof.
  revert self. induction cs as [|c cs IH]; intros self Hn; simpl; [done|].
  rewrite IH by (intros; apply Hn; by right).
  apply add_task_tasks_other, Hn. by left.
Qed.

(** The index only grows. *)
Lemma foldl_add_task_index_some self cs k :
  is_Some (map_job2task self !! k) ->
  is_Some (map_job2task (foldl add_task self cs) !! k).
Proof.
  revert self. induction cs as [|c cs IH]; intros self Hk; simpl; [done|].
  apply IH. rewrite add_task_index. case_decide; [eauto | done].
Qed.

(** A label stays with a task while every later chunk that lists it
    has the name of that task. *)
Lemma foldl_add_task_index_keep self cs k n :
  map_job2task self !! k = Some n ->
  (forall c, c ∈ cs -> Py.startswith (chunk_name c) "(mkdir" = false ->
             k ∈ labels c -> chunk_name c = n) ->
  map_job2task (foldl add_task self cs) !! k = Some n.
Proof.
  revert self. induction cs as [|c cs IH]; intros self Hk Hn; simpl; [done|].
  apply IH; [|intros; apply Hn; [by right | done..]].
  rewrite add_task_index. case_decide as Hc; [|done].
  destruct Hc. f_equal. apply Hn; [by left | done..].
Qed.
End TableFacts.

(** ** A task header names a task *)

Section HeaderFacts.

Lemma mem_rev_onto c s acc :
  mem c (Py.rev_onto s acc) <-> mem c s \/ mem c acc.
Proof.
  revert acc. induction s as [|a s IH]; intros acc; simpl.
  - unfold mem. simpl. tauto.
  - rewrite IH. unfold mem. simpl. tauto.
Qed.

Lemma mem_lstrip c s : mem c (Py.lstrip s) -> mem c s.
Proof.
  induction s as [|a s IH]; simpl; [done|].
  destruct (Py.isspace a); [|done]. intros Hc. right. by apply IH.
Qed.

Lemma mem_strip c s : mem c (Py.strip s) -> mem c s.
Proof.
  unfold Py.strip, Py.rev. intros Hc.
  apply mem_rev_onto in Hc as [Hc|[]].
  apply mem_lstrip, mem_rev_onto in Hc as [Hc|[]].
  by apply mem_lstrip.
Qed.

Lemma cons_head_no_lf c l :
  c <> Py.LF ->
  Forall (fun s => ~ mem Py.LF s) l ->
  Forall (fun s => ~ mem Py.LF s) (Py.cons_head c l).
Proof.
  intros Hc Hl. destruct l as [|h t]; simpl.
  - apply Forall_cons. split; [|done]. intros [?|[]]. congruence.
  - apply Forall_cons in Hl as [Hh Ht]. apply Forall_cons.
    split; [|done]. intros [?|?]; [congruence | done].
Qed.

(** No line of [splitlines] holds a line feed. *)
Lemma splitlines_no_lf s :
  Forall (fun l => ~ mem Py.LF l) (Py.splitlines s).
Proof.
  cut (Forall (fun l => ~ mem Py.LF l) (Py.splitlines s)
       /\ forall c, Forall (fun l => ~ mem Py.LF l)
                      (Py.splitlines (String c s))); [tauto|].
  induction s as [|a s [IH1 IH2]].
  - split; [constructor|]. intros c. simpl.
    destruct (Py.islinebreak c) eqn:Hc.
    + apply Forall_cons. split; [intros [] | constructor].
    + apply (cons_head_no_lf c []); [|constructor]. by intros ->.
  - split; [apply IH2|]. intros c.
    change (Py.splitlines (String c (String a s)))
      with (if Py.islinebreak c
            then "" :: (if Ascii.eqb c Py.CR && Ascii.eqb a Py.LF
                        then Py.splitlines s
                        else Py.splitlines (String a s))
            else Py.cons_head c (Py.splitlines (String a s))).
    destruct (Py.islinebreak c) eqn:Hc.
    + apply Forall_cons. split; [intros []|].
      destruct (_ && _); [done | apply IH2].
    + apply cons_head_no_lf; [|apply IH2]. by intros ->.
Qed.

Lemma lstrip_head s d y : Py.lstrip s = String d y -> Py.isspace d = false.
Proof.
  induction s as [|a s IH]; simpl; [done|].
  destruct (Py.isspace a) eqn:Ha; [done|]. by intros [= <- _].
Qed.

Lemma append_cons a (p q : string) : String a p +:+ q = String a (p +:+ q).
Proof. reflexivity. Qed.

Lemma append_nil (q : string) : "" +:+ q = q.
Proof. reflexivity. Qed.

Lemma append_assoc_cons (p : string) c acc :
  p +:+ String c acc = (p +:+ String c "") +:+ acc.
Proof.
  induction p as [|a p IH]; [done|]. by rewrite !append_cons, IH.
Qed.

Lemma rev_onto_suffix s acc : exists p, Py.rev_onto s acc = p +:+ acc.
Proof.
  revert acc. induction s as [|a s IH]; intros acc; simpl.
  - by exists "".
  - destruct (IH (String a acc)) as [p ->].
    exists (p +:+ String a ""). apply append_assoc_cons.
Qed.

Lemma append_last_inj (p q : string) c d :
  p +:+ String c "" = q +:+ String d "" -> c = d.
Proof.
  revert q. induction p as [|a p IH]; intros [|b q];
    rewrite ?append_cons, ?append_nil.
  - by intros [= ->].
  - intros [= _ Hq]. by destruct q.
  - intros [= _ Hp]. by destruct p.
  - intros [= _ Hpq]. by eapply IH.
Qed.

(** [strip] leaves no white space at the end. *)
Lemma strip_last s p c : Py.strip s = p +:+ String c "" -> Py.isspace c = false.
Proof.
  unfold Py.strip, Py.rev.
  destruct (Py.lstrip (Py.rev_onto (Py.lstrip s) "")) as [|d y] eqn:Hy; simpl.
  - by destruct p.
  - destruct (rev_onto_suffix y (String d "")) as [q ->].
    intros ->%append_last_inj. by eapply lstrip_head.
Qed.

Lemma star_close_result p s bos gs grp :
  exists r,
    Re.match_here [Re.Star p; Re.GClose] bos s gs grp
    = Some (Re.captured gs r, r)
    /\ String.length r <= String.length s.
Proof.
  revert bos. induction s as [|c s IH]; intros bos; simpl.
  - by exists "".
  - destruct (p c).
    + destruct (IH false) as (r & Hr & Hlen). simpl in Hr. rewrite Hr.
      exists r. split; [done | lia].
    + exists (String c s). split; [done | simpl; lia].
Qed.

Lemma prefix_task_inv s :
  String.prefix "Task = " s = true -> exists rest, s = "Task = " +:+ rest.
Proof.
  intros Hp. do 7 (apply prefix_cons_inv in Hp as (? & -> & Hp)). eauto.
Qed.

(** The name that a task header of the plan yields is not empty. *)
Lemma header_name_nonempty text header name :
  header ∈ Py.splitlines text ->
  header_name header = Some name ->
  name <> "".
Proof.
  intros Hin Hname.
  pose proof (splitlines_no_lf text) as Hlf.
  rewrite Forall_forall in Hlf. specialize (Hlf _ Hin).
  unfold header_name in Hname.
  destruct (Re.match_ RE_TASK_NAME (Py.strip header)) as [[n r]|] eqn:Hm;
    [|done].
  injection Hname as ->.
  pose proof (task_name_match_prefix _ _ Hm) as Hp.
  apply prefix_task_inv in Hp as [rest Hs].
  rewrite Hs in Hm. unfold Re.match_ in Hm.
  change (Re.match_here RE_TASK_NAME true ("Task = " +:+ rest)
            ("Task = " +:+ rest) "")
    with (Re.match_here [Re.Star Re.dot; Re.GClose] false rest rest "") in Hm.
  destruct rest as [|c rest].
  - exfalso. apply (strip_last header "Task =" " ") in Hs. discriminate Hs.
  - assert (Re.dot c = true) as Hc.
    { unfold Re.dot. destruct (Ascii.eqb_spec c Py.LF) as [->|]; [|done].
      exfalso. apply Hlf, mem_strip. rewrite Hs.
      unfold mem. simpl. tauto. }
    simpl in Hm. rewrite Hc in Hm.
    destruct (star_close_result Re.dot rest false (String c rest) "")
      as (r' & Hr & Hlen).
    simpl in Hr. rewrite Hr in Hm. injection Hm as <- _.
    unfold Re.captured.
    replace (String.length (String c rest) - String.length r')
      with (S (String.length rest - String.length r')) by (simpl; lia).
    done.
Qed.

End HeaderFacts.

(** What the parser does by design.  A block of directory bookkeeping
    gets no entry.  Of two tasks with a job of the same output, the
    later one owns the label.  Of two blocks of one task, the later one
    sets the counts. *)
Lemma plan_parser_skips_and_overwrites :
  tasks (Examples.parsed Examples.plan_mkdir) !! "(mkdir out.dir)" = None
  /\ map_job2task (Examples.parsed Examples.plan_mkdir) !! "out.dir" = None
  /\ split_by_task Examples.plan_collision
     = Ok [("first", Some update, [("out.txt", ignore)]);
           ("second", Some update, [("out.txt", ignore)])]
  /\ map_job2task (Examples.parsed Examples.plan_collision) !! "out.txt"
     = Some "second"
  /\ split_by_task Examples.plan_twice
     = Ok [("align", Some update, [("out1.bam", ignore); ("out2.bam", ignore)]);
           ("align", Some update, [("out3.bam", ignore)])]
  /\ tasks (Examples.parsed Examples.plan_twice) !! "align"
     = Some (TaskState (Some update) 1 1).
Proof. repeat split; vm_compute; reflexivity. Qed.

(** With both sections in the plan, the last task of the first section
    is yielded when the first task of the second one begins: by then the
    section header has emptied its block and changed the status. *)
Lemma section_header_resets_block :
  split_by_task Examples.plan_sections
  = Ok [("index", Some update, []);
        ("align", Some update, [("out1.bam", update)])]
  /\ tasks (Examples.parsed Examples.plan_sections) !! "index"
     = Some (TaskState (Some update) 0 0).
Proof. split; vm_compute; reflexivity. Qed.

(** C3: on a plan with both sections, as ruffus prints them, the parser
    misses what the claim says.  The task index stands under the header
    of the tasks that are up to date and has one job, which is not
    marked as needing an update: the claim gives it the status ignore,
    a total of 1, 1 completed job, and the label genome.idx in the job
    index.  The parser yields a task only when the next task header
    comes, and the header of the next section has by then emptied the
    block and changed the status: index gets the status update and the
    counts 0 and 0, and its job is in neither table.  The task align,
    which the end of the text closes, is parsed as the claim says: one
    job, none completed. *)
Theorem C3_section_header_drops_block :
  __init__ Examples.plan_sections
  = Ok (Tracker {["out1.bam" := ("align", "out1.bam")]}
          (<["index" := TaskState (Some update) 0 0]>
             {["align" := TaskState (Some update) 1 0]})
          {["out1.bam" := "align"]}).
Proof. vm_compute. reflexivity. Qed.

(** Where no section header comes between a task and the next one, the
    parser keeps the block: take a task header for a task that is not
    directory bookkeeping, the mode of the section that the lines above it end in,
    and the lines below it up to the next task header or the end of the
    plan, none of which is a section header.  With J the number of jobs
    that [split_by_job] yields for these lines and U the number of them
    marked as needing an update, and no later header of the same task,
    the parser gives the task the entry (mode, J, J - U).  Every label
    of these jobs, normalized, is in the job index; it maps to this task
    when every task of the plan whose jobs have the label has this
    name. *)
Lemma plan_parser_task_block :
  forall (text : string) (pre body rest : list string) (header name : string),
    Py.splitlines text = pre ++ header :: body ++ rest ->
    header_name header = Some name ->
    Forall (fun l => is_marker l = false /\ header_name l = None) body ->
    match rest with [] => True | l :: _ => is_Some (header_name l) end ->
    Py.startswith name "(mkdir" = false ->
    Forall (fun l => header_name l <> Some name) rest ->
    let js := split_by_job (block_of body) in
    exists (chunks : list chunk) (self : tracker),
      split_by_task text = Ok chunks
      /\ __init__ text = Ok self
      /\ (name, section_mode pre, js) ∈ chunks
      /\ tasks self !! name
         = Some (TaskState (section_mode pre) (Z.of_nat (length js))
                   (Z.of_nat (length js) - Z.of_nat (needing_update js)))
      /\ forall j, j ∈ js ->
           is_Some (map_job2task self !! normalize (fst j))
           /\ ((forall c, c ∈ chunks ->
                   Py.startswith (chunk_name c) "(mkdir" = false ->
                   normalize (fst j) ∈ labels c -> chunk_name c = name) ->
               map_job2task self !! normalize (fst j) = Some name).
Proof.
  intros text pre body rest header name Hlines Hname Hbody Hrest Hmk Hlater js.
  assert (name <> "") as Hne.
  { apply (header_name_nonempty text header); [|done].
    rewrite Hlines. apply elem_of_app. right. by left. }
  set (st0 := Locals [] None None).
  destruct (run_total st0 pre) as [[ys0 st1] Hpre].
  pose proof (run_status _ _ _ _ Hpre) as Hmode.
  change (section_mode_from (task_status st0) pre) with (section_mode pre) in Hmode.
  set (this := (name, section_mode pre, js) : chunk).
  set (stb := Locals (block_of body) (Some name) (section_mode pre)).
  assert (flush stb = [this]) as Hflush.
  { unfold flush, stb. simpl. by destruct name. }
  (* the chunks from the block on *)
  assert (exists later,
             split_by_task_loop stb rest = Ok (this :: later)
             /\ forall c, c ∈ later -> chunk_name c <> name)
    as (later & Hloop & Hnames).
  { destruct rest as [|h rest'].
    - exists []. simpl. rewrite Hflush. split; [done|].
      by intros c ?%elem_of_nil.
    - destruct Hrest as [n2 Hn2].
      destruct (run_total (Locals [] (Some n2) (task_status stb)) rest')
        as [[ys2 st2] Hr2].
      exists (ys2 ++ flush st2). split.
      + simpl. rewrite (step_header _ _ _ Hn2). cbn [bind snd fst].
        rewrite (loop_run _ _ _ _ Hr2). cbn [bind]. by rewrite Hflush.
      + intros c Hc Heq.
        apply Forall_cons in Hlater as [Hh Hlater].
        destruct (run_names _ _ _ _ _ Hr2 Hc) as [Hn|(l & Hl & Hn)].
        * simpl in Hn. apply Hh. rewrite Hn2. by rewrite <- Hn, Heq.
        * rewrite Forall_forall in Hlater. apply (Hlater l Hl).
          by rewrite Hn, Heq. }
  (* the chunks of the whole plan *)
  assert (split_by_task text = Ok ((ys0 ++ flush st1) ++ this :: later)) as Hsplit.
  { unfold split_by_task. rewrite Hlines. fold st0.
    assert (run st0 (pre ++ [header] ++ body) = Ok (ys0 ++ flush st1, stb)) as Hr.
    { replace (ys0 ++ flush st1) with (ys0 ++ flush st1 ++ []) by by rewrite app_nil_r.
      eapply run_app; [exact Hpre|].
      eapply (run_app _ [header] body); simpl.
      - rewrite (step_header _ _ _ Hname). cbn [bind]. simpl.
        by rewrite app_nil_r.
      - rewrite run_body by done. rewrite Hmode. reflexivity. }
    destruct (run_total stb rest) as [[ys3 st3] Hr3].
    pose proof (loop_run _ _ _ _ Hr3) as Hl3. rewrite Hloop in Hl3.
    injection Hl3 as Hl3.
    pose proof (run_app _ _ _ _ _ _ _ Hr Hr3) as Hall.
    rewrite <- !app_assoc in Hall. simpl in Hall.
    by rewrite (loop_run _ _ _ _ Hall), <- !app_assoc, <- Hl3. }
  exists ((ys0 ++ flush st1) ++ this :: later).
  eexists. split; [exact Hsplit|].
  unfold __init__. rewrite Hsplit. cbn [bind]. split; [reflexivity|].
  split; [apply elem_of_app; right; by left|].
  rewrite foldl_app. cbn [foldl].
  set (before := foldl add_task empty_tracker (ys0 ++ flush st1)).
  split.
  - rewrite foldl_add_task_tasks_other by done.
    unfold this. rewrite add_task_eq by done. simpl. by rewrite lookup_insert_eq.
  - intros j Hj.
    assert (normalize (fst j) ∈ labels this) as Hlab.
    { unfold labels, this. simpl. apply list_elem_of_fmap. by exists j. }
    assert (map_job2task (add_task before this) !! normalize (fst j)
            = Some name) as Hhere.
    { rewrite add_task_index. by rewrite decide_True. }
    split.
    + apply foldl_add_task_index_some. by rewrite Hhere.
    + intros Hown. apply foldl_add_task_index_keep; [done|].
      intros c Hc. apply Hown, elem_of_app. right. by right.
Qed.

Lemma plan_parser_task_block_witness :
  let js :=
    split_by_job
      (block_of ["   Job  = [x -> out1.bam]";
                 "     Job needs update: Missing file";
                 "   Job  = [x -> out2.bam]"]) in
  exists (chunks : list chunk) (self : tracker),
    split_by_task Examples.plan_two = Ok chunks
    /\ __init__ Examples.plan_two = Ok self
    /\ ("align", section_mode ["Tasks which will be run:"; ""], js) ∈ chunks
    /\ tasks self !! "align"
       = Some (TaskState (section_mode ["Tasks which will be run:"; ""])
                 (Z.of_nat (length js))
                 (Z.of_nat (length js) - Z.of_nat (needing_update js)))
    /\ forall j, j ∈ js ->
         is_Some (map_job2task self !! normalize (fst j))
         /\ ((forall c, c ∈ chunks ->
                 Py.startswith (chunk_name c) "(mkdir" = false ->
                 normalize (fst j) ∈ labels c -> chunk_name c = "align") ->
             map_job2task self !! normalize (fst j) = Some "align").
Proof.
  apply (plan_parser_task_block Examples.plan_two
           ["Tasks which will be run:"; ""]
           ["   Job  = [x -> out1.bam]";
            "     Job needs update: Missing file";
            "   Job  = [x -> out2.bam]"]
           ["Task = count"; "   Job  = [out1.bam -> counts.tsv]"]
           "Task = align" "align").
  - vm_compute. reflexivity.
  - vm_compute. reflexivity.
  - repeat constructor.
  - vm_compute. eauto.
  - vm_compute. reflexivity.
  - repeat constructor; vm_compute; discriminate.
Defined.

(** * Further properties of the code *)

(** ** The tasks that the dump writes *)

Section DumpFacts.
Context `{Countable node}.
Variable inward : node -> list node.

Lemma reachable_from_mono (S1 S2 : list node) u :
  reachable_from inward S1 u ->
  (forall s, s ∈ S1 -> reachable_from inward S2 s) ->
  reachable_from inward S2 u.
Proof.
  intros Hu Hs. induction Hu as [t Ht | t x _ IH Hx].
  - by apply Hs.
  - by eapply reach_inward.
Qed.

(** Every entry of the stack is written, and the written tasks are
    closed under the edges up to the tasks visited before. *)
Lemma dump_loop_closed fuel stack (visited : gset node) out :
  Dag.dump_loop inward fuel stack visited = Some out ->
  stack ⊆+ out
  /\ forall u x, u ∈ out -> x ∈ inward u -> x ∈ out \/ x ∈ visited.
Proof.
  revert stack visited out.
  induction fuel as [|fuel IH]; intros [|t stack] visited out; simpl;
    try discriminate.
  - intros [= <-]. split; [done|]. by intros u x ?%elem_of_nil.
  - intros [= <-]. split; [done|]. by intros u x ?%elem_of_nil.
  - destruct (Dag.dump_loop inward fuel _ _) as [out'|] eqn:Hl; [|discriminate].
    intros [= <-]. apply IH in Hl as [Hs Hc].
    rewrite (push_inward_filter inward) in Hs. split.
    + apply submseteq_skip. etrans; [|exact Hs]. by apply submseteq_inserts_r.
    + intros u x [->|Hu]%elem_of_cons Hx.
      * destruct (decide (x ∈ ({[t]} ∪ visited : gset node))) as [Hv|Hv].
        -- apply elem_of_union in Hv as [->%elem_of_singleton|Hv];
             [left; by left | by right].
        -- left. right. eapply elem_of_submseteq; [|exact Hs].
           apply elem_of_app. right. by apply list_elem_of_filter.
      * destruct (Hc u x Hu Hx) as [?|Hv]; [left; by right|].
        apply elem_of_union in Hv as [->%elem_of_singleton|Hv];
          [left; by left | by right].
Qed.

(** Only tasks that can be reached from the stack are written. *)
Lemma dump_loop_sound fuel stack (visited : gset node) out :
  Dag.dump_loop inward fuel stack visited = Some out ->
  forall u, u ∈ out -> reachable_from inward stack u.
Proof.
  revert stack visited out.
  induction fuel as [|fuel IH]; intros [|t stack] visited out; simpl;
    try discriminate.
  - intros [= <-] u Hu. by apply elem_of_nil in Hu.
  - intros [= <-] u Hu. by apply elem_of_nil in Hu.
  - destruct (Dag.dump_loop inward fuel _ _) as [out'|] eqn:Hl; [|discriminate].
    intros [= <-] u [->|Hu]%elem_of_cons.
    + apply reach_target. by left.
    + eapply reachable_from_mono; [exact (IH _ _ _ Hl u Hu)|].
      rewrite (push_inward_filter inward).
      intros s [Hs|Hs]%elem_of_app.
      * apply reach_target. by right.
      * apply list_elem_of_filter in Hs as [_ Hs].
        eapply reach_inward; [|exact Hs]. apply reach_target. by left.
Qed.
End DumpFacts.

(** X1: when the dump ends, the tasks it has written are exactly the
    tasks that can be reached from the requested and the forced targets
    along the edges of [_get_inward]. *)
Theorem dump_writes_the_reachable_tasks `{Countable node}
    (inward : node -> list node) (fuel : nat)
    (target_tasks forcedtorun_tasks out : list node) :
  Dag.visits inward fuel target_tasks forcedtorun_tasks = Some out ->
  forall t,
    t ∈ out <-> reachable_from inward (target_tasks ++ forcedtorun_tasks) t.
Proof.
  unfold Dag.visits. intros Hv t. split.
  - by eapply dump_loop_sound.
  - apply dump_loop_closed in Hv as [Hs Hc].
    induction 1 as [t Ht | t x _ IH Hx].
    + by eapply elem_of_submseteq.
    + destruct (Hc t x IH Hx) as [?|Hv]; [done|]. by apply elem_of_empty in Hv.
Qed.

Lemma dump_writes_the_reachable_tasks_witness :
  1 ∈ [0; 1] <-> reachable_from Examples.cycle ([0] ++ []) 1.
Proof.
  apply (dump_writes_the_reachable_tasks Examples.cycle 10 [0] [] [0; 1]).
  vm_compute. reflexivity.
Defined.

(** X2: every entry of the two target lists gets a line of its own: the
    written tasks contain the targets with their multiplicity, so a task
    that is both requested and forced is written at least twice. *)
Theorem dump_writes_every_stack_entry `{Countable node}
    (inward : node -> list node) (fuel : nat)
    (target_tasks forcedtorun_tasks out : list node) :
  Dag.visits inward fuel target_tasks forcedtorun_tasks = Some out ->
  target_tasks ++ forcedtorun_tasks ⊆+ out.
Proof. unfold Dag.visits. intros Hv. by apply dump_loop_closed in Hv as [Hs _]. Qed.

Lemma dump_writes_every_stack_entry_witness :
  [1] ++ [1] ⊆+ [1; 1; 0; 0].
Proof.
  apply (dump_writes_every_stack_entry Examples.cycle 10 [1] [1] [1; 1; 0; 0]).
  vm_compute. reflexivity.
Defined.

Lemma dump_terminates_witness :
  exists fuel out, Dag.visits Examples.diamond fuel [0] [] = Some out.
Proof.
  apply (dump_terminates Examples.diamond [0; 1; 2; 3] [0] []).
  - intros t x Ht Hx.
    assert (Forall (fun t => Forall (fun x => x ∈ [0; 1; 2; 3])
                               (Examples.diamond t)) [0; 1; 2; 3]) as HF
      by (repeat constructor).
    rewrite Forall_forall in HF. specialize (HF t Ht).
    rewrite Forall_forall in HF. by apply HF.
  - intros t Ht. simpl in Ht. apply list_elem_of_singleton in Ht as ->.
    by left.
Defined.

(** ** The scoped swap when the region raises *)

(** X4: when the region raises, none of the five restoring assignments
    runs: the exception goes on to the caller and the process is left
    exactly as the region left it, so the five names stay bound to the
    memoizing wrappers unless the region itself has bound them anew. *)
Theorem cache_os_functions_not_restored_on_raise :
  forall (body : OsCache.world -> OsCache.exit * OsCache.world)
         (w : OsCache.world),
    fst (body (OsCache.set_os w OsCache.cached_os)) = OsCache.Raised ->
    OsCache.with_ OsCache.cache_os_functions body w
    = (OsCache.Raised, snd (body (OsCache.set_os w OsCache.cached_os))).
Proof.
  intros body w Hr. unfold OsCache.with_.
  rewrite resume_cache_os_functions.
  destruct (body (OsCache.set_os w OsCache.cached_os)) as [e w2].
  simpl in Hr. by subst e.
Qed.

Lemma cache_os_functions_not_restored_on_raise_witness :
  OsCache.with_ OsCache.cache_os_functions Examples.body_fail Examples.world0
  = (OsCache.Raised,
     snd (Examples.body_fail
            (OsCache.set_os Examples.world0 OsCache.cached_os))).
Proof.
  apply (cache_os_functions_not_restored_on_raise Examples.body_fail
           Examples.world0).
  reflexivity.
Defined.

(** ** More on the filter *)

Section MoreFilterFacts.
Implicit Types (self : tracker) (record : log_record).

Lemma update_log_record_returns_true self record n o :
  update_log_record self record (Some n) = Ok o -> returned o = RTrue.
Proof.
  unfold update_log_record. destruct (tasks self !! n); [|discriminate].
  by intros [= <-].
Qed.

(** One completion record of a known job: the count of its task grows
    by one and the index stays. *)
Lemma filter_completion_step self record j rest name t :
  Py.endswith (filename record) "task.py" = true ->
  is_Some_b (Re.search RE_JOB (msg record)) = true ->
  Re.search RE_BRACKET (msg record) = Some (j, rest) ->
  Py.contains "completed" (msg record) = true ->
  map_job2task self !! normalize j = Some name ->
  tasks self !! name = Some t ->
  exists o,
    filter self record = Ok o
    /\ self_after o
       = Tracker (jobs self)
           (<[name := TaskState (ts_status t) (ts_total t) (ts_completed t + 1)]>
              (tasks self))
           (map_job2task self).
Proof.
  intros Hf Hj Hb Hc Hm Ht. unfold filter.
  rewrite Hf, Hj, Hb. cbn [negb]. unfold normalize in Hm.
  rewrite Hm, Hc, (increment_ok _ _ _ Ht). cbn [bind].
  erewrite update_log_record_ok by (simpl; apply lookup_insert_eq).
  eexists. split; reflexivity.
Qed.
End MoreFilterFacts.

(** X5: the filter drops a record in one case only, a job record of the
    scheduler whose bracketed output is not in the job index; and a
    dropped record has changed nothing and logged nothing. *)
Theorem filter_drops_only_unknown_jobs :
  forall (self : tracker) (record : log_record) (o : outcome),
    filter self record = Ok o ->
    (keeps (returned o) = false <->
     Py.endswith (filename record) "task.py" = true
     /\ is_Some_b (Re.search RE_JOB (msg record)) = true
     /\ exists j rest,
         Re.search RE_BRACKET (msg record) = Some (j, rest)
         /\ map_job2task self !! normalize j = None)
    /\ (keeps (returned o) = false -> o = Outcome RNone self record []).
Proof.
  intros self record o. unfold filter, normalize.
  destruct (Py.endswith _ _) eqn:Hf; cbn [negb];
    [|intros [= <-]; simpl; split; [split; [done | by intros [? _]] | done]].
  destruct (is_Some_b (Re.search RE_JOB _)) eqn:Hj.
  { destruct (Re.search RE_BRACKET _) as [[j rest]|] eqn:Hb.
    - destruct (map_job2task self !! _) as [n|] eqn:Hm.
      + destruct (if Py.contains _ _ then _ else _) as [self'|];
          [|discriminate]. cbn [bind]. intros Hu.
        rewrite (update_log_record_returns_true _ _ _ _ Hu). simpl.
        split; [|done]. split; [done|].
        intros (_ & _ & j' & rest' & [= <- <-] & Hn). congruence.
      + intros [= <-]. simpl. split; [|done]. split; [|done].
        intros _. repeat split. by exists j, rest.
    - intros [= <-]. simpl. split; [|done]. split; [done|].
      by intros (_ & _ & j' & rest' & ? & _). }
  assert (forall P : Prop,
             (false = true /\ P) -> False) as Hno by (by intros P [? _]).
  destruct (is_Some_b (Re.search RE_TASK _)).
  2:{ intros [= <-]. simpl. split; [|done]. split; [done|].
      intros (_ & ? & _). done. }
  destruct (Py.split _ _) as [|before [|n [|? ?]]];
    try (intros [= <-]; simpl; split; [|done]; split; [done|];
         by intros (_ & ? & _)).
  destruct (tasks self !! n) as [t|];
    [|intros [= <-]; simpl; split; [|done]; split; [done|];
      by intros (_ & ? & _)].
  repeat (destruct (String.eqb before _);
          [destruct (set_status _ _ _) as [self'|]; [|discriminate];
           cbn [bind]; intros Hu;
           rewrite (update_log_record_returns_true _ _ _ _ Hu); simpl;
           split; [|done]; split; [done|]; by intros (_ & ? & _)|]).
  intros [= <-]; simpl; split; [|done]; split; [done|].
  by intros (_ & ? & _).
Qed.

Lemma filter_drops_only_unknown_jobs_witness :
  (keeps (returned (Outcome RNone Examples.tracker0
                      (Examples.record "Job  = [x -> other.bam]") []))
   = false <->
   Py.endswith (filename (Examples.record "Job  = [x -> other.bam]"))
     "task.py" = true
   /\ is_Some_b (Re.search RE_JOB
                   (msg (Examples.record "Job  = [x -> other.bam]"))) = true
   /\ exists j rest,
       Re.search RE_BRACKET (msg (Examples.record "Job  = [x -> other.bam]"))
       = Some (j, rest)
       /\ map_job2task Examples.tracker0 !! normalize j = None)
  /\ (keeps (returned (Outcome RNone Examples.tracker0
                         (Examples.record "Job  = [x -> other.bam]") []))
      = false ->
      Outcome RNone Examples.tracker0
        (Examples.record "Job  = [x -> other.bam]") []
      = Outcome RNone Examples.tracker0
          (Examples.record "Job  = [x -> other.bam]") []).
Proof.
  apply (filter_drops_only_unknown_jobs Examples.tracker0
           (Examples.record "Job  = [x -> other.bam]")).
  vm_compute. reflexivity.
Defined.

(** X6: a task record of the scheduler for a known task, of the form
    phase = task, sets the status of the task to running, completed or
    uptodate for the three known phases, leaves both counts of every
    task as they were, logs one progress event and is kept; with any
    other phase the record passes and nothing changes. *)
Theorem filter_task_record :
  forall (self : tracker) (record : log_record) (before name : string)
         (t : task_state),
    Py.endswith (filename record) "task.py" = true ->
    is_Some_b (Re.search RE_JOB (msg record)) = false ->
    is_Some_b (Re.search RE_TASK (msg record)) = true ->
    Py.split " = " (Py.strip (msg record)) = [before; name] ->
    tasks self !! name = Some t ->
    filter self record
    = match phase_status before with
      | Some s =>
          Ok (Outcome RTrue
                (Tracker (jobs self)
                   (<[name := TaskState (Some s) (ts_total t) (ts_completed t)]>
                      (tasks self))
                   (map_job2task self))
                (LogRecord (filename record) (msg record)
                   (Some (Some s)) (Some (ts_total t))
                   (Some (ts_completed t)) (Some (completed_percent t)))
                [ProgressEvent (Re.sub RE_PREFIX name) (Some s) (ts_total t)
                   (ts_completed t) (completed_percent t)])
      | None => Ok (Outcome RTrue self record [])
      end.
Proof.
  intros self record before name t Hf Hj Ht Hs Hn. unfold filter.
  rewrite Hf, Hj, Ht, Hs, Hn. cbn [negb]. unfold phase_status.
  repeat (destruct (String.eqb before _);
          [rewrite (set_status_ok _ _ _ _ Hn); cbn [bind];
           erewrite update_log_record_ok by (simpl; apply lookup_insert_eq);
           reflexivity|]).
  reflexivity.
Qed.

Lemma filter_task_record_witness :
  filter Examples.tracker0 (Examples.record "Completed Task = align")
  = match phase_status "Completed Task" with
    | Some s =>
        Ok (Outcome RTrue
              (Tracker (jobs Examples.tracker0)
                 (<["align" := TaskState (Some s) 2 1]>
                    (tasks Examples.tracker0))
                 (map_job2task Examples.tracker0))
              (LogRecord "task.py" "Completed Task = align"
                 (Some (Some s)) (Some 2%Z) (Some 1%Z)
                 (Some (completed_percent (TaskState (Some update) 2 1))))
              [ProgressEvent (Re.sub RE_PREFIX "align") (Some s) 2 1
                 (completed_percent (TaskState (Some update) 2 1))])
    | None =>
        Ok (Outcome RTrue Examples.tracker0
              (Examples.record "Completed Task = align") [])
    end.
Proof.
  apply (filter_task_record Examples.tracker0
           (Examples.record "Completed Task = align")
           "Completed Task" "align" (TaskState (Some update) 2 1));
    vm_compute; reflexivity.
Defined.

(** X7: the count of completed jobs has no cap: filtering the same
    completion record of a known job n times adds n to the count of its
    task, whatever the total of the task is. *)
Theorem filter_counts_without_cap :
  forall (n : nat) (self : tracker) (record : log_record)
         (j rest name : string) (t : task_state),
    Py.endswith (filename record) "task.py" = true ->
    is_Some_b (Re.search RE_JOB (msg record)) = true ->
    Re.search RE_BRACKET (msg record) = Some (j, rest) ->
    Py.contains "completed" (msg record) = true ->
    map_job2task self !! normalize j = Some name ->
    tasks self !! name = Some t ->
    exists self' : tracker,
      feed self (replicate n record) = Ok self'
      /\ tasks self' !! name
         = Some (TaskState (ts_status t) (ts_total t)
                   (ts_completed t + Z.of_nat n))
      /\ map_job2task self' = map_job2task self.
Proof.
  induction n as [|n IH]; intros self record j rest name t Hf Hj Hb Hc Hm Ht.
  - exists self. simpl. rewrite Z.add_0_r. by destruct t.
  - destruct (filter_completion_step self record j rest name t)
      as (o & Ho & Hafter); try done.
    cbn [replicate feed]. rewrite Ho. cbn [bind]. rewrite Hafter.
    destruct (IH (Tracker (jobs self)
                    (<[name := TaskState (ts_status t) (ts_total t)
                                 (ts_completed t + 1)]> (tasks self))
                    (map_job2task self))
                 record j rest name
                 (TaskState (ts_status t) (ts_total t) (ts_completed t + 1)))
      as (self' & Hfeed & Htasks & Hmap); try done.
    { simpl. apply lookup_insert_eq. }
    exists self'. split; [exact Hfeed|]. split; [|exact Hmap].
    rewrite Htasks. simpl. do 2 f_equal. lia.
Qed.

Lemma filter_counts_without_cap_witness :
  exists self' : tracker,
    feed Examples.tracker0
      (replicate 5 (Examples.record "Job  = [x -> out1.bam] completed"))
    = Ok self'
    /\ tasks self' !! "align"
       = Some (TaskState (ts_status (TaskState (Some update) 2 1))
                 (ts_total (TaskState (Some update) 2 1))
                 (ts_completed (TaskState (Some update) 2 1) + Z.of_nat 5))
    /\ map_job2task self' = map_job2task Examples.tracker0.
Proof.
  apply (filter_counts_without_cap 5 Examples.tracker0
           (Examples.record "Job  = [x -> out1.bam] completed")
           "out1.bam" " completed" "align" (TaskState (Some update) 2 1));
    vm_compute; reflexivity.
Defined.

(** ** The tables that the plan parser builds *)

Section MoreParserFacts.
Implicit Types (self : tracker) (st : locals).

Lemma task_step_status st line ys st' :
  parsed_status (task_status st) ->
  task_step st line = Ok (ys, st') ->
  parsed_status (task_status st')
  /\ Forall (fun c : chunk => parsed_status (snd (fst c))) ys.
Proof.
  intros Hp. unfold task_step, parsed_status.
  destruct (Py.startswith _ "Tasks which will be run");
    [intros [= <- <-]; simpl; auto|].
  destruct (Py.startswith _ "Tasks which are up-to-date");
    [intros [= <- <-]; simpl; auto|].
  destruct (Py.startswith _ "Task = ").
  - destruct (Re.match_ _ _) as [[name ?]|]; [|discriminate].
    intros [= <- <-]. simpl. split; [done|]. unfold flush.
    destruct (task_name st) as [[|? ?]|]; simpl; auto.
  - destruct (negb _); intros [= <- <-]; simpl; auto.
Qed.

Lemma split_by_task_loop_status st lines cs :
  parsed_status (task_status st) ->
  split_by_task_loop st lines = Ok cs ->
  Forall (fun c : chunk => parsed_status (snd (fst c))) cs.
Proof.
  revert st cs. induction lines as [|l ls IH]; intros st cs Hp; simpl.
  - intros [= <-]. unfold flush.
    destruct (task_name st) as [[|? ?]|]; simpl; auto.
  - destruct (task_step st l) as [[ys st']|] eqn:Hs; [|discriminate].
    cbn [bind snd fst].
    destruct (split_by_task_loop st' ls) as [cs'|] eqn:Hl; [|discriminate].
    cbn [bind]. intros [= <-].
    destruct (task_step_status _ _ _ _ Hp Hs) as [Hp' Hys].
    apply Forall_app. split; [done|]. by eapply IH.
Qed.

Lemma lookup_foldl_jobs name (js : list (string * status))
    (m : gmap string (string * string)) k p :
  foldl (fun m j => <[fst j := (name, fst j)]> m) m js !! k = Some p ->
  p = (name, k) \/ m !! k = Some p.
Proof.
  revert m. induction js as [|j js IH]; intros m; simpl; [auto|].
  intros [?|Hk]%IH; [auto|].
  destruct (decide (fst j = k)) as [<-|Hne].
  - rewrite lookup_insert_eq in Hk. left. congruence.
  - rewrite lookup_insert_ne in Hk by done. auto.
Qed.

Lemma add_task_tables_ok self (c : chunk) :
  parsed_status (snd (fst c)) -> tables_ok self -> tables_ok (add_task self c).
Proof.
  destruct c as [[name st] js]. cbn [fst snd]. intros Hst (Ht & Hm & Hj).
  destruct (Py.startswith name "(mkdir") eqn:Hmk.
  { by rewrite add_task_mkdir. }
  rewrite add_task_eq by done. split; [|split]; cbn [tasks map_job2task jobs].
  - intros n t. destruct (decide (name = n)) as [->|Hne].
    + rewrite lookup_insert_eq. intros [= <-]. simpl.
      pose proof (needing_update_le js). repeat split; try done; lia.
    + rewrite lookup_insert_ne by done. apply Ht.
  - intros j n. rewrite lookup_index_jobs. case_decide.
    + intros [= <-]. rewrite lookup_insert_eq. eauto.
    + intros Hn. destruct (Hm _ _ Hn) as [t Hk].
      destruct (decide (name = n)) as [->|Hne].
      * rewrite lookup_insert_eq. eauto.
      * rewrite lookup_insert_ne by done. eauto.
  - intros j p [->|Hp]%lookup_foldl_jobs; simpl.
    + split; [done|]. rewrite lookup_insert_eq. eauto.
    + destruct (Hj _ _ Hp) as [Hs [t Hk]]. split; [done|].
      destruct (decide (name = fst p)) as [->|Hne].
      * rewrite lookup_insert_eq. eauto.
      * rewrite lookup_insert_ne by done. eauto.
Qed.

Lemma foldl_add_task_tables_ok self (cs : list chunk) :
  Forall (fun c : chunk => parsed_status (snd (fst c))) cs ->
  tables_ok self -> tables_ok (foldl add_task self cs).
Proof.
  revert self. induction cs as [|c cs IH]; intros self Hcs Hok; simpl; [done|].
  apply Forall_cons in Hcs as [Hc Hcs].
  apply IH; [done|]. by apply add_task_tables_ok.
Qed.
End MoreParserFacts.

(** X8: every plan text parses, and in the tables then: no task of
    directory bookkeeping is recorded; every task has the status update,
    ignore or none and a completed count between 0 and its total; every
    task that the job index names is a recorded task; and every entry of
    the job table is filed under its own job name and names a recorded
    task. *)
Theorem plan_parser_tables :
  forall text : string,
  exists self : tracker,
    __init__ text = Ok self
    /\ (forall n t,
          tasks self !! n = Some t ->
          Py.startswith n "(mkdir" = false
          /\ parsed_status (ts_status t)
          /\ (0 <= ts_completed t <= ts_total t)%Z)
    /\ (forall j n,
          map_job2task self !! j = Some n -> is_Some (tasks self !! n))
    /\ (forall j p,
          jobs self !! j = Some p ->
          snd p = j /\ is_Some (tasks self !! fst p)).
Proof.
  intros text. destruct (init_total text) as [self Hi]. exists self.
  split; [done|]. unfold __init__, split_by_task in Hi.
  destruct (split_by_task_loop _ _) as [cs|] eqn:Hl; [|discriminate].
  cbn [bind] in Hi. injection Hi as <-.
  apply (foldl_add_task_tables_ok empty_tracker cs).
  - eapply split_by_task_loop_status; [|exact Hl]. by left.
  - split; [|split]; simpl.
    + intros n t Hn. by rewrite lookup_empty in Hn.
    + intros j n Hn. by rewrite lookup_empty in Hn.
    + intros j p Hn. by rewrite lookup_empty in Hn.
Qed.

(** ** LoggingFilterPipelineName *)

Section PipelineNameFacts.
Context {value : Type}.

End PipelineNameFacts.


(** ** update_params_with_commandline_options *)

Section ParamsFacts.
Implicit Types (params : gmap string Params.entry) (v : Params.value).

Lemma kept_refl v params : kept v params params.
Proof.
  intros k. destruct (params !! k) as [[a|d]|]; try done.
  exists d. auto.
Qed.

Lemma kept_trans v params1 params2 params3 :
  kept v params1 params2 -> kept v params2 params3 -> kept v params1 params3.
Proof.
  intros H1 H2 k. specialize (H1 k). specialize (H2 k).
  destruct (params1 !! k) as [[a|d]|].
  - by rewrite H1 in H2.
  - destruct H1 as (d' & Hk & Hd1 & Hv1). rewrite Hk in H2.
    destruct H2 as (d'' & Hk' & Hd2 & Hv2). exists d''. naive_solver.
  - by rewrite H1 in H2.
Qed.

(** One new style entry keeps the dictionary and, where the prefix is a
    section, files the value under the suffix. *)
Lemma set_new_style_kept parts v params x params' :
  Params.set_new_style parts v params x = Exc.Val params' ->
  kept v params params'
  /\ forall d,
      params' !! Py.join "_" (take x parts) = Some (Params.Section_ d) ->
      d !! Py.join "_" (drop x parts) = Some v.
Proof.
  unfold Params.set_new_style.
  destruct (params !! Py.join "_" (take x parts)) as [[a|d]|] eqn:Hp;
    try discriminate; intros [= <-].
  - split.
    + intros k. destruct (decide (k = Py.join "_" (take x parts))) as [->|Hne].
      * rewrite Hp, lookup_insert_eq. eexists. split; [done|].
        split; intros s.
        -- destruct (decide (s = Py.join "_" (drop x parts))) as [->|?];
             [rewrite lookup_insert_eq; eauto | by rewrite lookup_insert_ne].
        -- destruct (decide (s = Py.join "_" (drop x parts))) as [->|?];
             [by rewrite lookup_insert_eq | by rewrite lookup_insert_ne].
      * rewrite lookup_insert_ne by done. apply kept_refl.
    + rewrite lookup_insert_eq. intros d' [= <-]. apply lookup_insert_eq.
  - split; [apply kept_refl|]. intros d. by rewrite Hp.
Qed.

Lemma set_new_styles_kept parts v params xs params' :
  Params.set_new_styles parts v params xs = Exc.Val params' ->
  kept v params params'
  /\ forall x d,
      x ∈ xs ->
      params' !! Py.join "_" (take x parts) = Some (Params.Section_ d) ->
      d !! Py.join "_" (drop x parts) = Some v.
Proof.
  revert params. induction xs as [|x0 xs IH]; intros params; simpl.
  - intros [= <-]. split; [apply kept_refl|]. by intros x d ?%elem_of_nil.
  - destruct (Params.set_new_style parts v params x0) as [p1|] eqn:Hs;
      [|discriminate]. cbn [Exc.and_then]. intros Hrest.
    destruct (set_new_style_kept _ _ _ _ _ Hs) as [Hk1 Hset1].
    destruct (IH _ Hrest) as [Hk2 Hset2].
    split; [by eapply kept_trans|].
    intros x d [->|Hx]%elem_of_cons Hd; [|by eapply Hset2].
    specialize (Hk2 (Py.join "_" (take x0 parts))). rewrite Hd in Hk2.
    destruct (p1 !! Py.join "_" (take x0 parts)) as [[a|d1]|] eqn:Hp1;
      try done.
    destruct Hk2 as (d' & [= <-] & _ & Hv). by apply Hv, Hset1.
Qed.

(** The new style entries raise when a prefix names a value that is not
    a section. *)
Lemma set_new_styles_type_error parts v params xs x a :
  x ∈ xs ->
  params !! Py.join "_" (take x parts) = Some (Params.Scalar a) ->
  Params.set_new_styles parts v params xs = Exc.Err Exc.TypeError.
Proof.
  revert params. induction xs as [|x0 xs IH]; intros params Hx Hp.
  { by apply elem_of_nil in Hx. }
  simpl. destruct (Params.set_new_style parts v params x0) as [p1|e] eqn:Hs.
  - cbn [Exc.and_then].
    destruct (set_new_style_kept _ _ _ _ _ Hs) as [Hk _].
    specialize (Hk (Py.join "_" (take x parts))). rewrite Hp in Hk.
    apply elem_of_cons in Hx as [->|Hx]; [|by apply IH].
    unfold Params.set_new_style in Hs. by rewrite Hp in Hs.
  - cbn [Exc.and_then]. unfold Params.set_new_style in Hs.
    destruct (params !! Py.join "_" (take x0 parts)) as [[?|?]|];
      by inversion Hs.
Qed.


(** The options before the variables: no key is lost. *)
Lemma set_if_given_some key v params k :
  is_Some (params !! k) -> is_Some (Params.set_if_given key v params !! k).
Proof.
  intros Hk. unfold Params.set_if_given.
  destruct v; try done;
    (destruct (decide (key = k)) as [->|?];
     [rewrite lookup_insert_eq; eauto | by rewrite lookup_insert_ne]).
Qed.

Lemma insert_some key (e : Params.entry) params k :
  is_Some (params !! k) -> is_Some (<[key := e]> params !! k).
Proof.
  intros Hk. destruct (decide (key = k)) as [->|?];
    [rewrite lookup_insert_eq; eauto | by rewrite lookup_insert_ne].
Qed.

Lemma kept_some v params params' k :
  kept v params params' -> is_Some (params !! k) -> is_Some (params' !! k).
Proof.
  intros Hk [e He]. specialize (Hk k). rewrite He in Hk.
  destruct e as [a|d]; [eauto|]. destruct Hk as (d' & -> & _). eauto.
Qed.

Variable str2val : string -> Params.value.

Lemma set_variables_app params items1 items2 :
  Params.set_variables str2val params (items1 ++ items2)
  = Exc.and_then (Params.set_variables str2val params items1)
      (fun p => Params.set_variables str2val p items2).
Proof.
  revert params. induction items1 as [|i items1 IH]; intros params; simpl.
  - done.
  - destruct (Params.set_variable str2val params i); simpl; [apply IH | done].
Qed.

Lemma set_variable_some params item params' k :
  Params.set_variable str2val params item = Exc.Val params' ->
  is_Some (params !! k) -> is_Some (params' !! k).
Proof.
  unfold Params.set_variable.
  destruct (Py.split "=" item) as [|variable [|raw [|? ?]]]; try discriminate.
  intros [Hk _]%set_new_styles_kept Hs.
  eapply kept_some; [exact Hk|]. by apply insert_some.
Qed.

Lemma set_variables_some params items params' k :
  Params.set_variables str2val params items = Exc.Val params' ->
  is_Some (params !! k) -> is_Some (params' !! k).
Proof.
  revert params. induction items as [|i items IH]; intros params; simpl.
  - by intros [= <-].
  - destruct (Params.set_variable str2val params i) as [p1|] eqn:Hs;
      [|discriminate]. cbn [Exc.and_then]. intros Hrest Hk.
    eapply IH; [exact Hrest|]. by eapply set_variable_some.
Qed.
End ParamsFacts.

(** X10: when the update of the parameters returns, the last variable
    that was set on the command line, given as name=value, is in the
    dictionary under its stripped name with the converted value (the old
    style); and for every way to cut the name at an underscore into a
    prefix and a suffix, if the prefix is a section of the dictionary,
    the section holds the same value under the suffix (the new
    style). *)
Theorem update_params_sets_both_styles :
  forall (str2val : string -> Params.value)
         (params params' : gmap string Params.entry)
         (options : Params.options) (earlier : list string)
         (item variable raw : string),
    Params.variables_to_set options = earlier ++ [item] ->
    Py.split "=" item = [variable; raw] ->
    Params.update_params_with_commandline_options str2val params options
    = Exc.Val params' ->
    params' !! Py.strip variable
    = Some (Params.Scalar (str2val (Py.strip raw)))
    /\ forall (x : nat) (d : gmap string Params.value),
        1 <= x < length (Py.split "_" variable) ->
        params' !! Py.join "_" (take x (Py.split "_" variable))
        = Some (Params.Section_ d) ->
        d !! Py.join "_" (drop x (Py.split "_" variable))
        = Some (str2val (Py.strip raw)).
Proof.
  intros str2val params params' options earlier item variable raw Hv Hs.
  unfold Params.update_params_with_commandline_options.
  rewrite Hv, set_variables_app.
  destruct (Params.set_variables str2val _ earlier) as [p1|]; [|discriminate].
  cbn [Exc.and_then Params.set_variables].
  destruct (Params.set_variable str2val p1 item) as [p2|] eqn:Hi;
    [|discriminate]. cbn [Exc.and_then]. intros [= <-].
  unfold Params.set_variable in Hi. rewrite Hs in Hi.
  apply set_new_styles_kept in Hi as [Hk Hset]. split.
  - specialize (Hk (Py.strip variable)).
    by rewrite lookup_insert_eq in Hk.
  - intros x d Hx. apply Hset. apply elem_of_seq. lia.
Qed.

Lemma update_params_sets_both_styles_witness :
  (<["cluster_queue" := Params.Scalar (Params.VStr "short.q")]>
     (<["dryrun" := Params.Scalar (Params.VBool false)]>
        (<["shell_logfile" := Params.Scalar Params.VNone]>
           (<["ruffus_checksums_level" := Params.Scalar (Params.VInt 0)]>
              (<["cluster" :=
                   Params.Section_ {["queue" := Params.VStr "short.q"]}]>
                 ∅)))) : gmap string Params.entry)
  !! Py.strip "cluster_queue"
  = Some (Params.Scalar (MoreExamples.str2val (Py.strip "short.q")))
  /\ forall (x : nat) (d : gmap string Params.value),
      1 <= x < length (Py.split "_" "cluster_queue") ->
      (<["cluster_queue" := Params.Scalar (Params.VStr "short.q")]>
         (<["dryrun" := Params.Scalar (Params.VBool false)]>
            (<["shell_logfile" := Params.Scalar Params.VNone]>
               (<["ruffus_checksums_level" := Params.Scalar (Params.VInt 0)]>
                  (<["cluster" :=
                       Params.Section_ {["queue" := Params.VStr "short.q"]}]>
                     ∅)))) : gmap string Params.entry)
      !! Py.join "_" (take x (Py.split "_" "cluster_queue"))
      = Some (Params.Section_ d) ->
      d !! Py.join "_" (drop x (Py.split "_" "cluster_queue"))
      = Some (MoreExamples.str2val (Py.strip "short.q")).
Proof.
  apply (update_params_sets_both_styles MoreExamples.str2val
           MoreExamples.params0 _
           (with_variables MoreExamples.no_options ["cluster_queue=short.q"])
           [] "cluster_queue=short.q" "cluster_queue" "short.q").
  - reflexivity.
  - reflexivity.
  - vm_compute. reflexivity.
Defined.

(** X11: a variable on the command line that is not of the form
    name=value, with exactly one equals sign, makes the update raise
    ValueError, once the variables before it have been set. *)
Theorem update_params_malformed_variable :
  forall (str2val : string -> Params.value)
         (params p1 : gmap string Params.entry)
         (options : Params.options) (earlier later : list string)
         (item : string),
    Params.variables_to_set options = earlier ++ item :: later ->
    Params.update_params_with_commandline_options str2val params
      (with_variables options earlier) = Exc.Val p1 ->
    length (Py.split "=" item) <> 2 ->
    Params.update_params_with_commandline_options str2val params options
    = Exc.Err Exc.ValueError.
Proof.
  intros str2val params p1 options earlier later item Hv.
  unfold Params.update_params_with_commandline_options, with_variables.
  cbn [Params.dry_run Params.cluster_queue Params.cluster_priority
       Params.cluster_num_jobs Params.cluster_options
       Params.cluster_parallel_environment Params.without_cluster
       Params.shell_logfile Params.ruffus_checksums_level
       Params.variables_to_set].
  rewrite Hv, set_variables_app. intros -> Hlen.
  cbn [Exc.and_then Params.set_variables]. unfold Params.set_variable.
  by destruct (Py.split "=" item) as [|? [|? [|? ?]]].
Qed.

Lemma update_params_malformed_variable_witness :
  Params.update_params_with_commandline_options MoreExamples.str2val
    MoreExamples.params0
    (with_variables MoreExamples.no_options
       ["cluster_options=-l mem=4G"; "x=1"])
  = Exc.Err Exc.ValueError.
Proof.
  apply (update_params_malformed_variable MoreExamples.str2val
           MoreExamples.params0
           (<["ruffus_checksums_level" := Params.Scalar (Params.VInt 0)]>
              (<["shell_logfile" := Params.Scalar Params.VNone]>
                 (<["dryrun" := Params.Scalar (Params.VBool false)]>
                    MoreExamples.params0)))
           (with_variables MoreExamples.no_options
              ["cluster_options=-l mem=4G"; "x=1"])
           [] ["x=1"] "cluster_options=-l mem=4G").
  - reflexivity.
  - reflexivity.
  - vm_compute. discriminate.
Defined.

(** X12: a variable whose name, cut at one of its underscores, has a
    prefix that is a parameter with a plain value, not a section, makes
    the update raise TypeError, once the variables before it have been
    set. *)
Theorem update_params_prefix_is_value :
  forall (str2val : string -> Params.value)
         (params p1 : gmap string Params.entry)
         (options : Params.options) (earlier later : list string)
         (item variable raw : string) (x : nat) (a : Params.value),
    Params.variables_to_set options = earlier ++ item :: later ->
    Params.update_params_with_commandline_options str2val params
      (with_variables options earlier) = Exc.Val p1 ->
    Py.split "=" item = [variable; raw] ->
    1 <= x < length (Py.split "_" variable) ->
    p1 !! Py.join "_" (take x (Py.split "_" variable))
    = Some (Params.Scalar a) ->
    Params.update_params_with_commandline_options str2val params options
    = Exc.Err Exc.TypeError.
Proof.
  intros str2val params p1 options earlier later item variable raw x a Hv.
  unfold Params.update_params_with_commandline_options, with_variables.
  cbn [Params.dry_run Params.cluster_queue Params.cluster_priority
       Params.cluster_num_jobs Params.cluster_options
       Params.cluster_parallel_environment Params.without_cluster
       Params.shell_logfile Params.ruffus_checksums_level
       Params.variables_to_set].
  rewrite Hv, set_variables_app. intros -> Hs Hx Hp.
  cbn [Exc.and_then Params.set_variables]. unfold Params.set_variable.
  rewrite Hs.
  destruct (decide (Py.strip variable
                    = Py.join "_" (take x (Py.split "_" variable))))
    as [Heq|Hne].
  - rewrite (set_new_styles_type_error _ _ _ _ x (str2val (Py.strip raw)));
      [done | apply elem_of_seq; lia|].
    rewrite <- Heq. apply lookup_insert_eq.
  - rewrite (set_new_styles_type_error _ _ _ _ x a);
      [done | apply elem_of_seq; lia|].
    by rewrite lookup_insert_ne.
Qed.

Lemma update_params_prefix_is_value_witness :
  Params.update_params_with_commandline_options MoreExamples.str2val
    MoreExamples.params0
    (with_variables MoreExamples.no_options ["cluster_queue_manager=slurm"])
  = Exc.Err Exc.TypeError.
Proof.
  apply (update_params_prefix_is_value MoreExamples.str2val
           MoreExamples.params0
           (<["ruffus_checksums_level" := Params.Scalar (Params.VInt 0)]>
              (<["shell_logfile" := Params.Scalar Params.VNone]>
                 (<["dryrun" := Params.Scalar (Params.VBool false)]>
                    MoreExamples.params0)))
           (with_variables MoreExamples.no_options
              ["cluster_queue_manager=slurm"])
           [] [] "cluster_queue_manager=slurm" "cluster_queue_manager"
           "slurm" 2 (Params.VStr "all.q")).
  - reflexivity.
  - reflexivity.
  - reflexivity.
  - vm_compute. lia.
  - vm_compute. reflexivity.
Defined.

(** X13: the update never removes a parameter: every key of the
    dictionary before the call is a key of the dictionary that the call
    returns. *)
Theorem update_params_keeps_keys :
  forall (str2val : string -> Params.value)
         (params params' : gmap string Params.entry)
         (options : Params.options) (k : string),
    Params.update_params_with_commandline_options str2val params options
    = Exc.Val params' ->
    is_Some (params !! k) -> is_Some (params' !! k).
Proof.
  intros str2val params params' options k.
  unfold Params.update_params_with_commandline_options. intros Hu Hk.
  eapply set_variables_some; [exact Hu|].
  do 2 apply insert_some.
  destruct (Params.truthy _); [apply insert_some|];
    do 5 apply set_if_given_some; by apply insert_some.
Qed.

Lemma update_params_keeps_keys_witness :
  is_Some
    ((<["ruffus_checksums_level" := Params.Scalar (Params.VInt 0)]>
        (<["shell_logfile" := Params.Scalar Params.VNone]>
           (<["dryrun" := Params.Scalar (Params.VBool false)]>
              MoreExamples.params0)) : gmap string Params.entry)
     !! "cluster").
Proof.
  apply (update_params_keeps_keys MoreExamples.str2val MoreExamples.params0 _
           MoreExamples.no_options "cluster").
  - reflexivity.
  - vm_compute. eauto.
Defined.

(** ** write_config_files *)

Section ConfigFilesFacts.
Variable join : string -> string -> string.
Implicit Types (st : ConfigFiles.state) (fs : gmap string ConfigFiles.node).

Lemma exists_true fs path n :
  fs !! path = Some n -> ConfigFiles.exists_ fs path = true.
Proof. intros Hp. unfold ConfigFiles.exists_. rewrite Hp. by apply bool_decide_eq_true. Qed.

Lemma exists_false fs path :
  fs !! path = None -> ConfigFiles.exists_ fs path = false.
Proof.
  intros Hp. unfold ConfigFiles.exists_. rewrite Hp.
  apply bool_decide_eq_false. by intros [? ?].
Qed.

(** The loop over the paths copies from the first path that has the
    file. *)
Lemma copy_from_first_source st dest paths :
  ConfigFiles.copy_from join st dest paths
  = match first_source join (ConfigFiles.files st) dest paths with
    | Some (ConfigFiles.File c) =>
        (ConfigFiles.State (<[dest := ConfigFiles.File c]> (ConfigFiles.files st))
           (ConfigFiles.messages st ++ [ConfigFiles.Created dest]), None)
    | Some ConfigFiles.Directory => (st, Some Exc.OSError)
    | None => (st, Some Exc.ValueError)
    end.
Proof.
  induction paths as [|path paths IH]; simpl; [done|].
  destruct (ConfigFiles.files st !! join path dest) as [n|] eqn:Hs.
  - rewrite (exists_true _ _ _ Hs). unfold ConfigFiles.copyfile. rewrite Hs.
    by destruct n.
  - by rewrite (exists_false _ _ Hs).
Qed.


(** What exists stays as it is, and only the files asked for are
    written. *)
Lemma write_each_preserves paths dests st :
  (forall path n,
      ConfigFiles.files st !! path = Some n ->
      ConfigFiles.files (fst (ConfigFiles.write_each join st paths dests))
      !! path = Some n)
  /\ (forall path,
        path ∉ dests ->
        ConfigFiles.files (fst (ConfigFiles.write_each join st paths dests))
        !! path = ConfigFiles.files st !! path).
Proof.
  revert st. induction dests as [|dest dests IH]; intros st; simpl; [done|].
  destruct (ConfigFiles.files st !! dest) as [n0|] eqn:Hd.
  - rewrite (exists_true _ _ _ Hd).
    destruct (IH (ConfigFiles.State (ConfigFiles.files st)
                    (ConfigFiles.messages st ++ [ConfigFiles.Skipped dest])))
      as [IH1 IH2].
    split; [exact IH1|]. intros path Hp. apply IH2.
    intros ?. apply Hp. by right.
  - rewrite (exists_false _ _ Hd), copy_from_first_source.
    destruct (first_source join (ConfigFiles.files st) dest paths)
      as [[c|]|]; simpl; try done.
    destruct (IH (ConfigFiles.State
                    (<[dest := ConfigFiles.File c]> (ConfigFiles.files st))
                    (ConfigFiles.messages st ++ [ConfigFiles.Created dest])))
      as [IH1 IH2].
    split.
    + intros path n Hp. apply IH1. simpl.
      rewrite lookup_insert_ne; [done|]. intros ->. congruence.
    + intros path Hp. rewrite IH2 by (intros ?; apply Hp; by right).
      simpl. apply lookup_insert_ne. intros ->. apply Hp. by left.
Qed.

End ConfigFilesFacts.

(** On a tree without symbolic links the writer of the configuration
    files changes nothing that exists and writes nothing but the two
    configuration files. *)
Lemma link_free_write_keeps_other_paths :
  forall (join : string -> string -> string) (st : ConfigFiles.state)
         (pipeline_path general_path path : string),
    let after :=
      ConfigFiles.files
        (fst (ConfigFiles.write_config_files join st pipeline_path
                general_path)) in
    (forall n, ConfigFiles.files st !! path = Some n -> after !! path = Some n)
    /\ (path <> "pipeline.ini" -> path <> "conf.py" ->
        after !! path = ConfigFiles.files st !! path).
Proof.
  intros join st pipeline_path general_path path after.
  destruct (write_each_preserves join [pipeline_path; general_path]
              ConfigFiles.config_files st) as [H1 H2].
  split; [intros n; apply H1|]. intros Hp Hc. apply H2.
  unfold ConfigFiles.config_files. rewrite !elem_of_cons, elem_of_nil. tauto.
Qed.





(** ** write_config_files over any file system *)

Section WriteConfigFacts.
Context {world : Type}.
Variable join : string -> string -> string.
Variable exists_ : world -> string -> bool.
Variable copyfile : world -> string -> string -> world * option Exc.t.
Variable w0 : world.
Variables pipeline_path general_path : string.

Local Notation "'calls_ok'" :=
  (WriteConfig.calls_ok join exists_ copyfile w0 pipeline_path general_path)
  (at level 0, only parsing).

Lemma replay_snoc (w : world) l c :
  WriteConfig.replay copyfile w (l ++ [c])
  = fst (copyfile (WriteConfig.replay copyfile w l)
           (WriteConfig.src c) (WriteConfig.dest c)).
Proof. unfold WriteConfig.replay. by rewrite foldl_app. Qed.

Lemma calls_ok_snoc st c fs' msgs :
  calls_ok st ->
  WriteConfig.before c = WriteConfig.fs st ->
  exists_ (WriteConfig.fs st) (WriteConfig.dest c) = false ->
  exists_ (WriteConfig.fs st) (WriteConfig.src c) = true ->
  WriteConfig.dest c ∈ ConfigFiles.config_files ->
  (WriteConfig.src c = join pipeline_path (WriteConfig.dest c)
   \/ WriteConfig.src c = join general_path (WriteConfig.dest c)) ->
  fs' = fst (copyfile (WriteConfig.fs st) (WriteConfig.src c)
               (WriteConfig.dest c)) ->
  calls_ok (WriteConfig.State fs' msgs (WriteConfig.calls st ++ [c])).
Proof.
  intros [Hfs Hcalls] Hb Hd Hs Hin Hsrc ->.
  split; cbn [WriteConfig.fs WriteConfig.calls].
  - by rewrite replay_snoc, <- Hfs.
  - intros i c' Hi.
    destruct (decide (i < length (WriteConfig.calls st))) as [Hlt|Hge].
    + rewrite lookup_app_l in Hi by done.
      destruct (Hcalls i c' Hi) as (H1 & H2). split; [|done].
      rewrite take_app_le by lia. exact H1.
    + rewrite lookup_app_r in Hi by lia.
      apply list_lookup_singleton_Some in Hi as [Hi <-].
      assert (i = length (WriteConfig.calls st)) as -> by lia.
      split; [|by rewrite Hb].
      rewrite take_app_length. by rewrite Hb.
Qed.

Lemma calls_ok_messages st msgs :
  calls_ok st ->
  calls_ok (WriteConfig.State (WriteConfig.fs st) msgs (WriteConfig.calls st)).
Proof. by intros [? ?]. Qed.

(** The inner loop makes at most one call, for its destination. *)
Lemma copy_from_calls st dest paths :
  calls_ok st ->
  exists_ (WriteConfig.fs st) dest = false ->
  dest ∈ ConfigFiles.config_files ->
  (forall p, p ∈ paths -> p = pipeline_path \/ p = general_path) ->
  let st' := fst (WriteConfig.copy_from join exists_ copyfile st dest paths) in
  calls_ok st'
  /\ exists new,
       WriteConfig.calls st' = WriteConfig.calls st ++ new
       /\ WriteConfig.dest <$> new `sublist_of` [dest].
Proof.
  intros Hok Hd Hin. induction paths as [|p paths IH]; intros Hp; cbn.
  { split; [done|]. exists []. rewrite app_nil_r. split; [done|].
    apply sublist_nil_l. }
  destruct (exists_ (WriteConfig.fs st) (join p dest)) eqn:Hs.
  - assert (calls_ok_new : forall fs' msgs,
              fs' = fst (copyfile (WriteConfig.fs st) (join p dest) dest) ->
              calls_ok
                (WriteConfig.State fs' msgs
                   (WriteConfig.calls st
                    ++ [WriteConfig.Call (WriteConfig.fs st) (join p dest)
                          dest]))).
    { intros fs' msgs Hfs'.
      apply (calls_ok_snoc st
               (WriteConfig.Call (WriteConfig.fs st) (join p dest) dest));
        try done; cbn.
      destruct (Hp p) as [->| ->]; [by left|by left|by right]. }
    destruct (copyfile (WriteConfig.fs st) (join p dest) dest) as [fs' [e|]]
      eqn:Hc; cbn.
    all: split; [by apply calls_ok_new|].
    all: eexists [_]; split; [done|]; by cbn.
  - apply IH. intros q Hq. apply Hp. by right.
Qed.

(** The outer loop makes at most one call for each destination, in
    their order. *)
Lemma write_each_calls paths dests st :
  calls_ok st ->
  (forall d, d ∈ dests -> d ∈ ConfigFiles.config_files) ->
  (forall p, p ∈ paths -> p = pipeline_path \/ p = general_path) ->
  let st' :=
    fst (WriteConfig.write_each join exists_ copyfile st paths dests) in
  calls_ok st'
  /\ exists new,
       WriteConfig.calls st' = WriteConfig.calls st ++ new
       /\ WriteConfig.dest <$> new `sublist_of` dests.
Proof.
  intros Hok Hd Hp. revert st Hok.
  induction dests as [|d dests IH]; intros st Hok; cbn.
  { split; [done|]. exists []. by rewrite app_nil_r. }
  assert (Hd' : forall d0, d0 ∈ dests -> d0 ∈ ConfigFiles.config_files).
  { intros d0 H0. apply Hd. by right. }
  destruct (exists_ (WriteConfig.fs st) d) eqn:He.
  - destruct (IH Hd' _ (calls_ok_messages st
                          (WriteConfig.messages st ++ [ConfigFiles.Skipped d])
                          Hok)) as (Hok' & new & Hnew & Hsub).
    split; [done|]. exists new. split; [done|]. by apply sublist_cons.
  - destruct (copy_from_calls st d paths Hok He) as (Hok1 & new1 & Hn1 & Hs1);
      [apply Hd; by left|done|].
    destruct (WriteConfig.copy_from join exists_ copyfile st d paths)
      as [st1 [e|]]; cbn in *.
    + split; [done|]. exists new1. split; [done|].
      apply (sublist_inserts_r dests) in Hs1. exact Hs1.
    + destruct (IH Hd' st1 Hok1) as (Hok2 & new2 & Hn2 & Hs2).
      split; [done|]. exists (new1 ++ new2).
      split; [by rewrite Hn2, Hn1, app_assoc|].
      rewrite fmap_app. by apply (sublist_app _ [d] _ dests).
Qed.
End WriteConfigFacts.

(** With the files a map from paths and no symbolic links, the function
    over any file system is the one of [ConfigFiles]. *)
Lemma copy_from_link_free join st cs dest paths :
  let r := WriteConfig.copy_from join ConfigFiles.exists_
             WriteConfig.link_free_copyfile
             (WriteConfig.State (ConfigFiles.files st) (ConfigFiles.messages st)
                cs) dest paths in
  let r' := ConfigFiles.copy_from join st dest paths in
  WriteConfig.fs (fst r) = ConfigFiles.files (fst r')
  /\ WriteConfig.messages (fst r) = ConfigFiles.messages (fst r')
  /\ snd r = snd r'.
Proof.
  induction paths as [|p paths IH]; cbn; [done|].
  destruct (ConfigFiles.exists_ (ConfigFiles.files st) (join p dest)); [|done].
  unfold WriteConfig.link_free_copyfile.
  by destruct (ConfigFiles.copyfile (ConfigFiles.files st) (join p dest) dest).
Qed.

Lemma write_each_link_free join paths dests :
  forall st cs,
    let r := WriteConfig.write_each join ConfigFiles.exists_
               WriteConfig.link_free_copyfile
               (WriteConfig.State (ConfigFiles.files st)
                  (ConfigFiles.messages st) cs) paths dests in
    let r' := ConfigFiles.write_each join st paths dests in
    WriteConfig.fs (fst r) = ConfigFiles.files (fst r')
    /\ WriteConfig.messages (fst r) = ConfigFiles.messages (fst r')
    /\ snd r = snd r'.
Proof.
  induction dests as [|d dests IH]; intros st cs; cbn; [done|].
  destruct (ConfigFiles.exists_ (ConfigFiles.files st) d).
  - apply (IH (ConfigFiles.State (ConfigFiles.files st)
                 (ConfigFiles.messages st ++ [ConfigFiles.Skipped d]))).
  - destruct (copy_from_link_free join st cs d paths) as (H1 & H2 & H3).
    destruct (WriteConfig.copy_from _ _ _ _ d paths) as [[fs1 m1 c1] e1].
    destruct (ConfigFiles.copy_from join st d paths) as [[fs2 m2] e2].
    cbn in H1, H2, H3. subst fs2 m2 e2.
    destruct e1 as [e|]; [done|].
    apply (IH (ConfigFiles.State fs1 m1)).
Qed.

(** X14: the writer of the configuration files changes the files by
    nothing but calls of shutil.copyfile, at most one for each of
    pipeline.ini and conf.py and in this order, and every call is
    guarded: it is made on the files as the calls before it left them,
    with a destination for which os.path.exists was false and a source
    for which it was true on these files, the source being the name of
    the destination joined to pipeline_path or to general_path.  This
    whatever os.path.exists and shutil.copyfile do, and whether the
    function returns or raises. *)
Theorem write_config_files_copies_only_to_missing :
  forall (world : Type) (join : string -> string -> string)
         (exists_ : world -> string -> bool)
         (copyfile : world -> string -> string -> world * option Exc.t)
         (w : world) (pipeline_path general_path : string),
    let r := WriteConfig.write_config_files join exists_ copyfile
               (WriteConfig.State w [] []) pipeline_path general_path in
    let made := WriteConfig.calls (fst r) in
    WriteConfig.fs (fst r) = WriteConfig.replay copyfile w made
    /\ WriteConfig.dest <$> made `sublist_of` ConfigFiles.config_files
    /\ forall i c,
         made !! i = Some c ->
         WriteConfig.before c = WriteConfig.replay copyfile w (take i made)
         /\ exists_ (WriteConfig.before c) (WriteConfig.dest c) = false
         /\ exists_ (WriteConfig.before c) (WriteConfig.src c) = true
         /\ (WriteConfig.src c = join pipeline_path (WriteConfig.dest c)
             \/ WriteConfig.src c = join general_path (WriteConfig.dest c)).
Proof.
  intros world join exists_ copyfile w pipeline_path general_path.
  unfold WriteConfig.write_config_files. cbn zeta.
  destruct (write_each_calls join exists_ copyfile w pipeline_path
              general_path [pipeline_path; general_path]
              ConfigFiles.config_files (WriteConfig.State w [] []))
    as ([Hfs Hcalls] & new & Hnew & Hsub).
  - split; [done|]. intros i c Hi. cbn in Hi. by rewrite lookup_nil in Hi.
  - done.
  - intros p. rewrite !elem_of_cons, elem_of_nil. tauto.
  - cbn [WriteConfig.calls app] in Hnew. split; [exact Hfs|].
    split; [by rewrite Hnew|].
    intros i c Hi. destruct (Hcalls i c Hi) as (H1 & H2 & H3 & _ & H5).
    done.
Qed.

(** ** clean *)

Section CleanFacts.
Context {world stat : Type}.
Variable zap_file :
  world -> string -> Exc.res (option stat * option string) * world.
Variable open_file : world -> option Exc.t.
Variable asctime : world -> string.
Variable show_fields : stat -> string.

Lemma clean_loop_dry_run st files :
  Clean.clean_loop zap_file asctime show_fields true st files
  = (Clean.State (Clean.disk st)
       (Clean.Counter (Clean.c_files (Clean.count st)
                       + Z.of_nat (length files))
          (Clean.c_zapped (Clean.count st)) (Clean.c_links (Clean.count st)))
       (Clean.written st),
     None).
Proof.
  revert st. induction files as [|fn files IH]; intros st.
  - simpl. rewrite Z.add_0_r. by destruct st as [? [? ? ?] ?].
  - cbn [Clean.clean_loop]. unfold Clean.clean_one at 1. cbn iota beta zeta.
    rewrite IH. simpl. do 3 f_equal. lia.
Qed.

(** What one turn of the loop keeps when it does zap: the counts are
    ordered, one line is written for each file zapped, and the file is
    counted, also when zapping it raises. *)
Lemma clean_one_counts (base : Z) st fn :
  (0 <= Clean.c_links (Clean.count st) <= Clean.c_zapped (Clean.count st))%Z ->
  (Clean.c_zapped (Clean.count st) <= Clean.c_files (Clean.count st))%Z ->
  Z.of_nat (length (Clean.written st))
  = (Clean.c_zapped (Clean.count st) + base)%Z ->
  let r := Clean.clean_one zap_file asctime show_fields false st fn in
  (0 <= Clean.c_links (Clean.count (fst r))
   <= Clean.c_zapped (Clean.count (fst r)))%Z
  /\ (Clean.c_zapped (Clean.count (fst r))
      <= Clean.c_files (Clean.count (fst r)))%Z
  /\ Z.of_nat (length (Clean.written (fst r)))
     = (Clean.c_zapped (Clean.count (fst r)) + base)%Z
  /\ Clean.c_files (Clean.count (fst r))
     = (Clean.c_files (Clean.count st) + 1)%Z
  /\ forall x, snd r = Some x ->
               fst (zap_file (Clean.disk st) fn) = Exc.Err x.
Proof.
  intros Hl Hz Hw. unfold Clean.clean_one. cbn zeta.
  destruct (zap_file (Clean.disk st) fn) as [[[[status|] [target|]]|x] w'];
    cbn [fst snd Clean.count Clean.written Clean.c_files Clean.c_zapped
         Clean.c_links];
    rewrite ?length_app; cbn [length];
    repeat split; try lia; try done; by intros ? [= <-].
Qed.

Lemma clean_loop_counts (base : Z) files :
  forall st,
    (0 <= Clean.c_links (Clean.count st) <= Clean.c_zapped (Clean.count st))%Z ->
    (Clean.c_zapped (Clean.count st) <= Clean.c_files (Clean.count st))%Z ->
    Z.of_nat (length (Clean.written st))
    = (Clean.c_zapped (Clean.count st) + base)%Z ->
    let r := Clean.clean_loop zap_file asctime show_fields false st files in
    (0 <= Clean.c_links (Clean.count (fst r))
     <= Clean.c_zapped (Clean.count (fst r)))%Z
    /\ (Clean.c_zapped (Clean.count (fst r))
        <= Clean.c_files (Clean.count (fst r)))%Z
    /\ Z.of_nat (length (Clean.written (fst r)))
       = (Clean.c_zapped (Clean.count (fst r)) + base)%Z
    /\ match snd r with
       | None =>
           Clean.c_files (Clean.count (fst r))
           = (Clean.c_files (Clean.count st) + Z.of_nat (length files))%Z
       | Some x =>
           exists before fn after w',
             files = before ++ fn :: after
             /\ fst (zap_file w' fn) = Exc.Err x
             /\ Clean.c_files (Clean.count (fst r))
                = (Clean.c_files (Clean.count st)
                   + Z.of_nat (length before) + 1)%Z
       end.
Proof.
  induction files as [|fn files IH]; intros st Hl Hz Hw; cbn zeta.
  - cbn. split; [done|]. split; [done|]. split; [done|]. lia.
  - cbn [Clean.clean_loop].
    destruct (clean_one_counts base st fn Hl Hz Hw) as (H1 & H2 & H3 & H4 & H5).
    destruct (Clean.clean_one zap_file asctime show_fields false st fn)
      as [st1 [x|]]; cbn [fst snd] in *.
    + repeat split; try lia; try done.
      exists [], fn, files, (Clean.disk st). cbn [length app].
      split; [done|]. split; [by apply H5|]. lia.
    + destruct (IH st1 H1 H2 H3) as (I1 & I2 & I3 & I4).
      repeat split; try lia; try done.
      destruct (snd (Clean.clean_loop zap_file asctime show_fields false st1
                       files)) as [x|].
      * destruct I4 as (before & fn' & after & w' & -> & Hx & Hc).
        exists (fn :: before), fn', after, w'. cbn [length].
        split; [done|]. split; [exact Hx|]. lia.
      * cbn [length]. lia.
Qed.
End CleanFacts.

(** X17: in a dry run the cleaner zaps nothing and writes nothing, counts
    the files, and then raises UnboundLocalError instead of returning
    the count: its log file was never opened, and it is closed all the
    same. *)
Theorem clean_dry_run_raises :
  forall (world stat : Type)
         (zap_file :
            world -> string -> Exc.res (option stat * option string) * world)
         (open_file : world -> option Exc.t)
         (asctime : world -> string) (show_fields : stat -> string)
         (logfile_exists : bool) (w : world) (files : list string),
    Clean.clean zap_file open_file asctime show_fields true logfile_exists
      w files
    = (Clean.State w (Clean.Counter (Z.of_nat (length files)) 0 0) [],
       Exc.Err Exc.UnboundLocalError).
Proof.
  intros. unfold Clean.clean. cbn zeta iota. by rewrite clean_loop_dry_run.
Qed.

(** X18: outside a dry run the cleaner returns its count unless opening
    the log file raises or zapping a file does, for neither of which it
    has a handler.  The zapped files are at most as many as the files
    counted and the links at most as many as the zapped files, whatever
    happens.  When the cleaner returns, the files counted are all the
    files given, and it has written one line for each zapped file, after
    a header line when the log file did not exist.  When zapping a file
    raises, the exception goes on to the caller; the files before it
    have been dealt with and the file itself is counted. *)
Theorem clean_counts :
  forall (world stat : Type)
         (zap_file :
            world -> string -> Exc.res (option stat * option string) * world)
         (open_file : world -> option Exc.t)
         (asctime : world -> string) (show_fields : stat -> string)
         (logfile_exists : bool) (w : world) (files : list string),
    let r := Clean.clean zap_file open_file asctime show_fields false
               logfile_exists w files in
    let c := Clean.count (fst r) in
    let header := (if logfile_exists then 0 else 1)%Z in
    (0 <= Clean.c_links c <= Clean.c_zapped c)%Z
    /\ (Clean.c_zapped c <= Clean.c_files c)%Z
    /\ match snd r with
       | Exc.Val c' =>
           c' = c
           /\ open_file w = None
           /\ Clean.c_files c = Z.of_nat (length files)
           /\ Z.of_nat (length (Clean.written (fst r)))
              = (Clean.c_zapped c + header)%Z
       | Exc.Err x =>
           (open_file w = Some x /\ fst r = Clean.State w (Clean.Counter 0 0 0) [])
           \/ (open_file w = None
               /\ exists before fn after w',
                    files = before ++ fn :: after
                    /\ fst (zap_file w' fn) = Exc.Err x
                    /\ Clean.c_files c = (Z.of_nat (length before) + 1)%Z
                    /\ Z.of_nat (length (Clean.written (fst r)))
                       = (Clean.c_zapped c + header)%Z)
       end.
Proof.
  intros world stat zap_file open_file asctime show_fields logfile_exists w
    files.
  unfold Clean.clean. cbn zeta iota.
  destruct (open_file w) as [x|] eqn:Ho.
  { cbn. repeat split; try lia. by left. }
  destruct (clean_loop_counts zap_file asctime show_fields
              (if logfile_exists then 0 else 1)%Z files
              (Clean.State w (Clean.Counter 0 0 0)
                 (if logfile_exists then [] else [Clean.HEADER])))
    as (H1 & H2 & H3 & H4);
    [simpl; lia | simpl; lia | by destruct logfile_exists |].
  destruct (Clean.clean_loop zap_file asctime show_fields false _ files)
    as [st [x|]]; cbn [fst snd] in *.
  - split; [exact H1|]. split; [exact H2|]. right. split; [done|].
    destruct H4 as (before & fn & after & w' & -> & Hx & Hc).
    exists before, fn, after, w'.
    split; [done|]. split; [exact Hx|]. split; [|exact H3].
    simpl in Hc. lia.
  - split; [exact H1|]. split; [exact H2|].
    split; [done|]. split; [done|]. split; [|exact H3].
    simpl in H4. lia.
Qed.

(** ** peek_parameters *)

Section PeekFacts.

Implicit Types (e : Peek.env) (dump d : gmap string Peek.jvalue).

(** Once the loop has raised, the rest of it does nothing. *)
Lemma foldl_update_one_err e workingdir x items :
  foldl (Peek.update_one e workingdir) (Exc.Err x) items = Exc.Err x.
Proof. induction items as [|kv items IH]; [done|]. simpl. exact IH. Qed.

(** What the loop over a snapshot of the items leaves under a key. *)
Lemma update_loop_lookup e workingdir items :
  NoDup items.*1 ->
  forall d0 d',
    foldl (Peek.update_one e workingdir) (Exc.Val d0) items = Exc.Val d' ->
    forall k,
      d' !! k =
      match (list_to_map items : gmap string Peek.jvalue) !! k with
      | Some (Peek.JStr s) =>
          if Py.startswith k "interface"
          then Some (Peek.JStr (Peek.join e workingdir s)) else d0 !! k
      | _ => d0 !! k
      end.
Proof.
  induction items as [|[k0 v0] items IH]; intros Hnd d0 d' Hrun k.
  { simpl in Hrun. injection Hrun as <-. simpl. by rewrite lookup_empty. }
  apply NoDup_cons in Hnd as [Hk0 Hnd].
  assert (Hnone : (list_to_map items : gmap string Peek.jvalue) !! k0 = None)
    by by apply not_elem_of_list_to_map_1.
  cbn [foldl] in Hrun. unfold Peek.update_one at 2 in Hrun.
  cbn [Exc.and_then fst snd] in Hrun.
  cbn [list_to_map foldr uncurry]. 
  destruct (Py.startswith k0 "interface") eqn:Hi.
  - destruct v0 as [s|n].
    + rewrite (IH Hnd _ _ Hrun k).
      destruct (decide (k = k0)) as [->|Hne].
      * by rewrite Hnone, !lookup_insert_eq, Hi.
      * by rewrite !lookup_insert_ne.
    + by rewrite foldl_update_one_err in Hrun.
  - rewrite (IH Hnd _ _ Hrun k).
    destruct (decide (k = k0)) as [->|Hne].
    + rewrite Hnone, lookup_insert_eq, Hi. by destruct v0.
    + by rewrite lookup_insert_ne.
Qed.

(** The loop of the function itself. *)
Lemma update_interface_loop_lookup e workingdir dump d' :
  Peek.update_interface_loop e workingdir dump = Exc.Val d' ->
  forall k,
    d' !! k =
    match dump !! k with
    | Some (Peek.JStr s) =>
        if Py.startswith k "interface"
        then Some (Peek.JStr (Peek.join e workingdir s))
        else Some (Peek.JStr s)
    | other => other
    end.
Proof.
  intros Hrun k. unfold Peek.update_interface_loop in Hrun.
  rewrite (update_loop_lookup e workingdir _ (NoDup_fst_map_to_list dump)
             _ _ Hrun k).
  rewrite list_to_map_to_list.
  by destruct (dump !! k) as [[s|n]|] eqn:Hk.
Qed.

(** A dictionary built from the items that pass a test of the key. *)
Lemma list_to_map_filter_lookup (f : string -> bool)
    (items : list (string * Peek.jvalue)) (k : string) :
  NoDup items.*1 ->
  (list_to_map (List.filter (fun kv => f (fst kv)) items)
     : gmap string Peek.jvalue) !! k
  = if f k then (list_to_map items : gmap string Peek.jvalue) !! k else None.
Proof.
  induction items as [|[k0 v0] items IH]; intros Hnd.
  { simpl. rewrite lookup_empty. by destruct (f k). }
  apply NoDup_cons in Hnd as [Hk0 Hnd].
  assert (Hnone : (list_to_map items : gmap string Peek.jvalue) !! k0 = None)
    by by apply not_elem_of_list_to_map_1.
  cbn [List.filter fst]. destruct (f k0) eqn:Hf.
  - cbn [list_to_map foldr uncurry].
    destruct (decide (k = k0)) as [->|Hne].
    + by rewrite !lookup_insert_eq, Hf.
    + rewrite !lookup_insert_ne by done. by apply IH.
  - rewrite (IH Hnd). cbn [list_to_map foldr uncurry].
    destruct (decide (k = k0)) as [->|Hne].
    + by rewrite Hf.
    + by rewrite lookup_insert_ne.
Qed.

Lemma only_interface_lookup dump k :
  Peek.only_interface dump !! k
  = if Py.startswith k "interface" then dump !! k else None.
Proof.
  unfold Peek.only_interface.
  rewrite (list_to_map_filter_lookup (fun k => Py.startswith k "interface"))
    by apply NoDup_fst_map_to_list.
  by rewrite list_to_map_to_list.
Qed.

Lemma add_prefix_kmap prefix dump :
  Peek.add_prefix prefix dump = kmap (String.app prefix) dump.
Proof. reflexivity. Qed.

(** The dictionary before the prefix is added. *)
Lemma finish_lookup_no_prefix e workingdir ui ri dump d :
  Peek.finish e workingdir ui ri None dump = Exc.Val d ->
  forall k,
    d !! k = dump !! k ≫= peeked (Peek.join e workingdir) ui ri k.
Proof.
  unfold Peek.finish. intros Hrun k.
  destruct ui.
  - destruct (Peek.update_interface_loop e workingdir dump) as [d1|x] eqn:Hl;
      [|done].
    cbn [Exc.and_then] in Hrun. injection Hrun as <-.
    pose proof (update_interface_loop_lookup _ _ _ _ Hl k) as Hk.
    unfold peeked.
    destruct ri.
    + rewrite only_interface_lookup, Hk.
      destruct (dump !! k) as [[s|n]|]; simpl;
        by destruct (Py.startswith k "interface").
    + rewrite Hk.
      destruct (dump !! k) as [[s|n]|]; simpl; try done;
        by destruct (Py.startswith k "interface").
  - cbn [Exc.and_then] in Hrun. injection Hrun as <-.
    unfold peeked. destruct ri.
    + rewrite only_interface_lookup.
      destruct (dump !! k); simpl; by destruct (Py.startswith k "interface").
    + destruct (dump !! k); simpl; by destruct (Py.startswith k "interface").
Qed.

(** The end of the function adds the prefix to what it would return
    without one. *)
Lemma finish_prefix e workingdir ui ri prefix dump :
  Peek.finish e workingdir ui ri prefix dump
  = perform d <- Peek.finish e workingdir ui ri None dump in
    Exc.Val (match prefix with
             | Some p => Peek.add_prefix p d
             | None => d
             end).
Proof.
  unfold Peek.finish.
  by destruct (if ui then Peek.update_interface_loop e workingdir dump
               else Exc.Val dump).
Qed.

Lemma finish_entries e workingdir ui ri prefix dump d :
  Peek.finish e workingdir ui ri prefix dump = Exc.Val d ->
  forall j v,
    d !! j = Some v <->
    exists k v0,
      j = default "" prefix +:+ k /\ dump !! k = Some v0
      /\ peeked (Peek.join e workingdir) ui ri k v0 = Some v.
Proof.
  rewrite finish_prefix.
  destruct (Peek.finish e workingdir ui ri None dump) as [d1|x] eqn:Hd1;
    [|done].
  cbn [Exc.and_then]. intros [= <-] j v.
  pose proof (finish_lookup_no_prefix _ _ _ _ _ _ Hd1) as Hk.
  destruct prefix as [p|]; cbn [default].
  - rewrite add_prefix_kmap, lookup_kmap_Some by apply _. split.
    + intros (k & -> & Hv). rewrite Hk in Hv.
      apply bind_Some in Hv as (v0 & ? & ?). by exists k, v0.
    + intros (k & v0 & -> & H0 & Hv). exists k. split; [done|].
      rewrite Hk, H0. exact Hv.
  - rewrite Hk. split.
    + intros Hv. apply bind_Some in Hv as (v0 & ? & ?).
      exists j, v0. by rewrite append_nil.
    + intros (k & v0 & -> & H0 & Hv). rewrite append_nil, H0. exact Hv.
Qed.

(** The loop raises on an entry of the interface that is no string. *)
Lemma update_loop_type_error e workingdir k n items :
  Py.startswith k "interface" = true ->
  (k, Peek.JOther n) ∈ items ->
  forall acc,
    (forall x, acc = Exc.Err x -> x = Exc.TypeError) ->
    foldl (Peek.update_one e workingdir) acc items = Exc.Err Exc.TypeError.
Proof.
  intros Hi. induction items as [|kv items IH]; intros Hin acc Hacc.
  { by apply elem_of_nil in Hin. }
  cbn [foldl]. destruct acc as [d0|x].
  - apply elem_of_cons in Hin as [<-|Hin].
    + unfold Peek.update_one at 2. cbn [Exc.and_then fst snd].
      rewrite Hi. apply foldl_update_one_err.
    + apply IH; [done|]. unfold Peek.update_one. cbn [Exc.and_then].
      intros x. destruct (Py.startswith kv.1 "interface"); [|done].
      destruct kv.2; [done|]. by intros [= <-].
  - rewrite (Hacc x eq_refl). cbn. apply foldl_update_one_err.
Qed.

Lemma finish_type_error e workingdir ri prefix dump k n :
  Py.startswith k "interface" = true ->
  dump !! k = Some (Peek.JOther n) ->
  Peek.finish e workingdir true ri prefix dump = Exc.Err Exc.TypeError.
Proof.
  intros Hi Hk. unfold Peek.finish, Peek.update_interface_loop.
  rewrite (update_loop_type_error e workingdir k n); [done|done| |done].
  by apply elem_of_map_to_list.
Qed.

(** What the function does from the start of the child on. *)
Lemma from_child_spawned e cwd script ui ri prefix :
  Peek.spawned (Peek.from_child e cwd script ui ri prefix)
  = [("python " +:+ script +:+ " -f -v 0 dump", cwd)].
Proof.
  unfold Peek.from_child.
  by destruct (Peek.popen e ("python " +:+ script +:+ " -f -v 0 dump") cwd).
Qed.

Lemma from_child_result e cwd script ui ri prefix :
  Peek.result (Peek.from_child e cwd script ui ri prefix)
  = let '(returncode, stdout) :=
      Peek.popen e ("python " +:+ script +:+ " -f -v 0 dump") cwd in
    if negb (returncode =? 0)%Z then Exc.Err Exc.OSError
    else
      perform text <- Peek.decode e stdout in
      match List.filter (fun x => Py.startswith x "{") (Py.splitlines text)
      with
      | [] => Exc.Err Exc.IndexError
      | [line] =>
          match Peek.json_loads e line with
          | None => Exc.Err Exc.JSONDecodeError
          | Some dump => Peek.finish e cwd ui ri prefix dump
          end
      | _ :: _ :: _ => Exc.Err Exc.ValueError
      end.
Proof.
  unfold Peek.from_child.
  destruct (Peek.popen e ("python " +:+ script +:+ " -f -v 0 dump") cwd)
    as [returncode stdout].
  cbn [Peek.result]. destruct (negb (returncode =? 0)%Z); [done|].
  destruct (Peek.decode e stdout) as [text|x]; [|done].
  cbn [Exc.and_then].
  by destruct (List.filter _ (Py.splitlines text)) as [|line [|line' lines]].
Qed.

(** The function ends before it starts a child, with the empty
    dictionary or an exception, or goes on with a script and a working
    directory that exist. *)
Lemma peek_cases e workingdir pipeline on_error_raise prefix ui ri :
  let o := Peek.peek_parameters e workingdir pipeline on_error_raise prefix
             ui ri in
  (Peek.spawned o = []
   /\ (Peek.result o = Exc.Val ∅
       \/ exists x,
            Peek.result o = Exc.Err x
            /\ (on_error_raise = Some false ->
                x = Exc.KeyError
                \/ exists script,
                     ("config" ∈ Peek.argv e \/ "check" ∈ Peek.argv e
                      \/ "clone" ∈ Peek.argv e)
                     /\ Peek.exists_ e script = true
                     /\ Peek.snip e script ".py" = Exc.Err x)))
  \/ (exists cwd script,
        o = Peek.from_child e cwd script ui ri prefix
        /\ Peek.exists_ e script = true /\ Peek.exists_ e cwd = true
        /\ ("--help" ∉ Peek.argv e) /\ ("-h" ∉ Peek.argv e)).
Proof.
  unfold Peek.peek_parameters.
  destruct on_error_raise as [b|].
  2: destruct (Peek.default_on_error_raise e) as [b|x];
       [|left; cbn; split; [done|]; right; exists x; by split].
  all: destruct (Peek.mem "--help" (Peek.argv e) || Peek.mem "-h" (Peek.argv e))
         eqn:Hhelp; [left; cbn; auto|].
  all: apply orb_false_iff in Hhelp as [Hh1 Hh2];
       apply bool_decide_eq_false in Hh1, Hh2.
  all: destruct (Peek.pipelinedir e) as [dir|];
         [|left; cbn; split; [done|]; right; exists Exc.KeyError;
           split; [done|]; by left].
  all: destruct (if String.eqb dir "" then _ else _) as [dirname_|x] eqn:Hdir.
  2,4: left; cbn; split; [done|]; right; exists x; split; [done|];
         intros _; left; revert Hdir;
         destruct (String.eqb dir ""); [done|];
         destruct (Peek.exists_ e dir); [done|];
         destruct (Peek.caller_file e); [done|]; by intros [= <-].
  all: cbn zeta;
       destruct (Peek.exists_ e (Peek.join e dirname_ pipeline)) eqn:Hs;
       cbn [negb].
  2,4: left; destruct b; cbn; (split; [done|]);
         [right; exists Exc.ValueError; by split|by left].
  all: set (wd := if String.eqb workingdir "" then Peek.abspath_dot e
                  else workingdir).
  all: destruct (Peek.mem "config" (Peek.argv e)
                 || Peek.mem "check" (Peek.argv e)
                 || Peek.mem "clone" (Peek.argv e) && String.eqb wd "?!")
         eqn:Hcond; cbv iota;
         [destruct (Peek.snip e (Peek.join e dirname_ pipeline) ".py")
            as [root|x] eqn:Hsnip; cbn [Exc.and_then]|].
  1,3,4,6:
    match goal with
    | |- context [Peek.from_child _ ?c _ _ _ _] => set (cwd := c)
    end;
    destruct (Peek.exists_ e cwd) eqn:Hc; cbn [negb];
      [right; by exists cwd, (Peek.join e dirname_ pipeline)
      |left; destruct b; cbn; (split; [done|]);
         [right; exists Exc.ValueError; by split|by left]].
  all: left; cbn; split; [done|]; right; exists x; split; [done|];
         intros _; right; exists (Peek.join e dirname_ pipeline);
         split; [|by split].
  all: unfold Peek.mem in Hcond;
       apply orb_true_iff in Hcond as [Hcond|Hcond];
         [apply orb_true_iff in Hcond as [Hcond|Hcond];
            [left|right; left]
         |apply andb_true_iff in Hcond as [Hcond _]; right; right];
       by apply bool_decide_eq_true in Hcond.
Qed.

(** A call that started a child went through the part from the child
    on. *)
Lemma peek_spawned_inv e workingdir pipeline on_error_raise prefix ui ri
    statement cwd r :
  Peek.peek_parameters e workingdir pipeline on_error_raise prefix ui ri
  = Peek.Outcome [(statement, cwd)] r ->
  exists script,
    statement = "python " +:+ script +:+ " -f -v 0 dump"
    /\ r = Peek.result (Peek.from_child e cwd script ui ri prefix).
Proof.
  intros Ho.
  destruct (peek_cases e workingdir pipeline on_error_raise prefix ui ri)
    as [[Hs _]|(cwd' & script & Hfc & _)].
  { by rewrite Ho in Hs. }
  rewrite Ho in Hfc.
  pose proof (from_child_spawned e cwd' script ui ri prefix) as Hsp.
  rewrite <- Hfc in Hsp. cbn in Hsp. injection Hsp as -> ->.
  exists script. split; [done|]. by rewrite <- Hfc.
Qed.

End PeekFacts.

(** X19: the dictionary that peek_parameters returns after it ran the
    child holds, for each entry of the one configuration that the child
    printed, the entry under the key with the prefix, if a prefix is
    given: an entry of the interface with the working directory of the
    child joined to its value if update_interface is set, another entry
    as it is unless restrict_interface is set; and it holds nothing
    else. *)
Theorem peek_parameters_entries :
  forall (e : Peek.env) (workingdir pipeline : string)
         (on_error_raise : option bool) (prefix : option string)
         (update_interface restrict_interface : bool)
         (statement cwd : string) (d : gmap string Peek.jvalue),
    Peek.peek_parameters e workingdir pipeline on_error_raise prefix
      update_interface restrict_interface
    = Peek.Outcome [(statement, cwd)] (Exc.Val d) ->
    exists text line dump,
      Peek.decode e (snd (Peek.popen e statement cwd)) = Exc.Val text
      /\ List.filter (fun x => Py.startswith x "{") (Py.splitlines text)
         = [line]
      /\ Peek.json_loads e line = Some dump
      /\ forall j v,
           d !! j = Some v <->
           exists k v0,
             j = default "" prefix +:+ k /\ dump !! k = Some v0
             /\ peeked (Peek.join e cwd) update_interface
                  restrict_interface k v0 = Some v.
Proof.
  intros e workingdir pipeline on_error_raise prefix ui ri statement cwd d Ho.
  apply peek_spawned_inv in Ho as (script & -> & Hr).
  rewrite from_child_result in Hr.
  destruct (Peek.popen e ("python " +:+ script +:+ " -f -v 0 dump") cwd)
    as [returncode stdout].
  destruct (negb (returncode =? 0)%Z); [done|].
  cbn [snd].
  destruct (Peek.decode e stdout) as [text|x] eqn:Hd; [|done].
  cbn [Exc.and_then] in Hr.
  destruct (List.filter _ (Py.splitlines text)) as [|line [|line' lines]]
    eqn:Hl; [done| |done].
  destruct (Peek.json_loads e line) as [dump|] eqn:Hj; [|done].
  exists text, line, dump. split; [done|]. split; [done|]. split; [done|].
  by apply (finish_entries e cwd ui ri prefix dump d).
Qed.

Lemma peek_parameters_entries_witness :
  exists text line dump,
    Peek.decode (MoreExamples.process MoreExamples.args 0 MoreExamples.printed)
      (snd (Peek.popen
              (MoreExamples.process MoreExamples.args 0 MoreExamples.printed)
              MoreExamples.dump_statement "run_b"))
    = Exc.Val text
    /\ List.filter (fun x => Py.startswith x "{") (Py.splitlines text)
       = [line]
    /\ Peek.json_loads
         (MoreExamples.process MoreExamples.args 0 MoreExamples.printed) line
       = Some dump
    /\ forall j v,
         MoreExamples.peeked_config !! j = Some v <->
         exists k v0,
           j = default "" (Some "b_") +:+ k /\ dump !! k = Some v0
           /\ peeked (Peek.join
                        (MoreExamples.process MoreExamples.args 0
                           MoreExamples.printed) "run_b")
                true false k v0 = Some v.
Proof.
  apply (peek_parameters_entries
           (MoreExamples.process MoreExamples.args 0 MoreExamples.printed)
           "run_b" "pipeline_b.py" (Some true) (Some "b_") true false).
  vm_compute. reflexivity.
Defined.

(** X20: on_error_raise does not reach the child: whatever it is, once
    the child was started the function raises OSError when the child
    ends with another return code than 0, IndexError when no line of
    its output starts with a brace, ValueError when more than one does,
    and the error of the JSON parser when the one line does not
    parse. *)
Theorem peek_parameters_child_errors :
  forall (e : Peek.env) (workingdir pipeline : string)
         (on_error_raise : option bool) (prefix : option string)
         (update_interface restrict_interface : bool)
         (statement cwd : string),
    let o := Peek.peek_parameters e workingdir pipeline on_error_raise
               prefix update_interface restrict_interface in
    Peek.spawned o = [(statement, cwd)] ->
    (fst (Peek.popen e statement cwd) <> 0%Z ->
     Peek.result o = Exc.Err Exc.OSError)
    /\ (fst (Peek.popen e statement cwd) = 0%Z ->
        forall text,
          Peek.decode e (snd (Peek.popen e statement cwd)) = Exc.Val text ->
          match
            List.filter (fun x => Py.startswith x "{") (Py.splitlines text)
          with
          | [] => Peek.result o = Exc.Err Exc.IndexError
          | [line] =>
              Peek.json_loads e line = None ->
              Peek.result o = Exc.Err Exc.JSONDecodeError
          | _ :: _ :: _ => Peek.result o = Exc.Err Exc.ValueError
          end).
Proof.
  intros e workingdir pipeline on_error_raise prefix ui ri statement cwd o Hs.
  destruct o as [sp r] eqn:Ho. cbn in Hs. subst sp. subst o.
  apply peek_spawned_inv in Ho as (script & -> & ->).
  cbn [Peek.result]. rewrite from_child_result.
  destruct (Peek.popen e ("python " +:+ script +:+ " -f -v 0 dump") cwd)
    as [returncode stdout].
  cbn [fst snd]. split.
  - intros Hrc. apply Z.eqb_neq in Hrc. by rewrite Hrc.
  - intros -> text ->. cbn.
    destruct (List.filter _ (Py.splitlines text)) as [|line [|line' lines]];
      try done.
    by intros ->.
Qed.

Lemma peek_parameters_child_errors_witness :
  Peek.result
    (Peek.peek_parameters (MoreExamples.process MoreExamples.args 1 "")
       "run_b" "pipeline_b.py" (Some false) None false false)
  = Exc.Err Exc.OSError.
Proof.
  apply (peek_parameters_child_errors
           (MoreExamples.process MoreExamples.args 1 "")
           "run_b" "pipeline_b.py" (Some false) None false false
           MoreExamples.dump_statement "run_b");
    vm_compute; [reflexivity|discriminate].
Defined.

(** X21: with update_interface set, the function raises TypeError when
    an entry of the interface in the configuration that the child
    printed holds something else than a string, as a number. *)
Theorem peek_parameters_interface_type_error :
  forall (e : Peek.env) (workingdir pipeline : string)
         (on_error_raise : option bool) (prefix : option string)
         (restrict_interface : bool)
         (statement cwd stdout text line k : string)
         (dump : gmap string Peek.jvalue) (n : nat),
    let o := Peek.peek_parameters e workingdir pipeline on_error_raise
               prefix true restrict_interface in
    Peek.spawned o = [(statement, cwd)] ->
    Peek.popen e statement cwd = (0%Z, stdout) ->
    Peek.decode e stdout = Exc.Val text ->
    List.filter (fun x => Py.startswith x "{") (Py.splitlines text) = [line] ->
    Peek.json_loads e line = Some dump ->
    Py.startswith k "interface" = true ->
    dump !! k = Some (Peek.JOther n) ->
    Peek.result o = Exc.Err Exc.TypeError.
Proof.
  intros e workingdir pipeline on_error_raise prefix ri statement cwd stdout
    text line k dump n o Hs Hp Hd Hl Hj Hi Hk.
  destruct o as [sp r] eqn:Ho. cbn in Hs. subst sp. subst o.
  apply peek_spawned_inv in Ho as (script & -> & ->).
  rewrite from_child_result, Hp. cbn. rewrite Hd. cbn. rewrite Hl, Hj.
  by apply (finish_type_error e cwd ri prefix dump k n).
Qed.

Lemma peek_parameters_interface_type_error_witness :
  Peek.result
    (Peek.peek_parameters
       (MoreExamples.process MoreExamples.args 0 MoreExamples.printed_bad)
       "run_b" "pipeline_b.py" (Some false) None true false)
  = Exc.Err Exc.TypeError.
Proof.
  apply (peek_parameters_interface_type_error
           (MoreExamples.process MoreExamples.args 0 MoreExamples.printed_bad)
           "run_b" "pipeline_b.py" (Some false) None false
           MoreExamples.dump_statement "run_b" MoreExamples.printed_bad
           MoreExamples.printed_bad MoreExamples.bad_line "interface_n"
           MoreExamples.bad_config 4);
    vm_compute; reflexivity.
Defined.



